(** * psxavenc: the re-timing core of the decoder front end

    A shallow embedding of [ringbuf.c] (the bounded ring of fixed-size
    items) and of the packet pump of [decoding.c] ([poll_av_packet_audio],
    [poll_av_packet_video], [poll_av_data], [ensure_av_data]), followed by
    the properties of the natural-language specification; then of
    [destroy_ring_buffer], [open_av_data] and [close_av_data], with
    further properties of the code, numbered X1 onwards.

    Conventions of the embedding.
    - A C [int] is a [Z].  Signed overflow is undefined in C, and under
      the ring invariant no expression of [ringbuf.c] leaves the [int]
      range for a capacity up to [2^30] ([ring_arithmetic_in_int]; the
      program uses 0x4000 samples and 0x20 frames); arithmetic on [int] is
      therefore exact.  [a % b] on [int] is the truncating remainder
      [Z.rem], and is a fault when [b = 0].
    - [size_t] is unsigned 64 bit: conversions and products wrap modulo
      [2^64], and so does the address a pointer sum evaluates to.
    - [assert] is compiled in: a failing assertion stops the program.
    - A [double] is a timestamp type with the operations the code applies
      to it.  The arithmetic of the program is IEEE 754 binary64
      ([float_timestamp]): the statements about the code are generic in
      the timestamp type, so that they hold for binary64, or are evaluated
      with it.  Exact rationals ([Qc_timestamp]) are an idealisation kept
      beside it for comparison; they round nothing, have no infinities and
      no NaN, and the two can differ on plain input.
    - FFmpeg (demuxing, decoding, resampling, scaling) is an oracle: every
      packet of the input carries what the library calls return for it. *)

From Stdlib Require Import ZArith QArith Qcanon Floats Uint63 Lia.
From stdpp Require Import base list.

Local Open Scope Z_scope.

(** ** Outcomes of a C function *)

Inductive fault : Set :=
| AssertionFailed   (* assert(...) evaluated to false *)
| DivisionByZero    (* x % 0 *)
| OutOfBounds.      (* an access outside the block a pointer belongs to *)

Inductive outcome (A : Type) : Type :=
| Ok (a : A)
| Fault (f : fault)
| OutOfFuel.        (* a loop did not end within the iterations granted *)

Arguments Ok {A} a.
Arguments Fault {A} f.
Arguments OutOfFuel {A}.

Definition bind {A B : Type} (m : outcome A) (k : A -> outcome B) : outcome B :=
  match m with
  | Ok a => k a
  | Fault f => Fault f
  | OutOfFuel => OutOfFuel
  end.

Notation "x <- m ;; k" := (bind m (fun x => k))
  (at level 100, m at next level, right associativity).

Definition assert (b : bool) : outcome unit :=
  if b then Ok tt else Fault AssertionFailed.

(** ** C arithmetic *)

(** [a % b] on [int]. *)
Definition c_rem (a b : Z) : outcome Z :=
  if b =? 0 then Fault DivisionByZero else Ok (Z.rem a b).

Definition INT_MAX : Z := 0x7fffffff.
Definition INT_MIN : Z := - 0x80000000.

(** [z] is a value of type [int]. *)
Definition in_int (z : Z) : Prop := INT_MIN <= z <= INT_MAX.

Definition SIZE_MODULUS : Z := 2 ^ 64.

(** Conversion of an [int] to [size_t]. *)
Definition size_t_of_int (z : Z) : Z := z mod SIZE_MODULUS.

(** [a * b] in [size_t]. *)
Definition size_mul (a b : Z) : Z := (a * b) mod SIZE_MODULUS.

(** [(uint8_t * )p + n] for a [size_t] [n]. *)
Definition ptr_add (p n : Z) : Z := (p + n) mod SIZE_MODULUS.

(** ** ringbuf.h: [ring_buffer_t]

    [data] is the address of the block ([0] is [NULL]); [cells] is the
    content of that block, one entry per item slot of [item_size] bytes.
    The length of [cells] is the size malloc really gave the block. *)

Record ring_buffer_t (T : Type) : Type := mk_ring_buffer {
  data : Z;
  item_size : Z;
  capacity : Z;
  head : Z;
  tail : Z;
  count : Z;
  cells : list T
}.

Arguments mk_ring_buffer {T}.
Arguments data {T} _.
Arguments item_size {T} _.
Arguments capacity {T} _.
Arguments head {T} _.
Arguments tail {T} _.
Arguments count {T} _.
Arguments cells {T} _.

Section RingBuffer.

Context {T : Type}.

Definition set_tail_count (buf : ring_buffer_t T) (t c : Z) : ring_buffer_t T :=
  mk_ring_buffer (data buf) (item_size buf) (capacity buf) (head buf) t c (cells buf).

Definition set_head_count (buf : ring_buffer_t T) (h c : Z) : ring_buffer_t T :=
  mk_ring_buffer (data buf) (item_size buf) (capacity buf) h (tail buf) c (cells buf).

Definition set_cells (buf : ring_buffer_t T) (l : list T) : ring_buffer_t T :=
  mk_ring_buffer (data buf) (item_size buf) (capacity buf) (head buf) (tail buf)
    (count buf) l.

(** [init_ring_buffer]: [block] is what malloc returns and [junk] the
    (uninitialised) content of the block. *)
Definition init_ring_buffer (block : Z) (junk : list T)
    (item_size initial_capacity : Z) : outcome (ring_buffer_t T) :=
  _ <- assert (item_size >? 0) ;;
  if initial_capacity >? 0 then
    _ <- assert (negb (block =? 0)) ;;
    Ok (mk_ring_buffer block item_size initial_capacity 0 0 0 junk)
  else
    Ok (mk_ring_buffer 0 item_size initial_capacity 0 0 0 []).

Definition ring_buffer_append (buf : ring_buffer_t T) (n : Z)
    : outcome (ring_buffer_t T) :=
  _ <- assert ((n >=? 0) && (n <=? capacity buf - count buf)) ;;
  t <- c_rem (tail buf + n) (capacity buf) ;;
  Ok (set_tail_count buf t (count buf + n)).

Definition ring_buffer_remove (buf : ring_buffer_t T) (n : Z)
    : outcome (ring_buffer_t T) :=
  _ <- assert ((n >=? 0) && (n <=? count buf)) ;;
  h <- c_rem (head buf + n) (capacity buf) ;;
  Ok (set_head_count buf h (count buf - n)).

Definition ring_buffer_get_head (buf : ring_buffer_t T) (offset : Z) : outcome Z :=
  _ <- assert ((offset <=? count buf) && (count buf >? 0)) ;;
  offset <- c_rem (head buf + offset) (capacity buf) ;;
  Ok (ptr_add (data buf) (size_mul (item_size buf) (size_t_of_int offset))).

Definition ring_buffer_get_tail (buf : ring_buffer_t T) (offset : Z) : outcome Z :=
  _ <- assert (offset <=? count buf) ;;
  offset <- c_rem (tail buf - offset) (capacity buf) ;;
  Ok (ptr_add (data buf) (size_mul (item_size buf) (size_t_of_int offset))).

Definition ring_buffer_is_contiguous (buf : ring_buffer_t T) : bool :=
  (head buf + count buf =? tail buf) || (head buf + count buf =? capacity buf).

Definition ring_buffer_get_contiguous_span (buf : ring_buffer_t T) : Z :=
  if ring_buffer_is_contiguous buf then capacity buf - tail buf
  else head buf - tail buf.

(** *** Accesses through a pointer into the block

    The slot a pointer designates, when it points at the start of an item
    inside the block. *)
Definition slot_of_ptr (buf : ring_buffer_t T) (ptr : Z) : outcome nat :=
  let off := ptr - data buf in
  if (item_size buf >? 0) && (off >=? 0) && (off mod item_size buf =? 0)
  then Ok (Z.to_nat (off / item_size buf))
  else Fault OutOfBounds.

(** Reading the item at [ptr]. *)
Definition load_item (buf : ring_buffer_t T) (ptr : Z) : outcome T :=
  i <- slot_of_ptr buf ptr ;;
  match cells buf !! i with
  | Some x => Ok x
  | None => Fault OutOfBounds
  end.

(** [memcpy(ptr, src, item_size * n)]: the first [n] items of [src] are
    written to consecutive slots from [ptr] on.  A negative [n] converts
    to a huge [size_t]. *)
Definition memcpy_items (buf : ring_buffer_t T) (ptr : Z) (src : list T) (n : Z)
    : outcome (ring_buffer_t T) :=
  if n <? 0 then Fault OutOfBounds else
  i <- slot_of_ptr buf ptr ;;
  if (Z.of_nat i + n <=? Z.of_nat (length (cells buf)))
     && (n <=? Z.of_nat (length src))
  then Ok (set_cells buf (list_inserts i (take (Z.to_nat n) src) (cells buf)))
  else Fault OutOfBounds.

(** *** The invariant of the data model *)

Definition ring_inv (buf : ring_buffer_t T) : Prop :=
  0 < capacity buf /\
  0 <= count buf <= capacity buf /\
  0 <= head buf < capacity buf /\
  0 <= tail buf < capacity buf /\
  (tail buf - head buf) mod capacity buf = count buf mod capacity buf.

(** The block really holds [capacity] items and lies inside the address
    space. *)
Definition block_ok (buf : ring_buffer_t T) : Prop :=
  0 < item_size buf /\
  0 < data buf /\
  data buf + item_size buf * capacity buf <= SIZE_MODULUS /\
  length (cells buf) = Z.to_nat (capacity buf).

(** *** A sequence of calls *)

Inductive ring_op : Set :=
| Append (n : Z)
| Remove (n : Z).

Definition ring_step (buf : ring_buffer_t T) (op : ring_op) : outcome (ring_buffer_t T) :=
  match op with
  | Append n => ring_buffer_append buf n
  | Remove n => ring_buffer_remove buf n
  end.

(** The rings after each call of the sequence, in order. *)
Fixpoint ring_run (ops : list ring_op) (buf : ring_buffer_t T)
    : outcome (list (ring_buffer_t T)) :=
  match ops with
  | [] => Ok []
  | op :: ops' =>
      buf' <- ring_step buf op ;;
      rest <- ring_run ops' buf' ;;
      Ok (buf' :: rest)
  end.

(** Every call of the sequence meets its precondition; it only depends on
    the number of items queued when the call is made. *)
Fixpoint calls_respect (cap cnt : Z) (ops : list ring_op) : Prop :=
  match ops with
  | [] => True
  | Append n :: ops' => 0 <= n <= cap - cnt /\ calls_respect cap (cnt + n) ops'
  | Remove n :: ops' => 0 <= n <= cnt /\ calls_respect cap (cnt - n) ops'
  end.

End RingBuffer.

(** ** Timestamps: the operations of [double] the decoder uses *)

Class Timestamp (R : Type) : Type := {
  ts_of_int : Z -> R;      (* (double)i *)
  ts_mul : R -> R -> R;
  ts_div : R -> R -> R;
  ts_add : R -> R -> R;
  ts_ltb : R -> R -> bool  (* a < b *)
}.

(** Exact rationals: an idealisation of [double], not the arithmetic of
    the program.  Nothing is rounded, there are no infinities and no NaN,
    and [x / 0] is [0]; on plain input the binary64 decoder can queue a
    different number of frames than this one. *)
#[export] Instance Qc_timestamp : Timestamp Qc := {
  ts_of_int z := Q2Qc (inject_Z z);
  ts_mul := Qcmult;
  ts_div := Qcdiv;
  ts_add := Qcplus;
  ts_ltb x y := match (x ?= y)%Qc with Lt => true | _ => false end
}.

(** [(double)i] for an [int] or [int64_t] of magnitude below [2^63]. *)
Definition float_of_int (z : Z) : float :=
  if z <? 0 then PrimFloat.opp (PrimFloat.of_uint63 (Uint63.of_Z (- z)))
  else PrimFloat.of_uint63 (Uint63.of_Z z).

(** IEEE 754 binary64, the [double] of the platforms the program runs on. *)
#[export] Instance float_timestamp : Timestamp float := {
  ts_of_int := float_of_int;
  ts_mul := PrimFloat.mul;
  ts_div := PrimFloat.div;
  ts_add := PrimFloat.add;
  ts_ltb := PrimFloat.ltb
}.

(** ** decoding.c *)

Definition BUFFERED_AUDIO_SAMPLES : Z := 0x4000.
Definition BUFFERED_VIDEO_FRAMES : Z := 0x20.
Definition RESAMPLE_BUFFER_SIZE : Z := 0x1000.

Record AVRational : Set := mk_AVRational { num : Z; den : Z }.

(** What the audio path obtains for a packet: the result of [decode_frame],
    of [swr_get_out_samples], and the samples [swr_convert] leaves in the
    resample buffer (their number is its return value; an error return
    skips the copy loop exactly as an empty output does). *)
Record audio_result (A : Type) : Type := mk_audio_result {
  audio_decoded : bool;
  out_samples : Z;
  converted : list A
}.

(** What the video path obtains for a packet: the result of [decode_frame],
    the fields of the frame it reads, and the image [sws_scale] writes. *)
Record video_result (V : Type) : Type := mk_video_result {
  video_decoded : bool;
  frame_width : Z;
  frame_height : Z;
  frame_data0 : bool;     (* frame->data[0] != NULL *)
  frame_pts : Z;
  scaled : V
}.

Record AVPacket (A V : Type) : Type := mk_AVPacket {
  stream_index : Z;
  to_audio : audio_result A;
  to_video : video_result V
}.

Arguments mk_audio_result {A}.
Arguments audio_decoded {A} _.
Arguments out_samples {A} _.
Arguments converted {A} _.
Arguments mk_video_result {V}.
Arguments video_decoded {V} _.
Arguments frame_width {V} _.
Arguments frame_height {V} _.
Arguments frame_data0 {V} _.
Arguments frame_pts {V} _.
Arguments scaled {V} _.
Arguments mk_AVPacket {A V}.
Arguments stream_index {A V} _.
Arguments to_audio {A V} _.
Arguments to_video {A V} _.

(** [format] is the part of the input [av_read_frame] has not returned
    yet; [time_base] is [video_stream->time_base]. *)
Record decoder_state_t (R A V : Type) : Type := mk_decoder_state {
  video_next_pts : R;
  audio_stream_index : Z;
  video_stream_index : Z;
  format : list (AVPacket A V);
  time_base : AVRational
}.

Record decoder_t (R A V : Type) : Type := mk_decoder {
  audio_samples : ring_buffer_t A;
  video_frames : ring_buffer_t V;
  video_width : Z;
  video_height : Z;
  video_fps_num : Z;
  video_fps_den : Z;
  end_of_input : bool;
  state : decoder_state_t R A V
}.

Arguments mk_decoder_state {R A V}.
Arguments video_next_pts {R A V} _.
Arguments audio_stream_index {R A V} _.
Arguments video_stream_index {R A V} _.
Arguments format {R A V} _.
Arguments time_base {R A V} _.
Arguments mk_decoder {R A V}.
Arguments audio_samples {R A V} _.
Arguments video_frames {R A V} _.
Arguments video_width {R A V} _.
Arguments video_height {R A V} _.
Arguments video_fps_num {R A V} _.
Arguments video_fps_den {R A V} _.
Arguments end_of_input {R A V} _.
Arguments state {R A V} _.

Section Decoding.

Context {R : Type} `{Timestamp R} {A V : Type}.

Abbreviation decoder := (decoder_t R A V).

Definition set_audio_samples (d : decoder) (buf : ring_buffer_t A) : decoder :=
  mk_decoder buf (video_frames d) (video_width d) (video_height d)
    (video_fps_num d) (video_fps_den d) (end_of_input d) (state d).

Definition set_video_frames (d : decoder) (buf : ring_buffer_t V) : decoder :=
  mk_decoder (audio_samples d) buf (video_width d) (video_height d)
    (video_fps_num d) (video_fps_den d) (end_of_input d) (state d).

Definition set_end_of_input (d : decoder) (b : bool) : decoder :=
  mk_decoder (audio_samples d) (video_frames d) (video_width d) (video_height d)
    (video_fps_num d) (video_fps_den d) b (state d).

Definition set_video_next_pts (d : decoder) (t : R) : decoder :=
  mk_decoder (audio_samples d) (video_frames d) (video_width d) (video_height d)
    (video_fps_num d) (video_fps_den d) (end_of_input d)
    (mk_decoder_state t (audio_stream_index (state d))
       (video_stream_index (state d)) (format (state d)) (time_base (state d))).

Definition set_format (d : decoder) (l : list (AVPacket A V)) : decoder :=
  mk_decoder (audio_samples d) (video_frames d) (video_width d) (video_height d)
    (video_fps_num d) (video_fps_den d) (end_of_input d)
    (mk_decoder_state (video_next_pts (state d)) (audio_stream_index (state d))
       (video_stream_index (state d)) l (time_base (state d))).

(** The copy loop of [poll_av_packet_audio]: [ptr] is what remains of the
    resample buffer, [sample_count] the samples still to queue.  Besides
    the ring, the loop returns the [span_count] of each iteration in
    order (a log the C code does not keep). *)
Fixpoint audio_span_loop (fuel : nat) (buf : ring_buffer_t A) (ptr : list A)
    (sample_count : Z) : outcome (ring_buffer_t A * list Z) :=
  if sample_count >? 0 then
    match fuel with
    | O => OutOfFuel
    | S fuel' =>
        span <- ring_buffer_get_tail buf 0 ;;
        let span_count := ring_buffer_get_contiguous_span buf in
        let span_count :=
          if span_count >? sample_count then sample_count else span_count in
        buf1 <- memcpy_items buf span ptr span_count ;;
        buf2 <- ring_buffer_append buf1 span_count ;;
        r <- audio_span_loop fuel' buf2 (drop (Z.to_nat span_count) ptr)
               (sample_count - span_count) ;;
        Ok (fst r, span_count :: snd r)
    end
  else Ok (buf, []).

Definition poll_av_packet_audio (fuel : nat) (d : decoder) (packet : AVPacket A V)
    : outcome decoder :=
  let r := to_audio packet in
  if negb (audio_decoded r) then Ok d else
  let sample_count := out_samples r in
  if sample_count =? 0 then Ok d else
  _ <- assert (sample_count <=? RESAMPLE_BUFFER_SIZE) ;;
  let ptr := converted r in
  let sample_count := Z.of_nat (length ptr) in
  r <- audio_span_loop fuel (audio_samples d) ptr sample_count ;;
  Ok (set_audio_samples d (fst r)).

(** The duplication loop of [poll_av_packet_video]; it returns the ring
    and the value of [video_next_pts] it ends with. *)
Fixpoint video_dup_loop (fuel : nat) (buf : ring_buffer_t V)
    (video_next_pts frame_time pts : R) : outcome (ring_buffer_t V * R) :=
  if ts_ltb (ts_add video_next_pts frame_time) pts then
    match fuel with
    | O => OutOfFuel
    | S fuel' =>
        last_frame <- ring_buffer_get_tail buf 1 ;;
        dupe_frame <- ring_buffer_get_tail buf 0 ;;
        _ <- assert (negb (last_frame =? 0)) ;;
        x <- load_item buf last_frame ;;
        buf1 <- memcpy_items buf dupe_frame [x] 1 ;;
        buf2 <- ring_buffer_append buf1 1 ;;
        video_dup_loop fuel' buf2 (ts_add video_next_pts frame_time) frame_time pts
    end
  else Ok (buf, video_next_pts).

Definition frame_time (d : decoder) : R :=
  ts_div (ts_of_int (video_fps_den d)) (ts_of_int (video_fps_num d)).

Definition pts_seconds (d : decoder) (r : video_result V) : R :=
  ts_div (ts_mul (ts_of_int (frame_pts r)) (ts_of_int (num (time_base (state d)))))
    (ts_of_int (den (time_base (state d)))).

Definition poll_av_packet_video (fuel : nat) (d : decoder) (packet : AVPacket A V)
    : outcome decoder :=
  let r := to_video packet in
  if negb (video_decoded r) then Ok d else
  if (frame_width r =? 0) || (frame_height r =? 0) || negb (frame_data0 r)
  then Ok d else
  let frame_time := frame_time d in
  let pts := pts_seconds d r in
  let first := count (video_frames d) =? 0 in
  if negb first && ts_ltb pts (video_next_pts (state d)) then Ok d else
  let next := if first then pts else video_next_pts (state d) in
  l <- video_dup_loop fuel (video_frames d) next frame_time pts ;;
  let buf := fst l in
  new_frame <- ring_buffer_get_tail buf 0 ;;
  buf1 <- memcpy_items buf new_frame [scaled r] 1 ;;
  buf2 <- ring_buffer_append buf1 1 ;;
  Ok (set_video_next_pts (set_video_frames d buf2) (ts_add (snd l) frame_time)).

Definition poll_av_data (fuel : nat) (d : decoder) : outcome (bool * decoder) :=
  if end_of_input d then Ok (false, d) else
  match format (state d) with
  | packet :: rest =>
      let d := set_format d rest in
      d' <- (if stream_index packet =? audio_stream_index (state d)
             then poll_av_packet_audio fuel d packet
             else if stream_index packet =? video_stream_index (state d)
             then poll_av_packet_video fuel d packet
             else Ok d) ;;
      Ok (true, d')
  | [] => Ok (false, set_end_of_input d true)
  end.

(** The condition of the loop of [ensure_av_data]. *)
Definition ensure_waits (d : decoder) (needed_audio_samples needed_video_frames : Z)
    : bool :=
  (negb (needed_audio_samples =? 0)
     && (count (audio_samples d) <=? needed_audio_samples))
  || (negb (needed_video_frames =? 0)
     && (count (video_frames d) <=? needed_video_frames)).

(** [rounds] bounds the iterations of the [while] loop. *)
Fixpoint ensure_av_data_loop (rounds fuel : nat) (d : decoder)
    (needed_audio_samples needed_video_frames : Z) : outcome (bool * decoder) :=
  if ensure_waits d needed_audio_samples needed_video_frames then
    match rounds with
    | O => OutOfFuel
    | S rounds' =>
        p <- poll_av_data fuel d ;;
        let d := snd p in
        if negb (fst p) then
          Ok (((count (audio_samples d) >? 0) || (needed_audio_samples =? 0))
              && ((count (video_frames d) >? 0) || (needed_video_frames =? 0)), d)
        else
          ensure_av_data_loop rounds' fuel d needed_audio_samples needed_video_frames
    end
  else Ok (true, d).

(** Every iteration but the last consumes a packet of the input, so one
    round more than there are packets left is all the loop can use. *)
Definition ensure_av_data (fuel : nat) (d : decoder)
    (needed_audio_samples needed_video_frames : Z) : outcome (bool * decoder) :=
  ensure_av_data_loop (S (length (format (state d)))) fuel d
    needed_audio_samples needed_video_frames.

(** The input has nothing more to give: the end was seen already, or
    [av_read_frame] will report it at the next call. *)
Definition exhausted (d : decoder) : Prop :=
  end_of_input d = true \/ format (state d) = [].

End Decoding.

(** The [span_count]s the copy loop goes through for a chunk of [n]
    samples when the first span reported is [span]: the chunk at once when
    it fits, otherwise the span and then the rest. *)
Definition expected_spans (span n : Z) : list Z :=
  if n <=? 0 then []
  else if n <=? span then [n]
  else [span; n - span].

(** ** The ring as its users drive it *)

Section RingUsers.

Context {T : Type}.

(** Reading the item [offset] places after the head: [ring_buffer_get_head]
    and a load through the pointer it returns. *)
Definition peek_head (buf : ring_buffer_t T) (offset : Z) : outcome T :=
  p <- ring_buffer_get_head buf offset ;;
  load_item buf p.

(** [n] successive reads at the offsets [start], [start + 1], ... *)
Fixpoint peek_range (buf : ring_buffer_t T) (start : Z) (n : nat)
    : outcome (list T) :=
  match n with
  | O => Ok []
  | S n' =>
      x <- peek_head buf start ;;
      r <- peek_range buf (start + 1) n' ;;
      Ok (x :: r)
  end.

(** All queued items, oldest first. *)
Definition ring_items (buf : ring_buffer_t T) : outcome (list T) :=
  peek_range buf 0 (Z.to_nat (count buf)).

(** One batch written the way the copy loop of [poll_av_packet_audio]
    writes a span: at [ring_buffer_get_tail(buf, 0)], then committed with
    [ring_buffer_append]. *)
Definition write_span (buf : ring_buffer_t T) (batch : list T)
    : outcome (ring_buffer_t T) :=
  span <- ring_buffer_get_tail buf 0 ;;
  buf1 <- memcpy_items buf span batch (Z.of_nat (length batch)) ;;
  ring_buffer_append buf1 (Z.of_nat (length batch)).

Fixpoint write_spans (buf : ring_buffer_t T) (batches : list (list T))
    : outcome (ring_buffer_t T) :=
  match batches with
  | [] => Ok buf
  | batch :: batches' =>
      buf' <- write_span buf batch ;;
      write_spans buf' batches'
  end.

(** Each batch is no longer than [ring_buffer_get_contiguous_span] reports
    when the batch is written. *)
Fixpoint spans_respected (buf : ring_buffer_t T) (batches : list (list T)) : Prop :=
  match batches with
  | [] => True
  | batch :: batches' =>
      Z.of_nat (length batch) <= ring_buffer_get_contiguous_span buf /\
      forall buf', write_span buf batch = Ok buf' -> spans_respected buf' batches'
  end.

(** The address of slot [i] of the block. *)
Definition slot_address (buf : ring_buffer_t T) (i : Z) : Z :=
  data buf + item_size buf * i.

(** The ring after the first [n] items of [src] have been copied to the
    slots from [tail] on and committed. *)
Definition written (buf : ring_buffer_t T) (src : list T) (n : Z) : ring_buffer_t T :=
  set_tail_count
    (set_cells buf
       (list_inserts (Z.to_nat (tail buf)) (take (Z.to_nat n) src) (cells buf)))
    ((tail buf + n) mod capacity buf) (count buf + n).

End RingUsers.

(** ** Decoders for the worked examples *)

Section Sessions.

Context {R : Type} `{Timestamp R} {A V : Type}.

(** The fields [open_av_data] leaves in a decoder whose rings are [abuf]
    and [vbuf]. *)
Definition opened_decoder (abuf : ring_buffer_t A) (vbuf : ring_buffer_t V)
    (fps_num fps_den : Z) (tb : AVRational) (audio_index video_index : Z)
    (input : list (AVPacket A V)) : decoder_t R A V :=
  mk_decoder abuf vbuf 320 240 fps_num fps_den false
    (mk_decoder_state (ts_of_int 0) audio_index video_index input tb).

(** [n] calls of [poll_av_data] in a row. *)
Fixpoint poll_times (n fuel : nat) (d : decoder_t R A V) : outcome (decoder_t R A V) :=
  match n with
  | O => Ok d
  | S n' =>
      p <- poll_av_data fuel d ;;
      poll_times n' fuel (snd p)
  end.

End Sessions.

(** A packet of the video stream that decodes to a frame with the given
    [pts] (in units of the time base) and converted image. *)
Definition video_packet {A V : Type} (index pts : Z) (image : V) : AVPacket A V :=
  mk_AVPacket index (mk_audio_result false 0 [])
    (mk_video_result true 320 240 true pts image).

(** A packet of the audio stream that resamples to the given samples. *)
Definition audio_packet {A V : Type} (index : Z) (samples : list A) (image : V)
    : AVPacket A V :=
  mk_AVPacket index (mk_audio_result true (Z.of_nat (length samples)) samples)
    (mk_video_result false 0 0 false 0 image).

(** The ring [init_ring_buffer] makes in a block at address [block] whose
    slots all hold [fill]. *)
Definition fresh_ring {T : Type} (block : Z) (fill : T) (item_size capacity : Z)
    : ring_buffer_t T :=
  mk_ring_buffer block item_size capacity 0 0 0 (replicate (Z.to_nat capacity) fill).

(** The ring of a track the input does not have: [init_ring_buffer(buf, 1, 0)]. *)
Definition absent_ring {T : Type} : ring_buffer_t T :=
  mk_ring_buffer 0 1 0 0 0 0 [].

(** An audio ring with 11384 samples queued from slot 2000 on: 3000 free
    slots up to the end of the block and 2000 at its start. *)
Definition wrapped_audio_ring : ring_buffer_t Z :=
  mk_ring_buffer 4096 4 BUFFERED_AUDIO_SAMPLES 2000 13384 11384
    (replicate (Z.to_nat BUFFERED_AUDIO_SAMPLES) 0).

(** A resampled chunk of 5000 samples, numbered from 1. *)
Definition chunk_5000 : list Z := seqZ 1 5000.

(** A ring of four slots whose two queued items sit in the last two slots,
    so that [tail] is back at slot 0. *)
Definition tail_at_start_ring : ring_buffer_t Z :=
  mk_ring_buffer 4096 8 4 2 0 2 [10; 20; 30; 40].

(** A video track at 5 frames per second ([frame_time] is 0.2 s) and no
    audio track; the three frames have the presentation times 0.0, 0.5 and
    1.0 s in a time base of 1/10 s. *)
Definition three_frame_session (R : Type) `{Timestamp R} : decoder_t R Z Z :=
  opened_decoder absent_ring (fresh_ring 4096 0 8 BUFFERED_VIDEO_FRAMES) 5 1
    (mk_AVRational 1 10) (-1) 0
    [video_packet 0 0 100; video_packet 0 5 200; video_packet 0 10 300].

(** The same track with five frames at 0.0, 0.05, 0.1, 0.15 and 0.2 s in a
    time base of 1/20 s. *)
Definition five_frame_session (R : Type) `{Timestamp R} : decoder_t R Z Z :=
  opened_decoder absent_ring (fresh_ring 4096 0 8 BUFFERED_VIDEO_FRAMES) 5 1
    (mk_AVRational 1 20) (-1) 0
    [video_packet 0 0 100; video_packet 0 1 101; video_packet 0 2 102;
     video_packet 0 3 103; video_packet 0 4 104].

(** A decoder at the end of its input: the audio ring is empty and the
    video ring still holds one frame. *)
Definition drained_decoder : decoder_t Qc Z Z :=
  mk_decoder (fresh_ring 4096 0 4 BUFFERED_AUDIO_SAMPLES)
    (written (fresh_ring 1048576 0 8 BUFFERED_VIDEO_FRAMES) [100] 1)
    320 240 15 1 true
    (mk_decoder_state (ts_of_int 1) 1 0 [] (mk_AVRational 1 15)).

(** A ring of eight slots holding three samples in slots 2 to 4. *)
Definition small_wrapped_ring : ring_buffer_t Z :=
  mk_ring_buffer 4096 4 8 2 5 3 [0; 0; 7; 8; 9; 0; 0; 0].

(** An empty ring of four slots whose head and tail are at the last slot. *)
Definition empty_ring_at_3 : ring_buffer_t Z :=
  mk_ring_buffer 4096 8 4 3 3 0 [0; 0; 0; 0].

(** A packet of a stream the decoder was not opened for. *)
Definition other_packet {A V : Type} (index : Z) (samples : list A) (image : V)
    : AVPacket A V :=
  mk_AVPacket index (mk_audio_result true (Z.of_nat (length samples)) samples)
    (mk_video_result true 320 240 true 0 image).

(** An input with an audio track (stream 0), a video track (stream 1) and
    a packet of a third stream first. *)
Definition mixed_session : decoder_t Qc Z Z :=
  opened_decoder (fresh_ring 4096 0 4 BUFFERED_AUDIO_SAMPLES)
    (fresh_ring 1048576 0 8 BUFFERED_VIDEO_FRAMES) 15 1 (mk_AVRational 1 15) 0 1
    [other_packet 2 [1; 2; 3] 50; video_packet 1 0 100].

(** The five-frame session with a presentation time of 1000 s expected
    next, although nothing is queued. *)
Definition late_session : decoder_t Qc Z Z :=
  set_video_next_pts (five_frame_session Qc) (ts_of_int 1000).

(** A decoder at 5 frames per second with one frame queued and the next
    one expected at 0.2 s. *)
Definition one_frame_session : decoder_t Qc Z Z :=
  mk_decoder absent_ring
    (written (fresh_ring 4096 0 8 BUFFERED_VIDEO_FRAMES) [100] 1)
    320 240 5 1 false
    (mk_decoder_state (Q2Qc (1 # 5)) (-1) 0 [] (mk_AVRational 1 20)).

(** An audio-only input of three packets of 60 samples each. *)
Definition audio_session : decoder_t Qc Z Z :=
  opened_decoder (fresh_ring 4096 0 4 BUFFERED_AUDIO_SAMPLES) absent_ring 15 1
    (mk_AVRational 1 15) 0 (-1)
    [audio_packet 0 (seqZ 1 60) 0; audio_packet 0 (seqZ 61 60) 0;
     audio_packet 0 (seqZ 121 60) 0].

(** ** Teardown, and the ring as a queue *)

Section RingTeardown.

Context {T : Type}.

(** [destroy_ring_buffer]: [free] gives the block back, so no slot of it
    can be accessed any more. *)
Definition destroy_ring_buffer (buf : ring_buffer_t T) : ring_buffer_t T :=
  if negb (data buf =? 0) then
    mk_ring_buffer 0 (item_size buf) 0 (head buf) (tail buf) (count buf) []
  else buf.

(** A producer and a consumer sharing the ring: a batch written at the
    tail as in [write_span], or [n] items released at the head. *)
Inductive queue_op : Type :=
| Write (batch : list T)
| Release (n : Z).

Definition queue_step (buf : ring_buffer_t T) (op : queue_op) : outcome (ring_buffer_t T) :=
  match op with
  | Write batch => write_span buf batch
  | Release n => ring_buffer_remove buf n
  end.

Fixpoint queue_run (ops : list queue_op) (buf : ring_buffer_t T)
    : outcome (ring_buffer_t T) :=
  match ops with
  | [] => Ok buf
  | op :: ops' =>
      buf' <- queue_step buf op ;;
      queue_run ops' buf'
  end.

(** The same operations on a first-in first-out list. *)
Fixpoint fifo_run (ops : list queue_op) (l : list T) : list T :=
  match ops with
  | [] => l
  | Write batch :: ops' => fifo_run ops' (l ++ batch)
  | Release n :: ops' => fifo_run ops' (drop (Z.to_nat n) l)
  end.

(** Every batch fits the span reported and the free slots when it is
    written, and no more items are released than are queued. *)
Fixpoint queue_ops_fit (ops : list queue_op) (buf : ring_buffer_t T) : Prop :=
  match ops with
  | [] => True
  | op :: ops' =>
      match op with
      | Write batch =>
          Z.of_nat (length batch) <= ring_buffer_get_contiguous_span buf /\
          Z.of_nat (length batch) <= capacity buf - count buf
      | Release n => 0 <= n <= count buf
      end /\
      forall buf', queue_step buf op = Ok buf' -> queue_ops_fit ops' buf'
  end.

End RingTeardown.

(** ** Calls that come back, calls that do not *)

(** The call came back to its caller. *)
Definition returns {A : Type} (o : outcome A) : Prop :=
  match o with Ok _ => True | _ => False end.

(** The call did not come back: it stopped on a fault or did not end. *)
Definition stops {A : Type} (o : outcome A) : Prop :=
  match o with Ok _ => False | _ => True end.

(** [b'] is [b] after a producer worked on it: still a well-formed ring of
    the same capacity, with everything [b] had queued in front, in order. *)
Definition ring_extends {T : Type} (b b' : ring_buffer_t T) : Prop :=
  forall l, ring_inv b -> block_ok b -> ring_items b = Ok l ->
    ring_inv b' /\ block_ok b' /\ capacity b' = capacity b /\
    exists more, ring_items b' = Ok (l ++ more).

(** ** [open_av_data] and [close_av_data]

    [(int)x] for a [double]: the value without its fraction.  C leaves the
    conversion of a value that is no [int] undefined; it is given here the
    result of the conversion instruction of x86-64, [INT_MIN]. *)
Class Truncation (R : Type) : Type := {
  ts_to_int : R -> Z
}.

Definition int_or_indefinite (z : Z) : Z :=
  if (INT_MIN <=? z) && (z <=? INT_MAX) then z else INT_MIN.

(** With exact rationals, the idealisation of [Qc_timestamp]. *)
#[export] Instance Qc_truncation : Truncation Qc := {
  ts_to_int q := int_or_indefinite (Z.quot (Qnum q) (Z.pos (Qden q)))
}.

Definition float_to_int (f : float) : Z :=
  match Prim2SF f with
  | S754_zero _ => 0
  | S754_finite s m e =>
      let magnitude :=
        if e >=? 0 then Z.pos m * 2 ^ e else Z.quot (Z.pos m) (2 ^ (- e)) in
      int_or_indefinite (if s then - magnitude else magnitude)
  | _ => INT_MIN
  end.

#[export] Instance float_truncation : Truncation float := {
  ts_to_int := float_to_int
}.

(** [enum AVMediaType] of libavutil, with the values of its enumerators. *)
Inductive AVMediaType : Set :=
| AVMEDIA_TYPE_UNKNOWN
| AVMEDIA_TYPE_VIDEO
| AVMEDIA_TYPE_AUDIO
| AVMEDIA_TYPE_DATA
| AVMEDIA_TYPE_SUBTITLE
| AVMEDIA_TYPE_ATTACHMENT.

Definition AVMediaType_value (t : AVMediaType) : Z :=
  match t with
  | AVMEDIA_TYPE_UNKNOWN => -1
  | AVMEDIA_TYPE_VIDEO => 0
  | AVMEDIA_TYPE_AUDIO => 1
  | AVMEDIA_TYPE_DATA => 2
  | AVMEDIA_TYPE_SUBTITLE => 3
  | AVMEDIA_TYPE_ATTACHMENT => 4
  end.

(** [a == b] on two media types. *)
Definition AVMediaType_eqb (a b : AVMediaType) : bool :=
  AVMediaType_value a =? AVMediaType_value b.

(** An entry of [format->streams]: [codecpar->codec_type] and [time_base]. *)
Module Stream.
Record t : Set := mk { codec_type : AVMediaType; time_base : AVRational }.
End Stream.

(** The fields of [args_t] the decoder reads.  Of [args->flags] it tests
    [FLAG_BS_IGNORE_ASPECT] ([FLAG_QUIET] only silences messages); of the
    two option strings it tests whether they are [NULL]. *)
Module Args.
Record t : Set := mk {
  video_width : Z;
  video_height : Z;
  str_fps_num : Z;
  str_fps_den : Z;
  audio_channels : Z;
  FLAG_BS_IGNORE_ASPECT : bool;
  swresample_options : bool;
  swscale_options : bool
}.
End Args.

(** The bits of the [flags] argument of [open_av_data]. *)
Record decoder_flags : Set := mk_decoder_flags {
  DECODER_USE_AUDIO : bool;
  DECODER_AUDIO_REQUIRED : bool;
  DECODER_USE_VIDEO : bool;
  DECODER_VIDEO_REQUIRED : bool
}.

(** What FFmpeg and [malloc] answer during [open_av_data], in the order of
    the calls: whether each call succeeds, the streams and the packets of
    the input, the frame size of the video codec context, and the blocks
    given to the two rings with their (uninitialised) content. *)
Record av_library (A V : Type) : Type := mk_av_library {
  input_opened : bool;            (* avformat_open_input(...) == 0 *)
  stream_info_found : bool;       (* avformat_find_stream_info(...) >= 0 *)
  streams : list Stream.t;
  packets : list (AVPacket A V);
  audio_context_allocated : bool; (* avcodec_alloc_context3(...) != NULL *)
  audio_parameters_copied : bool; (* avcodec_parameters_to_context(...) >= 0 *)
  audio_codec_opened : bool;      (* avcodec_open2(...) >= 0 *)
  resampler_allocated : bool;     (* swr_alloc_set_opts2(...) >= 0 *)
  resampler_options_set : bool;   (* av_opt_set_from_string(...) >= 0 *)
  resampler_initialised : bool;   (* swr_init(...) >= 0 *)
  audio_block : Z;
  audio_junk : list A;
  video_context_allocated : bool;
  video_parameters_copied : bool;
  video_codec_opened : bool;
  context_width : Z;              (* video_codec_context->width *)
  context_height : Z;
  scaler_created : bool;          (* sws_getContext(...) != NULL *)
  colorspace_set : bool;          (* sws_setColorspaceDetails(...) >= 0 *)
  scaler_options_set : bool;      (* av_opt_set_from_string(...) >= 0 *)
  video_block : Z;
  video_junk : list V;
  frame_allocated : bool          (* av_frame_alloc() != NULL *)
}.

Arguments mk_av_library {A V}.
Arguments input_opened {A V} _.
Arguments stream_info_found {A V} _.
Arguments streams {A V} _.
Arguments packets {A V} _.
Arguments audio_context_allocated {A V} _.
Arguments audio_parameters_copied {A V} _.
Arguments audio_codec_opened {A V} _.
Arguments resampler_allocated {A V} _.
Arguments resampler_options_set {A V} _.
Arguments resampler_initialised {A V} _.
Arguments audio_block {A V} _.
Arguments audio_junk {A V} _.
Arguments video_context_allocated {A V} _.
Arguments video_parameters_copied {A V} _.
Arguments video_codec_opened {A V} _.
Arguments context_width {A V} _.
Arguments context_height {A V} _.
Arguments scaler_created {A V} _.
Arguments colorspace_set {A V} _.
Arguments scaler_options_set {A V} _.
Arguments video_block {A V} _.
Arguments video_junk {A V} _.
Arguments frame_allocated {A V} _.

(** The loop of [open_av_data] over [format->streams] that looks for the
    track of type [ty]: [i] is the loop counter and [index] the stream
    index found so far.  The result is [(false, index)] where the loop
    ends the call with [return false]. *)
Fixpoint find_stream_loop (ty : AVMediaType) (l : list Stream.t) (i index : Z)
    : bool * Z :=
  match l with
  | [] => (true, index)
  | s :: rest =>
      if AVMediaType_eqb (Stream.codec_type s) ty then
        if index >=? 0 then (false, index)
        else find_stream_loop ty rest (i + 1) i
      else find_stream_loop ty rest (i + 1) index
  end.

(** The positions, counted from [i], of the streams of type [ty]. *)
Fixpoint stream_positions (ty : AVMediaType) (l : list Stream.t) (i : Z) : list Z :=
  match l with
  | [] => []
  | s :: rest =>
      if AVMediaType_eqb (Stream.codec_type s) ty
      then i :: stream_positions ty rest (i + 1)
      else stream_positions ty rest (i + 1)
  end.

(** The pointers of [decoder_state_t] that [close_av_data] hands to FFmpeg
    and to [free].  A pointer is [NULL], points to a live object, or
    dangles: the object it pointed to has been released. *)
Inductive pointer : Set :=
| NULL
| Live
| Dangling.

Module Pointers.
Record t : Set := mk {
  frame : pointer;
  resampler : pointer;
  audio_codec_context : pointer;
  format : pointer;
  resample_buffer : pointer
}.
End Pointers.

(** [av_frame_free(&p)], [swr_free(&p)], [avcodec_free_context(&p)]: the
    callee is given the address of the pointer; it releases the object, if
    there is one, and resets the pointer to [NULL].  A release through a
    dangling pointer is a second release of the same object, an access to
    a block that is no more; it is reported as [OutOfBounds]. *)
Definition free_and_reset (p : pointer) : outcome pointer :=
  match p with
  | NULL | Live => Ok NULL
  | Dangling => Fault OutOfBounds
  end.

(** [avformat_free_context(p)], [free(p)]: the callee is given the value
    of the pointer; it releases the object, if there is one, and the
    pointer of the caller, which it cannot reach, is left dangling. *)
Definition free_by_value (p : pointer) : outcome pointer :=
  match p with
  | NULL => Ok NULL
  | Live => Ok Dangling
  | Dangling => Fault OutOfBounds
  end.

(** [avcodec_close(p)]: closes the codec of a live context; [NULL] is
    accepted. *)
Definition close_codec (p : pointer) : outcome unit :=
  match p with
  | NULL | Live => Ok tt
  | Dangling => Fault OutOfBounds
  end.

(** None of the pointers dangles, as when [open_av_data] has set each of
    them to [NULL] or to the object a call returned. *)
Definition none_dangling (p : Pointers.t) : Prop :=
  Pointers.frame p <> Dangling /\
  Pointers.resampler p <> Dangling /\
  Pointers.audio_codec_context p <> Dangling /\
  Pointers.format p <> Dangling /\
  Pointers.resample_buffer p <> Dangling.

Section Opening.

Context {R : Type} `{Timestamp R} `{Truncation R} {A V : Type}.

Definition set_audio_stream_index (d : decoder_t R A V) (i : Z) : decoder_t R A V :=
  mk_decoder (audio_samples d) (video_frames d) (video_width d) (video_height d)
    (video_fps_num d) (video_fps_den d) (end_of_input d)
    (mk_decoder_state (video_next_pts (state d)) i
       (video_stream_index (state d)) (format (state d)) (time_base (state d))).

Definition set_video_stream_index (d : decoder_t R A V) (i : Z) : decoder_t R A V :=
  mk_decoder (audio_samples d) (video_frames d) (video_width d) (video_height d)
    (video_fps_num d) (video_fps_den d) (end_of_input d)
    (mk_decoder_state (video_next_pts (state d)) (audio_stream_index (state d))
       i (format (state d)) (time_base (state d))).

Definition set_time_base (d : decoder_t R A V) (tb : AVRational) : decoder_t R A V :=
  mk_decoder (audio_samples d) (video_frames d) (video_width d) (video_height d)
    (video_fps_num d) (video_fps_den d) (end_of_input d)
    (mk_decoder_state (video_next_pts (state d)) (audio_stream_index (state d))
       (video_stream_index (state d)) (format (state d)) tb).

Definition set_video_size (d : decoder_t R A V) (w h : Z) : decoder_t R A V :=
  mk_decoder (audio_samples d) (video_frames d) w h
    (video_fps_num d) (video_fps_den d) (end_of_input d) (state d).

(** The block of [open_av_data] that runs when there is an audio stream. *)
Definition open_audio_stream (lib : av_library A V) (args : Args.t)
    (d : decoder_t R A V) : outcome (bool * decoder_t R A V) :=
  if negb (audio_context_allocated lib) then Ok (false, d) else
  if negb (audio_parameters_copied lib) then Ok (false, d) else
  if negb (audio_codec_opened lib) then Ok (false, d) else
  if negb (resampler_allocated lib) then Ok (false, d) else
  if Args.swresample_options args && negb (resampler_options_set lib)
  then Ok (false, d) else
  if negb (resampler_initialised lib) then Ok (false, d) else
  buf <- init_ring_buffer (audio_block lib) (audio_junk lib)
           (size_mul (size_t_of_int (Args.audio_channels args)) 2)
           BUFFERED_AUDIO_SAMPLES ;;
  Ok (true, set_audio_samples d buf).

(** The reduction of the requested size to the aspect ratio of the input. *)
Definition fit_aspect_ratio (lib : av_library A V) (d : decoder_t R A V)
    : decoder_t R A V :=
  let src_ratio :=
    ts_div (ts_of_int (context_width lib)) (ts_of_int (context_height lib)) in
  let dst_ratio :=
    ts_div (ts_of_int (video_width d)) (ts_of_int (video_height d)) in
  if ts_ltb src_ratio dst_ratio then
    set_video_size d
      (Z.land
         (ts_to_int (ts_add (ts_mul (ts_of_int (video_height d)) src_ratio)
                       (ts_of_int 15)))
         (Z.lnot 15))
      (video_height d)
  else
    set_video_size d (video_width d)
      (Z.land
         (ts_to_int (ts_add (ts_div (ts_of_int (video_width d)) src_ratio)
                       (ts_of_int 15)))
         (Z.lnot 15)).

(** The block of [open_av_data] that runs when there is a video stream. *)
Definition open_video_stream (lib : av_library A V) (args : Args.t)
    (d : decoder_t R A V) : outcome (bool * decoder_t R A V) :=
  if negb (video_context_allocated lib) then Ok (false, d) else
  if negb (video_parameters_copied lib) then Ok (false, d) else
  if negb (video_codec_opened lib) then Ok (false, d) else
  let d := if negb (Args.FLAG_BS_IGNORE_ASPECT args) then fit_aspect_ratio lib d
           else d in
  if negb (scaler_created lib) then Ok (false, d) else
  if negb (colorspace_set lib) then Ok (false, d) else
  if Args.swscale_options args && negb (scaler_options_set lib)
  then Ok (false, d) else
  buf <- init_ring_buffer (video_block lib) (video_junk lib)
           (size_t_of_int (Z.quot (video_width d * video_height d * 3) 2))
           BUFFERED_VIDEO_FRAMES ;;
  Ok (true, set_video_frames d buf).

(** [open_av_data].  The result carries the decoder as the call leaves it,
    also where it returns false.  [time_base] stands for
    [video_stream->time_base] and keeps a value of its own ([0/0]) while
    there is no video stream. *)
Definition open_av_data (lib : av_library A V) (args : Args.t)
    (flags : decoder_flags) : outcome (bool * decoder_t R A V) :=
  audio <- init_ring_buffer 0 [] 1 0 ;;
  video <- init_ring_buffer 0 [] 1 0 ;;
  let d :=
    mk_decoder audio video (Args.video_width args) (Args.video_height args)
      (Args.str_fps_num args) (Args.str_fps_den args) false
      (mk_decoder_state (ts_of_int 0) (-1) (-1) [] (mk_AVRational 0 0)) in
  if negb (input_opened lib) then Ok (false, d) else
  let d := set_format d (packets lib) in
  if negb (stream_info_found lib) then Ok (false, d) else
  let found :=
    if DECODER_USE_AUDIO flags
    then find_stream_loop AVMEDIA_TYPE_AUDIO (streams lib) 0
           (audio_stream_index (state d))
    else (true, audio_stream_index (state d)) in
  let d := set_audio_stream_index d (snd found) in
  if negb (fst found) then Ok (false, d) else
  if DECODER_USE_AUDIO flags && DECODER_AUDIO_REQUIRED flags
     && (audio_stream_index (state d) =? -1)
  then Ok (false, d) else
  let found :=
    if DECODER_USE_VIDEO flags
    then find_stream_loop AVMEDIA_TYPE_VIDEO (streams lib) 0
           (video_stream_index (state d))
    else (true, video_stream_index (state d)) in
  let d := set_video_stream_index d (snd found) in
  if negb (fst found) then Ok (false, d) else
  if DECODER_USE_VIDEO flags && DECODER_VIDEO_REQUIRED flags
     && (video_stream_index (state d) =? -1)
  then Ok (false, d) else
  let d :=
    if video_stream_index (state d) =? -1 then d else
    match streams lib !! Z.to_nat (video_stream_index (state d)) with
    | Some s => set_time_base d (Stream.time_base s)
    | None => d
    end in
  r <- (if audio_stream_index (state d) =? -1 then Ok (true, d)
        else open_audio_stream lib args d) ;;
  if negb (fst r) then Ok r else
  r <- (if video_stream_index (state (snd r)) =? -1 then Ok (true, snd r)
        else open_video_stream lib args (snd r)) ;;
  if negb (fst r) then Ok r else
  if negb (frame_allocated lib) then Ok (false, snd r) else
  Ok (true, snd r).

(** [close_av_data], statement by statement; [p] holds the pointers of
    [decoder->state] the function releases. *)
Definition close_av_data (p : Pointers.t) (d : decoder_t R A V)
    : outcome (Pointers.t * decoder_t R A V) :=
  frame' <- free_and_reset (Pointers.frame p) ;;
  resampler' <- free_and_reset (Pointers.resampler p) ;;
  _ <- close_codec (Pointers.audio_codec_context p) ;;
  audio_codec_context' <- free_and_reset (Pointers.audio_codec_context p) ;;
  format' <- free_by_value (Pointers.format p) ;;
  resample_buffer' <- free_by_value (Pointers.resample_buffer p) ;;
  let d := set_audio_samples d (destroy_ring_buffer (audio_samples d)) in
  let d := set_video_frames d (destroy_ring_buffer (video_frames d)) in
  Ok (Pointers.mk frame' resampler' audio_codec_context' format' resample_buffer',
      d).

End Opening.

(** The rings as the packet pump needs them: the ring of a selected track
    satisfies the invariant and has the capacity [open_av_data] gave it,
    the ring of a track the input does not have is the untouched ring of
    capacity 0, and no packet left in the input carries a negative stream
    index. *)
Definition tracks_ready {R A V : Type} (d : decoder_t R A V) : Prop :=
  ((audio_stream_index (state d) = -1 /\ audio_samples d = absent_ring) \/
   (0 <= audio_stream_index (state d) /\ ring_inv (audio_samples d) /\
    capacity (audio_samples d) = BUFFERED_AUDIO_SAMPLES)) /\
  ((video_stream_index (state d) = -1 /\ video_frames d = absent_ring) \/
   (0 <= video_stream_index (state d) /\ ring_inv (video_frames d) /\
    capacity (video_frames d) = BUFFERED_VIDEO_FRAMES)) /\
  Forall (fun p => 0 <= stream_index p) (format (state d)).

(** ** More decoders for the worked examples *)

(** An audio-only input whose ring is [small_wrapped_ring] (five free
    slots) and whose only packet resamples to [samples]. *)
Definition small_audio_session (samples : list Z) : decoder_t Qc Z Z :=
  opened_decoder small_wrapped_ring absent_ring 15 1 (mk_AVRational 1 15) 0 (-1)
    [audio_packet 0 samples 0].

(** A video ring of four slots, all of them queued, the oldest in slot 1. *)
Definition full_video_ring : ring_buffer_t Z :=
  mk_ring_buffer 4096 8 4 1 1 4 [40; 10; 20; 30].

(** A decoder at 5 frames per second whose video ring is full; the next
    frame is expected at 0.8 s. *)
Definition full_video_session : decoder_t Qc Z Z :=
  mk_decoder absent_ring full_video_ring 320 240 5 1 false
    (mk_decoder_state (Q2Qc (4 # 5)) (-1) 0 [video_packet 0 20 500]
       (mk_AVRational 1 20)).

(** A packet the decoder of its stream rejects. *)
Definition undecodable_packet {A V : Type} (index : Z) (image : V) : AVPacket A V :=
  mk_AVPacket index (mk_audio_result false 0 [])
    (mk_video_result false 0 0 false 0 image).

(** An input with an audio track (stream 0) and a video track (stream 1)
    that starts with a packet the audio decoder rejects. *)
Definition damaged_session : decoder_t Qc Z Z :=
  opened_decoder (fresh_ring 4096 0 4 BUFFERED_AUDIO_SAMPLES)
    (fresh_ring 1048576 0 8 BUFFERED_VIDEO_FRAMES) 15 1 (mk_AVRational 1 15) 0 1
    [undecodable_packet 0 50; video_packet 1 0 100].

(** A decoder at 5 frames per second whose video ring is
    [tail_at_start_ring]: two frames queued in the last two slots, the
    next one expected at 0.2 s, and a frame for 0.5 s arriving. *)
Definition wrapped_video_session : decoder_t Qc Z Z :=
  mk_decoder absent_ring tail_at_start_ring 320 240 5 1 false
    (mk_decoder_state (Q2Qc (1 # 5)) (-1) 0 [video_packet 0 10 500]
       (mk_AVRational 1 20)).

(** A ring as [init_ring_buffer] leaves it, whatever was queued since: it
    has no block only if it has no capacity. *)
Definition allocated_or_absent {T : Type} (buf : ring_buffer_t T) : Prop :=
  data buf = 0 -> capacity buf = 0.

(** An input of 1920x1080 video (stream 0) and audio (stream 1) for which
    every call of FFmpeg and of [malloc] succeeds. *)
Definition sample_library : av_library Z Z :=
  mk_av_library true true
    [Stream.mk AVMEDIA_TYPE_VIDEO (mk_AVRational 1 30);
     Stream.mk AVMEDIA_TYPE_AUDIO (mk_AVRational 1 44100)]
    [video_packet 0 0 100; audio_packet 1 [1; 2; 3] 0; video_packet 0 2 200]
    true true true true true true
    4096 (replicate (Z.to_nat BUFFERED_AUDIO_SAMPLES) 0)
    true true true 1920 1080 true true true
    1048576 (replicate (Z.to_nat BUFFERED_VIDEO_FRAMES) 0)
    true.

(** 320x240 at 15 frames per second with stereo audio, the aspect ratio
    of the input being kept. *)
Definition sample_args : Args.t := Args.mk 320 240 15 1 2 false false false.

Definition sample_flags : decoder_flags := mk_decoder_flags true true true true.

(** The pointers of a decoder opened on an input with both tracks: every
    object was allocated. *)
Definition sample_pointers : Pointers.t := Pointers.mk Live Live Live Live Live.

(** An input of 1024x600 video only, for which every call succeeds. *)
Definition wide_library : av_library Z Z :=
  mk_av_library true true
    [Stream.mk AVMEDIA_TYPE_VIDEO (mk_AVRational 1 30)]
    [video_packet 0 0 100]
    true true true true true true
    0 []
    true true true 1024 600 true true true
    1048576 (replicate (Z.to_nat BUFFERED_VIDEO_FRAMES) 0)
    true.

(** A decoder at the point where [open_av_data] fits 384x240, the size
    asked for, to the input. *)
Definition requested_384x240 (R : Type) `{Timestamp R} : decoder_t R Z Z :=
  mk_decoder absent_ring absent_ring 384 240 15 1 false
    (mk_decoder_state (ts_of_int 0) (-1) 0 [video_packet 0 0 100]
       (mk_AVRational 1 30)).

(** The five-frame session in binary64, with a presentation time of
    1000 s expected next although nothing is queued. *)
Definition late_session_binary64 : decoder_t float Z Z :=
  set_video_next_pts (five_frame_session float) (ts_of_int 1000).

(** A video track at 10 frames per second whose two frames have the
    presentation times 0.0 and 0.9 s in a time base of 1/10 s. *)
Definition two_frame_session (R : Type) `{Timestamp R} : decoder_t R Z Z :=
  opened_decoder absent_ring (fresh_ring 4096 0 8 BUFFERED_VIDEO_FRAMES) 10 1
    (mk_AVRational 1 10) (-1) 0
    [video_packet 0 0 100; video_packet 0 9 200].

(** A binary64 decoder whose frame rate is 0 / -1: its [frame_time],
    [-1.0 / 0.0], is minus infinity. *)
Definition backwards_session_binary64 : decoder_t float Z Z :=
  opened_decoder absent_ring (fresh_ring 4096 0 8 BUFFERED_VIDEO_FRAMES) 0 (-1)
    (mk_AVRational 1 20) (-1) 0 [video_packet 0 0 100].

(** A binary64 decoder at 5 frames per second with one frame queued and
    the next one expected at [1.0 / 5.0]. *)
Definition one_frame_session_binary64 : decoder_t float Z Z :=
  mk_decoder absent_ring
    (written (fresh_ring 4096 0 8 BUFFERED_VIDEO_FRAMES) [100] 1)
    320 240 5 1 false
    (mk_decoder_state (ts_div (ts_of_int 1) (ts_of_int 5)) (-1) 0 []
       (mk_AVRational 1 20)).

(** The decoder [open_av_data] makes of them, with exact rationals: the
    height is reduced from 240 to 192, the multiple of 16 above
    320 * 1080 / 1920 = 180. *)
Definition sample_decoder : decoder_t Qc Z Z :=
  mk_decoder (fresh_ring 4096 0 4 BUFFERED_AUDIO_SAMPLES)
    (fresh_ring 1048576 0 92160 BUFFERED_VIDEO_FRAMES) 320 192 15 1 false
    (mk_decoder_state (ts_of_int 0) 1 0
       [video_packet 0 0 100; audio_packet 1 [1; 2; 3] 0; video_packet 0 2 200]
       (mk_AVRational 1 30)).

(** * Properties *)

(** ** The outcome monad and C arithmetic *)

Lemma bind_Ok {A B : Type} (m : outcome A) (k : A -> outcome B) (b : B) :
  (x <- m ;; k x) = Ok b -> exists a, m = Ok a /\ k a = Ok b.
Proof. destruct m as [a| |]; simpl; intros E; [eauto | discriminate..]. Qed.

Lemma assert_true (b : bool) : b = true -> assert b = Ok tt.
Proof. intros ->. reflexivity. Qed.

Lemma c_rem_nonneg (a b : Z) : 0 <= a -> 0 < b -> c_rem a b = Ok (a mod b).
Proof.
  intros Ha Hb. unfold c_rem.
  destruct (Z.eqb_spec b 0); [lia|].
  f_equal. apply Z.rem_mod_nonneg; lia.
Qed.

Lemma mod_wrap (x c : Z) :
  0 <= x < 2 * c -> x mod c = if x <? c then x else x - c.
Proof.
  intros Hx. destruct (Z.ltb_spec x c).
  - apply Z.mod_small. lia.
  - replace x with ((x - c) + 1 * c) at 1 by lia.
    rewrite Z.mod_add by lia. apply Z.mod_small. lia.
Qed.

(** ** The ring invariant *)

Section RingFacts.

Context {T : Type}.
Implicit Types buf : ring_buffer_t T.

(** Under the invariant the tail is the head advanced by [count], wrapped
    at most once. *)
Lemma ring_inv_tail buf :
  ring_inv buf ->
  tail buf = head buf + count buf \/
  tail buf = head buf + count buf - capacity buf.
Proof.
  intros (Hc & Hn & Hh & Ht & Hm).
  assert (Hneg : tail buf < head buf ->
    (tail buf - head buf) mod capacity buf = tail buf - head buf + capacity buf).
  { intros Hlt.
    replace (tail buf - head buf)
      with ((tail buf - head buf + capacity buf) + (-1) * capacity buf) at 1 by lia.
    rewrite Z.mod_add by lia. apply Z.mod_small. lia. }
  destruct (Z.eq_dec (count buf) (capacity buf)) as [E|E].
  - rewrite E, Z.mod_same in Hm by lia.
    destruct (Z.le_gt_cases (head buf) (tail buf)).
    + rewrite Z.mod_small in Hm by lia. lia.
    + rewrite Hneg in Hm by lia. lia.
  - rewrite (Z.mod_small (count buf)) in Hm by lia.
    destruct (Z.le_gt_cases (head buf) (tail buf)).
    + rewrite Z.mod_small in Hm by lia. lia.
    + rewrite Hneg in Hm by lia. lia.
Qed.

Lemma ring_inv_intro buf :
  0 < capacity buf -> 0 <= count buf <= capacity buf ->
  0 <= head buf < capacity buf -> 0 <= tail buf < capacity buf ->
  (tail buf = head buf + count buf \/
   tail buf = head buf + count buf - capacity buf) ->
  ring_inv buf.
Proof.
  intros Hc Hn Hh Ht Hcases. repeat split; try lia.
  destruct Hcases as [E|E]; rewrite E.
  - f_equal. lia.
  - replace (head buf + count buf - capacity buf - head buf)
      with (count buf + (-1) * capacity buf) by lia.
    apply Z.mod_add. lia.
Qed.

Lemma ring_buffer_append_inv buf n :
  ring_inv buf -> 0 <= n <= capacity buf - count buf ->
  ring_buffer_append buf n
    = Ok (set_tail_count buf ((tail buf + n) mod capacity buf) (count buf + n))
  /\ ring_inv (set_tail_count buf ((tail buf + n) mod capacity buf) (count buf + n)).
Proof.
  intros Hinv Hn. pose proof (ring_inv_tail buf Hinv) as Ht.
  destruct Hinv as (Hc & Hcnt & Hh & Htl & _).
  split.
  - unfold ring_buffer_append.
    rewrite assert_true by lia. simpl.
    rewrite c_rem_nonneg by lia. reflexivity.
  - apply ring_inv_intro; simpl; try lia.
    + apply Z.mod_pos_bound. lia.
    + rewrite mod_wrap by lia. destruct (Z.ltb_spec (tail buf + n) (capacity buf)); lia.
Qed.

Lemma ring_buffer_remove_inv buf n :
  ring_inv buf -> 0 <= n <= count buf ->
  ring_buffer_remove buf n
    = Ok (set_head_count buf ((head buf + n) mod capacity buf) (count buf - n))
  /\ ring_inv (set_head_count buf ((head buf + n) mod capacity buf) (count buf - n)).
Proof.
  intros Hinv Hn. pose proof (ring_inv_tail buf Hinv) as Ht.
  destruct Hinv as (Hc & Hcnt & Hh & Htl & _).
  split.
  - unfold ring_buffer_remove.
    rewrite assert_true by lia. simpl.
    rewrite c_rem_nonneg by lia. reflexivity.
  - apply ring_inv_intro; simpl; try lia.
    + apply Z.mod_pos_bound. lia.
    + rewrite mod_wrap by lia. destruct (Z.ltb_spec (head buf + n) (capacity buf)); lia.
Qed.

Lemma init_ring_buffer_inv block junk isz cap buf :
  0 < cap -> init_ring_buffer block junk isz cap = Ok buf ->
  ring_inv buf /\ head buf = 0 /\ tail buf = 0 /\ count buf = 0 /\
  capacity buf = cap /\ cells buf = junk /\ data buf = block /\
  item_size buf = isz /\ 0 < isz /\ block <> 0.
Proof.
  intros Hcap. unfold init_ring_buffer.
  destruct (Z.gtb_spec isz 0); simpl; [|discriminate].
  destruct (Z.gtb_spec cap 0); [|lia].
  destruct (Z.eqb_spec block 0); simpl; [discriminate|].
  intros [= <-]. simpl. split; [apply ring_inv_intro; simpl; lia|].
  repeat split; try lia; assumption.
Qed.

(** X21. No expression of the ring operations overflows an [int]: under
    the ring invariant, for a capacity up to [2^30] and arguments within
    the preconditions, every sum and difference [ringbuf.c] computes lies
    in the range of [int]. *)
Lemma ring_arithmetic_in_int buf n offset :
  ring_inv buf -> capacity buf <= 0x40000000 ->
  0 <= n -> 0 <= offset <= count buf ->
  in_int (capacity buf - count buf) /\
  (n <= capacity buf - count buf ->
   in_int (tail buf + n) /\ in_int (count buf + n)) /\
  (n <= count buf -> in_int (head buf + n) /\ in_int (count buf - n)) /\
  in_int (head buf + offset) /\ in_int (tail buf - offset) /\
  in_int (head buf + count buf) /\ in_int (capacity buf - tail buf) /\
  in_int (head buf - tail buf).
Proof.
  intros (Hc & Hcnt & Hh & Ht & _) Hcap Hn Hoff.
  unfold in_int, INT_MIN, INT_MAX. lia.
Qed.

(** C2. Starting from a ring that satisfies the invariant (a ring fresh
    from [init_ring_buffer] with a positive capacity does), every finite
    sequence of [ring_buffer_append] and [ring_buffer_remove] calls that
    each meet their precondition runs without a fault, and the ring after
    every call of the sequence satisfies the invariant again:
    [0 <= count <= capacity], [head] and [tail] in [[0, capacity)] and
    [(tail - head) mod capacity = count mod capacity]. *)
Theorem ring_invariant_preserved buf (ops : list ring_op) :
  ring_inv buf ->
  calls_respect (capacity buf) (count buf) ops ->
  exists trace,
    ring_run ops buf = Ok trace /\
    length trace = length ops /\
    Forall ring_inv trace.
Proof.
  revert buf. induction ops as [|op ops IH]; intros buf Hinv Hcalls.
  - exists []. simpl. auto.
  - destruct op as [n|n]; simpl in Hcalls; destruct Hcalls as [Hn Hrest].
    + destruct (ring_buffer_append_inv buf n Hinv Hn) as [E Hinv'].
      destruct (IH _ Hinv' Hrest) as (trace & Erun & Hlen & Hall).
      eexists. simpl. rewrite E. simpl. rewrite Erun. simpl.
      split; [reflexivity|]. split; [simpl; congruence|].
      constructor; assumption.
    + destruct (ring_buffer_remove_inv buf n Hinv Hn) as [E Hinv'].
      destruct (IH _ Hinv' Hrest) as (trace & Erun & Hlen & Hall).
      eexists. simpl. rewrite E. simpl. rewrite Erun. simpl.
      split; [reflexivity|]. split; [simpl; congruence|].
      constructor; assumption.
Qed.

End RingFacts.

Lemma fresh_ring_inv {T : Type} (block : Z) (fill : T) (isz cap : Z) :
  0 < cap -> ring_inv (fresh_ring block fill isz cap).
Proof. intros Hcap. apply ring_inv_intro; simpl; lia. Qed.

Lemma ring_invariant_preserved_witness :
  exists trace,
    ring_run [Append 3; Remove 2; Append 3; Remove 4; Append 4; Remove 0]
      (fresh_ring 4096 tt 2 4) = Ok trace /\
    length trace = 6%nat /\
    Forall ring_inv trace.
Proof.
  apply (ring_invariant_preserved (fresh_ring 4096 tt 2 4)).
  - apply fresh_ring_inv. lia.
  - simpl. lia.
Defined.

(** ** Pointers into the block and the queued items *)

Section RingMemory.

Context {T : Type}.
Implicit Types buf : ring_buffer_t T.

Lemma slot_pointer buf i :
  block_ok buf -> 0 <= i < capacity buf ->
  ptr_add (data buf) (size_mul (item_size buf) (size_t_of_int i)) = slot_address buf i.
Proof.
  intros (Hsz & Hd & Hfit & _) Hi.
  assert (item_size buf * i < item_size buf * capacity buf) by nia.
  assert (0 <= item_size buf * i) by nia.
  assert (capacity buf <= item_size buf * capacity buf) by nia.
  unfold ptr_add, size_mul, size_t_of_int, slot_address.
  rewrite (Z.mod_small i) by lia.
  rewrite (Z.mod_small (item_size buf * i)) by lia.
  apply Z.mod_small. lia.
Qed.

Lemma slot_of_slot_address buf i :
  block_ok buf -> 0 <= i ->
  slot_of_ptr buf (slot_address buf i) = Ok (Z.to_nat i).
Proof.
  intros (Hsz & _) Hi. unfold slot_of_ptr, slot_address.
  replace (data buf + item_size buf * i - data buf) with (i * item_size buf) by lia.
  rewrite Z.mod_mul, Z.div_mul by lia.
  destruct (Z.gtb_spec (item_size buf) 0); [|lia].
  destruct (Z.geb_spec (i * item_size buf) 0); [|nia].
  reflexivity.
Qed.

Lemma ring_buffer_get_tail_in_block buf offset :
  ring_inv buf -> block_ok buf ->
  0 <= offset <= count buf -> offset <= tail buf ->
  ring_buffer_get_tail buf offset = Ok (slot_address buf (tail buf - offset)).
Proof.
  intros Hinv Hok Hoff Ht. destruct Hinv as (Hc & Hcnt & Hh & Htl & _).
  unfold ring_buffer_get_tail.
  rewrite assert_true by lia. simpl.
  rewrite c_rem_nonneg by lia. simpl.
  rewrite Z.mod_small by lia.
  f_equal. apply slot_pointer; [assumption | lia].
Qed.

Lemma ring_buffer_get_head_in_block buf offset :
  ring_inv buf -> block_ok buf ->
  0 <= offset <= count buf -> 0 < count buf ->
  ring_buffer_get_head buf offset
    = Ok (slot_address buf ((head buf + offset) mod capacity buf)).
Proof.
  intros Hinv Hok Hoff Ht. destruct Hinv as (Hc & Hcnt & Hh & Htl & _).
  unfold ring_buffer_get_head.
  rewrite assert_true by lia. simpl.
  rewrite c_rem_nonneg by lia. simpl.
  f_equal. apply slot_pointer; [assumption|].
  apply Z.mod_pos_bound. lia.
Qed.

(** An offset beyond [tail] makes the operand of [%] negative: the pointer
    returned lies below the block instead of in the slot the offset wraps
    to. *)
Lemma ring_buffer_get_tail_wrapped buf offset :
  ring_inv buf -> block_ok buf ->
  tail buf < offset <= count buf -> offset - tail buf < capacity buf ->
  item_size buf * (offset - tail buf) <= data buf ->
  ring_buffer_get_tail buf offset
    = Ok (data buf - item_size buf * (offset - tail buf)) /\
  data buf - item_size buf * (offset - tail buf)
    < slot_address buf ((tail buf - offset) mod capacity buf).
Proof.
  intros Hinv Hok Hoff Hshort Hlow.
  pose proof Hinv as (Hc & Hcnt & Hh & Ht & _).
  pose proof Hok as (Hsz & Hd & Haddr & _).
  assert (Hm : 0 <= (tail buf - offset) mod capacity buf).
  { apply Z.mod_pos_bound. lia. }
  split.
  - unfold ring_buffer_get_tail. rewrite assert_true by lia. simpl.
    unfold c_rem. destruct (Z.eqb_spec (capacity buf) 0); [lia|]. simpl.
    replace (Z.rem (tail buf - offset) (capacity buf))
      with (tail buf - offset).
    2:{ replace (tail buf - offset) with (- (offset - tail buf)) at 2 by lia.
        rewrite Z.rem_opp_l', Z.rem_small by lia. lia. }
    f_equal. unfold ptr_add, size_mul, size_t_of_int.
    rewrite Z.mul_mod_idemp_r by (unfold SIZE_MODULUS; lia).
    rewrite Z.add_mod_idemp_r by (unfold SIZE_MODULUS; lia).
    replace (data buf + item_size buf * (tail buf - offset))
      with (data buf - item_size buf * (offset - tail buf)) by lia.
    apply Z.mod_small.
    assert (0 <= item_size buf * (offset - tail buf)) by nia.
    assert (0 <= item_size buf * capacity buf) by nia.
    lia.
  - unfold slot_address.
    assert (0 < item_size buf * (offset - tail buf)) by nia.
    assert (0 <= item_size buf * ((tail buf - offset) mod capacity buf)) by nia.
    lia.
Qed.

Lemma peek_head_lookup buf i :
  ring_inv buf -> block_ok buf -> 0 <= i < count buf ->
  exists x,
    cells buf !! Z.to_nat ((head buf + i) mod capacity buf) = Some x /\
    peek_head buf i = Ok x.
Proof.
  intros Hinv Hok Hi.
  assert (Hm : 0 <= (head buf + i) mod capacity buf < capacity buf).
  { apply Z.mod_pos_bound. apply Hinv. }
  destruct (lookup_lt_is_Some_2 (cells buf) (Z.to_nat ((head buf + i) mod capacity buf)))
    as [x Hx].
  { destruct Hok as (_ & _ & _ & ->). lia. }
  exists x. split; [assumption|].
  unfold peek_head.
  rewrite ring_buffer_get_head_in_block by (auto; lia). simpl.
  unfold load_item. rewrite slot_of_slot_address by (auto; lia). simpl.
  rewrite Hx. reflexivity.
Qed.

Lemma peek_range_iff buf start n l :
  ring_inv buf -> block_ok buf ->
  0 <= start -> start + Z.of_nat n <= count buf ->
  peek_range buf start n = Ok l <->
  length l = n /\
  forall j, (j < n)%nat ->
    l !! j = cells buf !! Z.to_nat ((head buf + (start + Z.of_nat j)) mod capacity buf).
Proof.
  intros Hinv Hok. revert start l.
  induction n as [|n IH]; intros start l Hs Hn; simpl.
  - split.
    + intros [= <-]. split; [reflexivity | intros; lia].
    + intros [Hl _]. destruct l; [reflexivity | discriminate].
  - destruct (peek_head_lookup buf start Hinv Hok) as (x & Hx & ->); [lia|]. simpl.
    split.
    + intros E. apply bind_Ok in E as (r & Er & [= <-]).
      apply IH in Er as [Hlen Hr]; [|lia..].
      split; [simpl; congruence|].
      intros [|j] Hj; simpl.
      * rewrite Z.add_0_r. congruence.
      * rewrite Hr by lia. do 3 f_equal. lia.
    + intros [Hlen Hl]. destruct l as [|y l]; [discriminate|].
      assert (Ey : y = x).
      { specialize (Hl 0%nat ltac:(lia)). simpl in Hl. rewrite Z.add_0_r in Hl. congruence. }
      subst y.
      assert (Er : peek_range buf (start + 1) n = Ok l).
      { apply IH; [lia..|]. split; [simpl in Hlen; lia|].
        intros j Hj. specialize (Hl (S j) ltac:(lia)). simpl in Hl.
        rewrite Hl. do 3 f_equal. lia. }
      rewrite Er. reflexivity.
Qed.

Lemma ring_items_iff buf l :
  ring_inv buf -> block_ok buf ->
  ring_items buf = Ok l <->
  length l = Z.to_nat (count buf) /\
  forall j, (j < Z.to_nat (count buf))%nat ->
    l !! j = cells buf !! Z.to_nat ((head buf + Z.of_nat j) mod capacity buf).
Proof.
  intros Hinv Hok. unfold ring_items.
  rewrite peek_range_iff by (auto; destruct Hinv as (_ & ? & _); lia).
  reflexivity.
Qed.



(** A write of at most [span] items that fit the free space stays inside
    the block. *)
Lemma span_within_block buf n :
  ring_inv buf -> n <= ring_buffer_get_contiguous_span buf ->
  n <= capacity buf - count buf -> tail buf + n <= capacity buf.
Proof.
  intros Hinv Hspan Hfree. pose proof (ring_inv_tail buf Hinv) as Ht.
  destruct Hinv as (Hc & Hcnt & Hh & Htl & _).
  unfold ring_buffer_get_contiguous_span, ring_buffer_is_contiguous in Hspan.
  destruct (Z.eqb_spec (head buf + count buf) (tail buf));
    destruct (Z.eqb_spec (head buf + count buf) (capacity buf));
    simpl in Hspan; lia.
Qed.

Lemma write_at_tail buf src n l :
  ring_inv buf -> block_ok buf ->
  0 <= n <= Z.of_nat (length src) ->
  n <= ring_buffer_get_contiguous_span buf ->
  n <= capacity buf - count buf ->
  ring_items buf = Ok l ->
  (span <- ring_buffer_get_tail buf 0 ;;
   buf1 <- memcpy_items buf span src n ;;
   ring_buffer_append buf1 n) = Ok (written buf src n)
  /\ ring_inv (written buf src n)
  /\ block_ok (written buf src n)
  /\ ring_items (written buf src n) = Ok (l ++ take (Z.to_nat n) src).
Proof.
  intros Hinv Hok Hn Hspan Hfree Hl.
  pose proof (span_within_block buf n Hinv Hspan Hfree) as Hfit.
  pose proof (ring_inv_tail buf Hinv) as Ht.
  pose proof Hinv as (Hc & Hcnt & Hh & Htl & _).
  pose proof Hok as (Hsz & Hd & Haddr & Hlen).
  assert (Hinv1 : ring_inv (set_cells buf
    (list_inserts (Z.to_nat (tail buf)) (take (Z.to_nat n) src) (cells buf)))).
  { apply ring_inv_intro; simpl; lia. }
  destruct (ring_buffer_append_inv _ n Hinv1) as [Eapp Hinv']; [simpl; lia|].
  assert (Hok' : block_ok (written buf src n)).
  { unfold block_ok, written; simpl. rewrite length_inserts. auto. }
  split; [|split; [exact Hinv'|split; [exact Hok'|]]].
  - rewrite ring_buffer_get_tail_in_block by (auto; lia). simpl.
    rewrite Z.sub_0_r. unfold memcpy_items.
    destruct (Z.ltb_spec n 0); [lia|].
    rewrite slot_of_slot_address by (auto; lia). simpl.
    destruct (Z.leb_spec (Z.of_nat (Z.to_nat (tail buf)) + n)
                (Z.of_nat (length (cells buf)))); [|lia].
    destruct (Z.leb_spec n (Z.of_nat (length src))); [|lia].
    simpl. exact Eapp.
  - apply ring_items_iff in Hl as [Hll Hlk]; [|assumption..].
    apply ring_items_iff; [assumption..|].
    assert (Hbl : length (take (Z.to_nat n) src) = Z.to_nat n).
    { rewrite length_take. lia. }
    unfold written; simpl. split.
    { rewrite length_app, Hll, Hbl. lia. }
    intros j Hj.
    assert (Hs : 0 <= head buf + Z.of_nat j < 2 * capacity buf) by lia.
    rewrite (mod_wrap _ _ Hs).
    destruct (decide (j < Z.to_nat (count buf))%nat) as [Hjc|Hjc].
    + rewrite lookup_app_l by lia. rewrite Hlk by lia.
      rewrite (mod_wrap _ _ Hs).
      destruct (Z.ltb_spec (head buf + Z.of_nat j) (capacity buf)).
      * destruct Ht as [Ht|Ht].
        -- rewrite list_lookup_inserts_lt by lia. reflexivity.
        -- rewrite list_lookup_inserts_ge by lia. reflexivity.
      * rewrite list_lookup_inserts_lt by lia. reflexivity.
    + rewrite lookup_app_r by lia. rewrite Hll.
      destruct (Z.ltb_spec (head buf + Z.of_nat j) (capacity buf)).
      * rewrite list_lookup_inserts by lia. f_equal. lia.
      * rewrite list_lookup_inserts by lia. f_equal. lia.
Qed.

End RingMemory.

(** ** Writing spans and reading them back *)

Section RoundTrip.

Context {T : Type}.
Implicit Types buf : ring_buffer_t T.

Lemma write_span_written buf batch l :
  ring_inv buf -> block_ok buf ->
  Z.of_nat (length batch) <= ring_buffer_get_contiguous_span buf ->
  Z.of_nat (length batch) <= capacity buf - count buf ->
  ring_items buf = Ok l ->
  exists buf',
    write_span buf batch = Ok buf' /\ ring_inv buf' /\ block_ok buf' /\
    capacity buf' = capacity buf /\
    count buf' = count buf + Z.of_nat (length batch) /\
    ring_items buf' = Ok (l ++ batch).
Proof.
  intros Hinv Hok Hspan Hfree Hl.
  destruct (write_at_tail buf batch (Z.of_nat (length batch)) l)
    as (E & Hinv' & Hok' & Hitems); try assumption; [lia|].
  exists (written buf batch (Z.of_nat (length batch))).
  rewrite Nat2Z.id, firstn_all in Hitems.
  split_and!; try assumption; reflexivity.
Qed.

Lemma write_spans_appends batches : forall buf l,
  ring_inv buf -> block_ok buf ->
  ring_items buf = Ok l ->
  Z.of_nat (length (concat batches)) <= capacity buf - count buf ->
  spans_respected buf batches ->
  exists buf',
    write_spans buf batches = Ok buf' /\ ring_inv buf' /\ block_ok buf' /\
    count buf' = count buf + Z.of_nat (length (concat batches)) /\
    ring_items buf' = Ok (l ++ concat batches).
Proof.
  induction batches as [|batch batches IH]; intros buf l Hinv Hok Hl Hfree Hresp.
  - exists buf. simpl. rewrite app_nil_r, Z.add_0_r. auto.
  - simpl in Hfree, Hresp. rewrite length_app in Hfree.
    destruct Hresp as [Hspan Hrest].
    destruct (write_span_written buf batch l)
      as (buf1 & E1 & Hinv1 & Hok1 & Hcap1 & Hcnt1 & Hl1); try assumption; [lia|].
    destruct (IH buf1 (l ++ batch)) as (buf' & E' & Hinv' & Hok' & Hcnt' & Hl');
      try assumption; [lia | auto |].
    exists buf'. simpl. rewrite E1. simpl.
    rewrite length_app, app_assoc.
    split_and!; try assumption. lia.
Qed.

(** C6. Into an empty ring with a positive capacity, whatever slot its
    head and tail are at, write [N <= capacity] items in batches, each no
    longer than [ring_buffer_get_contiguous_span] reports when it is
    written, copied to [ring_buffer_get_tail(buf, 0)] and committed with
    [ring_buffer_append]: no call faults, [count] ends at [N], and reading
    with [ring_buffer_get_head] at the offsets [0 .. N-1] gives back the
    items written, in order, also when they wrap around the end of the
    block. *)
Theorem ring_round_trip buf (batches : list (list T)) :
  ring_inv buf -> block_ok buf -> count buf = 0 ->
  Z.of_nat (length (concat batches)) <= capacity buf ->
  spans_respected buf batches ->
  exists buf',
    write_spans buf batches = Ok buf' /\
    count buf' = Z.of_nat (length (concat batches)) /\
    ring_items buf' = Ok (concat batches) /\
    forall (i : nat) x, concat batches !! i = Some x ->
      peek_head buf' (Z.of_nat i) = Ok x.
Proof.
  intros Hinv Hok Hcnt Hlen Hresp.
  destruct (write_spans_appends batches buf []) as (buf' & E & Hinv' & Hok' & Hcnt' & Hl');
    try assumption.
  - unfold ring_items. rewrite Hcnt. reflexivity.
  - lia.
  - exists buf'. simpl in Hl'. rewrite Hcnt in Hcnt'. simpl in Hcnt'.
    split_and!; try assumption.
    intros i x Hi.
    pose proof (lookup_lt_Some _ _ _ Hi) as Hlt.
    destruct (peek_head_lookup buf' (Z.of_nat i) Hinv' Hok') as (y & Hy & ->); [lia|].
    apply ring_items_iff in Hl' as [_ Hlk]; [|assumption..].
    rewrite Hlk in Hi by lia. congruence.
Qed.

End RoundTrip.

(** ** The copy loop of the audio path *)

Section AudioLoop.

Context {A : Type}.
Implicit Types buf : ring_buffer_t A.

Lemma span_positive buf :
  ring_inv buf -> count buf < capacity buf ->
  1 <= ring_buffer_get_contiguous_span buf.
Proof.
  intros Hinv Hlt. pose proof (ring_inv_tail buf Hinv) as Ht.
  destruct Hinv as (Hc & Hcnt & Hh & Htl & _).
  unfold ring_buffer_get_contiguous_span, ring_buffer_is_contiguous.
  destruct (Z.eqb_spec (head buf + count buf) (tail buf));
    destruct (Z.eqb_spec (head buf + count buf) (capacity buf)); simpl; lia.
Qed.

Lemma span_after_short_span buf (src : list A) :
  ring_inv buf ->
  ring_buffer_get_contiguous_span buf < capacity buf - count buf ->
  ring_buffer_get_contiguous_span
    (written buf src (ring_buffer_get_contiguous_span buf)) = capacity buf.
Proof.
  intros Hinv Hlt. pose proof (ring_inv_tail buf Hinv) as Ht.
  destruct Hinv as (Hc & Hcnt & Hh & Htl & _).
  unfold ring_buffer_get_contiguous_span, ring_buffer_is_contiguous in *.
  destruct (Z.eqb_spec (head buf + count buf) (tail buf));
    destruct (Z.eqb_spec (head buf + count buf) (capacity buf));
    simpl in *; try lia.
  replace (tail buf + (capacity buf - tail buf)) with (capacity buf) by lia.
  rewrite Z.mod_same by lia.
  destruct (Z.eqb_spec (head buf + (count buf + (capacity buf - tail buf))) 0);
    destruct (Z.eqb_spec (head buf + (count buf + (capacity buf - tail buf))) (capacity buf));
    simpl; lia.
Qed.

Lemma audio_span_loop_done fuel buf (ptr : list A) :
  audio_span_loop fuel buf ptr 0 = Ok (buf, []).
Proof. destruct fuel; reflexivity. Qed.

Lemma audio_span_loop_step fuel buf (ptr : list A) n l :
  ring_inv buf -> block_ok buf -> ring_items buf = Ok l ->
  0 < n <= Z.of_nat (length ptr) ->
  n <= capacity buf - count buf ->
  let k := if ring_buffer_get_contiguous_span buf >? n then n
           else ring_buffer_get_contiguous_span buf in
  1 <= k <= n /\
  ring_inv (written buf ptr k) /\ block_ok (written buf ptr k) /\
  ring_items (written buf ptr k) = Ok (l ++ take (Z.to_nat k) ptr) /\
  audio_span_loop (S fuel) buf ptr n
  = (r <- audio_span_loop fuel (written buf ptr k) (drop (Z.to_nat k) ptr) (n - k) ;;
     Ok (fst r, k :: snd r)).
Proof.
  intros Hinv Hok Hl Hn Hfree k.
  pose proof (span_positive buf Hinv ltac:(lia)) as Hpos.
  assert (Hk : 1 <= k <= n /\ k <= ring_buffer_get_contiguous_span buf).
  { subst k. destruct (Z.gtb_spec (ring_buffer_get_contiguous_span buf) n); lia. }
  destruct (write_at_tail buf ptr k l) as (E & Hinv' & Hok' & Hl'); try assumption; try lia.
  split; [lia|]. split_and!; try assumption.
  simpl. destruct (Z.gtb_spec n 0); [|lia].
  fold k. 
  destruct (ring_buffer_get_tail buf 0) as [span| |] eqn:Et; simpl in E |- *; try discriminate.
  destruct (memcpy_items buf span ptr k) as [buf1| |] eqn:Em; simpl in E |- *; try discriminate.
  rewrite E. reflexivity.
Qed.



Lemma audio_span_loop_total fuel buf (samples : list A) l :
  ring_inv buf -> block_ok buf -> ring_items buf = Ok l ->
  Z.of_nat (length samples) <= capacity buf - count buf ->
  (2 <= fuel)%nat ->
  exists buf' log,
    audio_span_loop fuel buf samples (Z.of_nat (length samples)) = Ok (buf', log) /\
    ring_inv buf' /\ block_ok buf' /\
    capacity buf' = capacity buf /\
    count buf' = count buf + Z.of_nat (length samples) /\
    ring_items buf' = Ok (l ++ samples) /\
    Forall (fun k => 1 <= k) log /\
    foldr Z.add 0 log = Z.of_nat (length samples) /\
    log = expected_spans (ring_buffer_get_contiguous_span buf)
            (Z.of_nat (length samples)).
Proof.
  intros Hinv Hok Hl Hfree Hfuel.
  destruct fuel as [|[|fuel]]; [lia..|].
  set (n := Z.of_nat (length samples)) in *.
  destruct (Z.eq_dec n 0) as [Hz|Hnz].
  { exists buf, []. rewrite Hz. simpl.
    assert (samples = []) as -> by (destruct samples; [reflexivity | simpl in n; lia]).
    rewrite app_nil_r, Z.add_0_r. split_and!; auto. }
  assert (Hexp : expected_spans (ring_buffer_get_contiguous_span buf) n
                 = if n <=? ring_buffer_get_contiguous_span buf then [n]
                   else [ring_buffer_get_contiguous_span buf;
                         n - ring_buffer_get_contiguous_span buf]).
  { unfold expected_spans. destruct (Z.leb_spec n 0); [lia | reflexivity]. }
  destruct (audio_span_loop_step (S fuel) buf samples n l)
    as (Hk & Hinv1 & Hok1 & Hl1 & ->); try assumption; [lia|].
  set (k := if ring_buffer_get_contiguous_span buf >? n then n
            else ring_buffer_get_contiguous_span buf) in *.
  destruct (Z.eq_dec k n) as [Hkn|Hkn].
  - (* the whole chunk fits the first span *)
    rewrite Hkn, Z.sub_diag, audio_span_loop_done. simpl.
    exists (written buf samples n), [n].
    rewrite Hkn in Hinv1, Hok1, Hl1.
    rewrite take_ge in Hl1 by lia.
    split_and!; try assumption; try reflexivity.
    + repeat constructor. lia.
    + simpl. lia.
    + rewrite Hexp. subst k.
      destruct (Z.gtb_spec (ring_buffer_get_contiguous_span buf) n);
        destruct (Z.leb_spec n (ring_buffer_get_contiguous_span buf));
        try reflexivity; lia.
  - (* the chunk crosses the end of the block *)
    assert (Hspan : k = ring_buffer_get_contiguous_span buf).
    { subst k. destruct (Z.gtb_spec (ring_buffer_get_contiguous_span buf) n); lia. }
    pose proof (span_after_short_span buf samples Hinv ltac:(lia)) as Hspan'.
    rewrite <- Hspan in Hspan'.
    assert (Hlen : Z.of_nat (length (drop (Z.to_nat k) samples)) = n - k).
    { rewrite length_drop. lia. }
    destruct (audio_span_loop_step fuel (written buf samples k)
                (drop (Z.to_nat k) samples) (n - k) _ Hinv1 Hok1 Hl1)
      as (Hk2 & Hinv2 & Hok2 & Hl2 & E2); [lia | simpl; lia |].
    rewrite Hspan' in Hk2, Hinv2, Hok2, Hl2, E2.
    assert (Hk2n : (if capacity buf >? n - k then n - k else capacity buf) = n - k).
    { destruct (Z.gtb_spec (capacity buf) (n - k)); [reflexivity|].
      destruct Hinv as (_ & ? & _). lia. }
    rewrite Hk2n in Hk2, Hinv2, Hok2, Hl2, E2.
    rewrite E2, Z.sub_diag, audio_span_loop_done. simpl.
    eexists _, [k; n - k]. split; [reflexivity|].
    rewrite (take_ge (drop (Z.to_nat k) samples)) in Hl2 by lia.
    rewrite <- app_assoc, take_drop in Hl2.
    split_and!; try assumption; try reflexivity.
    + simpl. lia.
    + repeat constructor; lia.
    + simpl. lia.
    + rewrite Hexp, <- Hspan.
      destruct (Z.leb_spec n k); [lia | reflexivity].
Qed.

Lemma ring_items_total buf :
  ring_inv buf -> block_ok buf -> exists l, ring_items buf = Ok l.
Proof.
  intros Hinv Hok. unfold ring_items.
  assert (Hgen : forall n start, 0 <= start ->
            start + Z.of_nat n <= count buf ->
            exists l, peek_range buf start n = Ok l).
  { induction n as [|n IH]; intros start Hs Hn; simpl; [eauto|].
    destruct (peek_head_lookup buf start Hinv Hok) as (x & _ & ->); [lia|].
    destruct (IH (start + 1)) as (r & ->); [lia..|].
    simpl. eauto. }
  apply Hgen; [lia|]. destruct Hinv as (_ & ? & _). lia.
Qed.

End AudioLoop.

(** ** The video path *)

Section VideoPath.

Context {R : Type} `{Timestamp R} {A V : Type}.
Implicit Types buf : ring_buffer_t V.
Implicit Types d : decoder_t R A V.

Lemma write_one buf (x : V) l :
  ring_inv buf -> block_ok buf -> count buf < capacity buf ->
  ring_items buf = Ok l ->
  ring_buffer_get_tail buf 0 = Ok (slot_address buf (tail buf)) /\
  (buf1 <- memcpy_items buf (slot_address buf (tail buf)) [x] 1 ;;
   ring_buffer_append buf1 1) = Ok (written buf [x] 1) /\
  ring_inv (written buf [x] 1) /\ block_ok (written buf [x] 1) /\
  ring_items (written buf [x] 1) = Ok (l ++ [x]).
Proof.
  intros Hinv Hok Hroom Hl.
  pose proof (span_positive buf Hinv Hroom) as Hspan.
  destruct (write_at_tail buf [x] 1 l) as (E & Hinv' & Hok' & Hl');
    try assumption; [simpl; lia | lia |].
  assert (Et : ring_buffer_get_tail buf 0 = Ok (slot_address buf (tail buf))).
  { rewrite ring_buffer_get_tail_in_block;
      [rewrite Z.sub_0_r; reflexivity | assumption.. | |];
      destruct Hinv as (? & ? & ? & ? & _); lia. }
  rewrite Et in E. simpl in E.
  split_and!; assumption.
Qed.

Lemma last_item_load buf (x : V) l :
  ring_inv buf -> block_ok buf -> 1 <= tail buf ->
  ring_items buf = Ok (l ++ [x]) ->
  1 <= count buf /\
  ring_buffer_get_tail buf 1 = Ok (slot_address buf (tail buf - 1)) /\
  slot_address buf (tail buf - 1) <> 0 /\
  load_item buf (slot_address buf (tail buf - 1)) = Ok x.
Proof.
  intros Hinv Hok Htail Hl.
  pose proof (ring_inv_tail buf Hinv) as Ht.
  pose proof Hinv as (Hc & Hcnt & Hh & Htl & _).
  pose proof Hok as (Hsz & Hd & Haddr & Hlen).
  apply ring_items_iff in Hl as [Hll Hlk]; [|assumption..].
  rewrite length_app in Hll. simpl in Hll.
  assert (Hcount : 1 <= count buf) by lia.
  split; [assumption|].
  split; [apply ring_buffer_get_tail_in_block; auto; lia|].
  split; [unfold slot_address; nia|].
  unfold load_item. rewrite slot_of_slot_address by (auto; lia). simpl.
  specialize (Hlk (length l) ltac:(lia)).
  rewrite lookup_app_r, Nat.sub_diag in Hlk by lia. simpl in Hlk.
  replace ((head buf + Z.of_nat (length l)) mod capacity buf)
    with (tail buf - 1) in Hlk.
  - rewrite <- Hlk. reflexivity.
  - rewrite mod_wrap by lia.
    destruct (Z.ltb_spec (head buf + Z.of_nat (length l)) (capacity buf)); lia.
Qed.

Lemma video_dup_loop_exit fuel buf (next ft pts : R) :
  ts_ltb (ts_add next ft) pts = false ->
  video_dup_loop fuel buf next ft pts = Ok (buf, next).
Proof. intros E. destruct fuel; simpl; rewrite E; reflexivity. Qed.

Lemma video_dup_loop_step fuel buf (next ft pts : R) l x :
  ts_ltb (ts_add next ft) pts = true ->
  ring_inv buf -> block_ok buf -> count buf < capacity buf -> 1 <= tail buf ->
  ring_items buf = Ok (l ++ [x]) ->
  video_dup_loop (S fuel) buf next ft pts
  = video_dup_loop fuel (written buf [x] 1) (ts_add next ft) ft pts.
Proof.
  intros E Hinv Hok Hroom Htail Hl.
  destruct (last_item_load buf x l) as (Hcnt & Elast & Hnz & Eload); try assumption.
  destruct (write_one buf x (l ++ [x])) as (Et & Ew & _); try assumption.
  simpl. rewrite E, Elast. simpl. rewrite Et. simpl.
  destruct (Z.eqb_spec (slot_address buf (tail buf - 1)) 0); [contradiction|].
  simpl. rewrite Eload. simpl.
  destruct (memcpy_items buf (slot_address buf (tail buf)) [x] 1) as [buf1| |];
    simpl in Ew |- *; try discriminate.
  rewrite Ew. reflexivity.
Qed.

Lemma poll_av_packet_video_emits fuel d packet buf1 next1 l1 :
  video_decoded (to_video packet) = true ->
  frame_width (to_video packet) <> 0 ->
  frame_height (to_video packet) <> 0 ->
  frame_data0 (to_video packet) = true ->
  (count (video_frames d) = 0 \/
   ts_ltb (pts_seconds d (to_video packet)) (video_next_pts (state d)) = false) ->
  video_dup_loop fuel (video_frames d)
    (if count (video_frames d) =? 0 then pts_seconds d (to_video packet)
     else video_next_pts (state d))
    (frame_time d) (pts_seconds d (to_video packet)) = Ok (buf1, next1) ->
  ring_inv buf1 -> block_ok buf1 -> count buf1 < capacity buf1 ->
  ring_items buf1 = Ok l1 ->
  poll_av_packet_video fuel d packet
  = Ok (set_video_next_pts
          (set_video_frames d (written buf1 [scaled (to_video packet)] 1))
          (ts_add next1 (frame_time d))).
Proof.
  intros Hdec Hw Hh Hd0 Hkeep Eloop Hinv Hok Hroom Hl.
  destruct (write_one buf1 (scaled (to_video packet)) l1) as (Et & Ew & _);
    try assumption.
  unfold poll_av_packet_video. rewrite Hdec, Hd0. simpl.
  destruct (Z.eqb_spec (frame_width (to_video packet)) 0); [contradiction|].
  destruct (Z.eqb_spec (frame_height (to_video packet)) 0); [contradiction|].
  simpl.
  assert (Ekeep : negb (count (video_frames d) =? 0)
                  && ts_ltb (pts_seconds d (to_video packet))
                       (video_next_pts (state d)) = false).
  { destruct Hkeep as [-> | ->]; [reflexivity | apply andb_false_r]. }
  rewrite Ekeep, Eloop. simpl. rewrite Et. simpl.
  destruct (memcpy_items buf1 (slot_address buf1 (tail buf1))
              [scaled (to_video packet)] 1) as [b| |];
    simpl in Ew |- *; try discriminate.
  rewrite Ew. reflexivity.
Qed.

End VideoPath.

(** ** Timestamps as exact rationals *)

Lemma Qc_ltb_lt (x y : Qc) : ts_ltb x y = true <-> (x < y)%Qc.
Proof.
  rewrite Qclt_alt. simpl. destruct (x ?= y)%Qc; split; congruence.
Qed.

Lemma Qc_ltb_ge (x y : Qc) : (y <= x)%Qc -> ts_ltb x y = false.
Proof.
  intros Hle. destruct (ts_ltb x y) eqn:E; [|reflexivity].
  apply Qc_ltb_lt in E. exfalso. exact (Qcle_not_lt _ _ Hle E).
Qed.

Lemma Qc_ltb_add_nonneg (x ft : Qc) : (0 <= ft)%Qc -> ts_ltb (ts_add x ft) x = false.
Proof.
  intros Hft. apply Qc_ltb_ge. simpl.
  rewrite <- (Qcplus_0_r x) at 1.
  apply Qcplus_le_compat; [apply Qcle_refl | assumption].
Qed.

Section VideoQc.

Context {A V : Type}.
Implicit Types d : decoder_t Qc A V.

(** A frame whose pts lies in [[next, next + frame_time]] is queued once,
    with no duplicate before it. *)
Lemma poll_av_packet_video_on_time fuel d packet l :
  video_decoded (to_video packet) = true ->
  frame_width (to_video packet) <> 0 ->
  frame_height (to_video packet) <> 0 ->
  frame_data0 (to_video packet) = true ->
  ring_inv (video_frames d) -> block_ok (video_frames d) ->
  0 < count (video_frames d) < capacity (video_frames d) ->
  ring_items (video_frames d) = Ok l ->
  (video_next_pts (state d) <= pts_seconds d (to_video packet))%Qc ->
  (pts_seconds d (to_video packet) <= video_next_pts (state d) + frame_time d)%Qc ->
  exists d',
    poll_av_packet_video fuel d packet = Ok d' /\
    ring_items (video_frames d') = Ok (l ++ [scaled (to_video packet)]) /\
    count (video_frames d') = count (video_frames d) + 1 /\
    video_next_pts (state d') = (video_next_pts (state d) + frame_time d)%Qc.
Proof.
  intros Hdec Hw Hh Hd0 Hinv Hok Hcnt Hl Hlo Hhi.
  destruct (Z.eqb_spec (count (video_frames d)) 0) as [|Hne]; [lia|].
  destruct (write_one (video_frames d) (scaled (to_video packet)) l)
    as (_ & _ & _ & _ & Hl'); try assumption; [lia|].
  eexists. split.
  - eapply poll_av_packet_video_emits; try eassumption.
    + right. apply Qc_ltb_ge. assumption.
    + destruct (Z.eqb_spec (count (video_frames d)) 0); [lia|].
      apply video_dup_loop_exit. apply Qc_ltb_ge. assumption.
    + lia.
  - simpl. split; [assumption|]. split; reflexivity.
Qed.

Lemma poll_av_packet_video_drops fuel d packet :
  count (video_frames d) <> 0 ->
  (pts_seconds d (to_video packet) < video_next_pts (state d))%Qc ->
  poll_av_packet_video fuel d packet = Ok d.
Proof.
  intros Hne Hlt. unfold poll_av_packet_video.
  destruct (negb (video_decoded (to_video packet))); [reflexivity|].
  destruct ((frame_width (to_video packet) =? 0)
            || (frame_height (to_video packet) =? 0)
            || negb (frame_data0 (to_video packet))); [reflexivity|].
  destruct (Z.eqb_spec (count (video_frames d)) 0); [contradiction|].
  apply Qc_ltb_lt in Hlt. rewrite Hlt. reflexivity.
Qed.

End VideoQc.

(** ** The tests of the frame-rate conversion, in any arithmetic *)

Section VideoTests.

Context {R : Type} `{Timestamp R} {A V : Type}.
Implicit Types d : decoder_t R A V.

(** A frame that neither test of the code sends elsewhere (not before
    [video_next_pts], not more than one [frame_time] after it) is queued
    once, with no duplicate before it. *)
Lemma poll_av_packet_video_once fuel d (packet : AVPacket A V) l :
  video_decoded (to_video packet) = true ->
  frame_width (to_video packet) <> 0 ->
  frame_height (to_video packet) <> 0 ->
  frame_data0 (to_video packet) = true ->
  ring_inv (video_frames d) -> block_ok (video_frames d) ->
  0 < count (video_frames d) < capacity (video_frames d) ->
  ring_items (video_frames d) = Ok l ->
  ts_ltb (pts_seconds d (to_video packet)) (video_next_pts (state d)) = false ->
  ts_ltb (ts_add (video_next_pts (state d)) (frame_time d))
    (pts_seconds d (to_video packet)) = false ->
  exists d',
    poll_av_packet_video fuel d packet = Ok d' /\
    ring_items (video_frames d') = Ok (l ++ [scaled (to_video packet)]) /\
    count (video_frames d') = count (video_frames d) + 1 /\
    video_next_pts (state d') = ts_add (video_next_pts (state d)) (frame_time d).
Proof.
  intros Hdec Hw Hh Hd0 Hinv Hok Hcnt Hl Hlate Hstop.
  destruct (Z.eqb_spec (count (video_frames d)) 0) as [|Hne]; [lia|].
  destruct (write_one (video_frames d) (scaled (to_video packet)) l)
    as (_ & _ & _ & _ & Hl'); try assumption; [lia|].
  eexists. split.
  - eapply poll_av_packet_video_emits; try eassumption.
    + right. assumption.
    + destruct (Z.eqb_spec (count (video_frames d)) 0); [lia|].
      apply video_dup_loop_exit. assumption.
    + lia.
  - simpl. split; [assumption|]. split; reflexivity.
Qed.

(** A frame before [video_next_pts] is dropped when the ring holds one. *)
Lemma poll_av_packet_video_early fuel d (packet : AVPacket A V) :
  count (video_frames d) <> 0 ->
  ts_ltb (pts_seconds d (to_video packet)) (video_next_pts (state d)) = true ->
  poll_av_packet_video fuel d packet = Ok d.
Proof.
  intros Hne Hlt. unfold poll_av_packet_video.
  destruct (negb (video_decoded (to_video packet))); [reflexivity|].
  destruct ((frame_width (to_video packet) =? 0)
            || (frame_height (to_video packet) =? 0)
            || negb (frame_data0 (to_video packet))); [reflexivity|].
  destruct (Z.eqb_spec (count (video_frames d)) 0); [contradiction|].
  rewrite Hlt. reflexivity.
Qed.

(** With the ring empty the frame is queued, unless the duplication loop
    starts although nothing is queued. *)
Lemma poll_av_packet_video_first fuel d (packet : AVPacket A V) :
  video_decoded (to_video packet) = true ->
  frame_width (to_video packet) <> 0 ->
  frame_height (to_video packet) <> 0 ->
  frame_data0 (to_video packet) = true ->
  ring_inv (video_frames d) -> block_ok (video_frames d) ->
  count (video_frames d) = 0 ->
  (ts_ltb (ts_add (pts_seconds d (to_video packet)) (frame_time d))
     (pts_seconds d (to_video packet)) = false ->
   poll_av_packet_video fuel d packet
   = Ok (set_video_next_pts
           (set_video_frames d
              (written (video_frames d) [scaled (to_video packet)] 1))
           (ts_add (pts_seconds d (to_video packet)) (frame_time d))) /\
   ring_items (written (video_frames d) [scaled (to_video packet)] 1)
   = Ok [scaled (to_video packet)]) /\
  (ts_ltb (ts_add (pts_seconds d (to_video packet)) (frame_time d))
     (pts_seconds d (to_video packet)) = true ->
   poll_av_packet_video (S fuel) d packet = Fault AssertionFailed /\
   poll_av_packet_video 0 d packet = OutOfFuel).
Proof.
  intros Hdec Hw Hh Hd0 Hinv Hok Hcnt. split.
  - intros Hstop.
    assert (Hl : ring_items (video_frames d) = Ok []).
    { unfold ring_items. rewrite Hcnt. reflexivity. }
    assert (Hroom : count (video_frames d) < capacity (video_frames d)).
    { destruct Hinv as (? & _). lia. }
    destruct (write_one (video_frames d) (scaled (to_video packet)) [])
      as (_ & _ & _ & _ & Hl'); try assumption.
    split; [|exact Hl'].
    eapply poll_av_packet_video_emits; try eassumption.
    + left. assumption.
    + rewrite Hcnt. simpl. apply video_dup_loop_exit. assumption.
  - intros Hrun. unfold poll_av_packet_video.
    rewrite Hdec, Hd0, Hcnt. simpl.
    destruct (Z.eqb_spec (frame_width (to_video packet)) 0); [contradiction|].
    destruct (Z.eqb_spec (frame_height (to_video packet)) 0); [contradiction|].
    simpl. rewrite Hrun.
    unfold ring_buffer_get_tail. rewrite Hcnt. simpl. auto.
Qed.

(** C4. A decoded video frame that arrives while the video ring is empty
    is never dropped, whatever the value of [video_next_pts] was and
    whatever the arithmetic of the timestamps (binary64 included):
    [poll_av_packet_video] restarts [video_next_pts] at the frame's pts and
    appends the frame, so that the ring holds exactly that frame and
    [video_next_pts] is one [frame_time] after its pts.  This is what
    every call that returns has done, and the call returns whenever the
    test of the duplication loop, [pts + frame_time < pts], is false; where
    that test holds (a [frame_time] below zero) the loop starts on the
    empty ring and the call stops on the assertion of
    [ring_buffer_get_tail]. *)
Theorem first_frame_never_dropped fuel d (packet : AVPacket A V) :
  video_decoded (to_video packet) = true ->
  frame_width (to_video packet) <> 0 ->
  frame_height (to_video packet) <> 0 ->
  frame_data0 (to_video packet) = true ->
  ring_inv (video_frames d) -> block_ok (video_frames d) ->
  count (video_frames d) = 0 ->
  (ts_ltb (ts_add (pts_seconds d (to_video packet)) (frame_time d))
     (pts_seconds d (to_video packet)) = false ->
   exists d',
     poll_av_packet_video fuel d packet = Ok d' /\
     count (video_frames d') = 1 /\
     ring_items (video_frames d') = Ok [scaled (to_video packet)] /\
     video_next_pts (state d')
       = ts_add (pts_seconds d (to_video packet)) (frame_time d)) /\
  (ts_ltb (ts_add (pts_seconds d (to_video packet)) (frame_time d))
     (pts_seconds d (to_video packet)) = true ->
   poll_av_packet_video (S fuel) d packet = Fault AssertionFailed) /\
  (forall d',
     poll_av_packet_video fuel d packet = Ok d' ->
     count (video_frames d') = 1 /\
     ring_items (video_frames d') = Ok [scaled (to_video packet)] /\
     video_next_pts (state d')
       = ts_add (pts_seconds d (to_video packet)) (frame_time d)).
Proof.
  intros Hdec Hw Hh Hd0 Hinv Hok Hcnt.
  assert (Hfirst : forall n, _) by
    (intros n; exact (poll_av_packet_video_first n d packet Hdec Hw Hh Hd0 Hinv Hok Hcnt)).
  split_and!.
  - intros Hstop. destruct (Hfirst fuel) as [Hq _].
    destruct (Hq Hstop) as [E Hl]. eexists. split; [exact E|].
    simpl. rewrite Hcnt. split; [reflexivity|]. split; [exact Hl|reflexivity].
  - intros Hrun. destruct (Hfirst fuel) as [_ Hf]. apply (Hf Hrun).
  - intros d' E.
    destruct (ts_ltb (ts_add (pts_seconds d (to_video packet)) (frame_time d))
                (pts_seconds d (to_video packet))) eqn:Etest.
    + exfalso. destruct fuel as [|fuel].
      * destruct (Hfirst 0%nat) as [_ Hf]. destruct (Hf eq_refl) as [_ E0].
        rewrite E0 in E. discriminate.
      * destruct (Hfirst fuel) as [_ Hf]. destruct (Hf eq_refl) as [E1 _].
        rewrite E1 in E. discriminate.
    + destruct (Hfirst fuel) as [Hq _]. destruct (Hq eq_refl) as [E1 Hl].
      rewrite E1 in E. injection E as <-.
      simpl. rewrite Hcnt. split; [reflexivity|]. split; [exact Hl|reflexivity].
Qed.

End VideoTests.

(** ** The packet pump and the flow controller *)

Section Pump.

Context {R : Type} `{Timestamp R} {A V : Type}.
Implicit Types d : decoder_t R A V.

Lemma poll_av_packet_audio_state fuel d packet d' :
  poll_av_packet_audio fuel d packet = Ok d' ->
  state d' = state d /\ video_frames d' = video_frames d /\
  end_of_input d' = end_of_input d.
Proof.
  unfold poll_av_packet_audio.
  destruct (negb (audio_decoded (to_audio packet))); [intros [= <-]; auto|].
  destruct (out_samples (to_audio packet) =? 0); [intros [= <-]; auto|].
  intros E. apply bind_Ok in E as (_ & _ & E).
  apply bind_Ok in E as (r & _ & [= <-]). auto.
Qed.

Lemma poll_av_packet_video_state fuel d packet d' :
  poll_av_packet_video fuel d packet = Ok d' ->
  format (state d') = format (state d) /\ audio_samples d' = audio_samples d /\
  end_of_input d' = end_of_input d.
Proof.
  unfold poll_av_packet_video.
  destruct (negb (video_decoded (to_video packet))); [intros [= <-]; auto|].
  destruct ((frame_width (to_video packet) =? 0)
            || (frame_height (to_video packet) =? 0)
            || negb (frame_data0 (to_video packet))); [intros [= <-]; auto|].
  destruct (negb (count (video_frames d) =? 0)
            && ts_ltb (pts_seconds d (to_video packet)) (video_next_pts (state d)));
    [intros [= <-]; auto|].
  intros E. apply bind_Ok in E as (l & _ & E).
  apply bind_Ok in E as (p & _ & E).
  apply bind_Ok in E as (b1 & _ & E).
  apply bind_Ok in E as (b2 & _ & [= <-]). auto.
Qed.

(** A call that returns false leaves both rings as they are and the
    input marked as exhausted. *)
Lemma poll_av_data_false fuel d d' :
  poll_av_data fuel d = Ok (false, d') ->
  end_of_input d' = true /\ audio_samples d' = audio_samples d /\
  video_frames d' = video_frames d /\
  video_next_pts (state d') = video_next_pts (state d).
Proof.
  unfold poll_av_data. destruct (end_of_input d) eqn:Eend.
  - intros [= <-]. auto.
  - destruct (format (state d)) as [|packet rest].
    + intros [= <-]. auto.
    + intros E. apply bind_Ok in E as (d1 & _ & [=]).
Qed.

(** A call that returns true has taken one packet off the input. *)
Lemma poll_av_data_true fuel d d' :
  poll_av_data fuel d = Ok (true, d') ->
  exists packet, format (state d) = packet :: format (state d').
Proof.
  unfold poll_av_data. destruct (end_of_input d); [discriminate|].
  destruct (format (state d)) as [|packet rest] eqn:Ef; [discriminate|].
  intros E. apply bind_Ok in E as (d1 & E & [= <-]).
  exists packet. f_equal.
  destruct (stream_index packet =? audio_stream_index (state (set_format d rest))).
  - apply poll_av_packet_audio_state in E as (-> & _). reflexivity.
  - destruct (stream_index packet =? video_stream_index (state (set_format d rest))).
    + apply poll_av_packet_video_state in E as (-> & _). reflexivity.
    + injection E as <-. reflexivity.
Qed.

Lemma ensure_waits_rings d d' na nv :
  audio_samples d' = audio_samples d -> video_frames d' = video_frames d ->
  ensure_waits d' na nv = ensure_waits d na nv.
Proof. unfold ensure_waits. intros -> ->. reflexivity. Qed.

Lemma ensure_waits_false d na nv :
  ensure_waits d na nv = false ->
  (na <> 0 -> na < count (audio_samples d)) /\
  (nv <> 0 -> nv < count (video_frames d)).
Proof.
  unfold ensure_waits. intros E. apply orb_false_elim in E as [Ea Ev].
  split; intros Hne.
  - destruct (Z.eqb_spec na 0); [contradiction|]. simpl in Ea.
    destruct (Z.leb_spec (count (audio_samples d)) na); [discriminate | lia].
  - destruct (Z.eqb_spec nv 0); [contradiction|]. simpl in Ev.
    destruct (Z.leb_spec (count (video_frames d)) nv); [discriminate | lia].
Qed.

Lemma drained_verdict d na nv :
  ((count (audio_samples d) >? 0) || (na =? 0))
  && ((count (video_frames d) >? 0) || (nv =? 0)) = true
  <-> (na <> 0 -> 0 < count (audio_samples d)) /\
      (nv <> 0 -> 0 < count (video_frames d)).
Proof.
  rewrite andb_true_iff, !orb_true_iff.
  rewrite !Z.gtb_lt, !Z.eqb_eq. lia.
Qed.

Lemma ensure_av_data_loop_result fuel na nv rounds : forall d b d',
  ensure_av_data_loop rounds fuel d na nv = Ok (b, d') ->
  (ensure_waits d' na nv = false /\ b = true) \/
  (ensure_waits d' na nv = true /\ end_of_input d' = true /\
   (b = true <-> (na <> 0 -> 0 < count (audio_samples d')) /\
                 (nv <> 0 -> 0 < count (video_frames d')))).
Proof.
  induction rounds as [|rounds IH]; intros d b d'; simpl;
    destruct (ensure_waits d na nv) eqn:Ew; try discriminate.
  - intros [= <- <-]. left. auto.
  - intros E. apply bind_Ok in E as ([more d1] & Ep & E). simpl in E.
    destruct more; simpl in E.
    + apply IH in E. exact E.
    + injection E as <- <-.
      apply poll_av_data_false in Ep as (Hend & Ha & Hv & _).
      right. rewrite (ensure_waits_rings d d1) by assumption.
      split; [assumption|]. split; [assumption|]. apply drained_verdict.
  - intros [= <- <-]. left. auto.
Qed.

Lemma ensure_av_data_loop_rounds fuel na nv rounds : forall d,
  (length (format (state d)) < rounds)%nat ->
  ensure_av_data_loop rounds fuel d na nv = ensure_av_data fuel d na nv.
Proof.
  unfold ensure_av_data.
  induction rounds as [|rounds IH]; intros d Hlen; [lia|]. simpl.
  destruct (ensure_waits d na nv); [|reflexivity].
  destruct (poll_av_data fuel d) as [[more d1]| |] eqn:Ep; simpl; try reflexivity.
  destruct more; simpl; [|reflexivity].
  apply poll_av_data_true in Ep as (packet & Ef).
  rewrite Ef in Hlen |- *. simpl in Hlen |- *.
  apply IH. lia.
Qed.

Lemma ensure_av_data_exhausted fuel d na nv :
  exhausted d ->
  exists d',
    ensure_av_data fuel d na nv
    = Ok (if ensure_waits d na nv
          then ((count (audio_samples d) >? 0) || (na =? 0))
               && ((count (video_frames d) >? 0) || (nv =? 0))
          else true, d') /\
    audio_samples d' = audio_samples d /\
    video_frames d' = video_frames d.
Proof.
  intros Hex. unfold ensure_av_data.
  destruct (ensure_waits d na nv) eqn:Ew.
  - destruct (end_of_input d) eqn:Eend.
    + exists d. simpl. rewrite Ew. unfold poll_av_data. rewrite Eend. auto.
    + destruct Hex as [Hend|Hf]; [congruence|].
      exists (set_end_of_input d true). rewrite Hf. simpl. rewrite Ew.
      unfold poll_av_data. rewrite Eend, Hf. auto.
  - exists d. simpl. rewrite Ew. auto.
Qed.

(** C10. A packet read from the input whose stream index is neither the
    audio nor the video stream index is consumed and discarded:
    [poll_av_data] returns true and leaves the audio ring, the video ring,
    [video_next_pts] and [end_of_input] as they were. *)
Theorem poll_av_data_discards_other_stream fuel d packet rest :
  end_of_input d = false ->
  format (state d) = packet :: rest ->
  stream_index packet <> audio_stream_index (state d) ->
  stream_index packet <> video_stream_index (state d) ->
  exists d',
    poll_av_data fuel d = Ok (true, d') /\
    audio_samples d' = audio_samples d /\
    video_frames d' = video_frames d /\
    video_next_pts (state d') = video_next_pts (state d) /\
    end_of_input d' = end_of_input d /\
    format (state d') = rest.
Proof.
  intros Hend Hf Ha Hv. exists (set_format d rest).
  split; [|simpl; auto 6].
  unfold poll_av_data. rewrite Hend, Hf. simpl.
  destruct (Z.eqb_spec (stream_index packet) (audio_stream_index (state d)));
    [contradiction|].
  destruct (Z.eqb_spec (stream_index packet) (video_stream_index (state d)));
    [contradiction|].
  reflexivity.
Qed.

End Pump.

(** ** Frame-rate conversion on a fresh ring *)

Section Routing.

Context {R : Type} `{Timestamp R} {A V : Type}.
Implicit Types d : decoder_t R A V.

Lemma poll_av_data_video fuel d packet rest :
  end_of_input d = false ->
  format (state d) = packet :: rest ->
  stream_index packet <> audio_stream_index (state d) ->
  stream_index packet = video_stream_index (state d) ->
  poll_av_data fuel d
  = (d' <- poll_av_packet_video fuel (set_format d rest) packet ;; Ok (true, d')).
Proof.
  intros Hend Hf Ha Hv. unfold poll_av_data. rewrite Hend, Hf. simpl.
  destruct (Z.eqb_spec (stream_index packet) (audio_stream_index (state d)));
    [contradiction|].
  rewrite Hv, Z.eqb_refl. reflexivity.
Qed.

End Routing.

Section ThreeFrames.

Context {A V : Type}.

(** C3. With [frame_time] = 0.2 s (5 frames per second) and frames with
    pts 0.0, 0.5 and 1.0 s arriving into a video ring fresh from
    [init_ring_buffer] with room for three frames, exactly 3 frames are
    queued before the frame with pts 1.0 is processed: the 0.0 frame, one
    duplicate of it (for the slot at 0.2; 0.4 + 0.2 < 0.5 is false, so
    there is no second one), and the 0.5 frame. *)
Theorem three_frames_before_third (fuel : nat) (block : Z) (junk : list V)
    (isz cap : Z) (abuf : ring_buffer_t A) (vbuf : ring_buffer_t V)
    (f0 f1 f2 : V) (audio_index video_index : Z) :
  (1 <= fuel)%nat -> 3 <= cap ->
  init_ring_buffer block junk isz cap = Ok vbuf -> block_ok vbuf ->
  video_index <> audio_index ->
  exists d' : decoder_t Qc A V,
    poll_times 2 fuel
      (opened_decoder abuf vbuf 5 1 (mk_AVRational 1 10) audio_index video_index
         [video_packet video_index 0 f0; video_packet video_index 5 f1;
          video_packet video_index 10 f2]) = Ok d' /\
    count (video_frames d') = 3 /\
    ring_items (video_frames d') = Ok [f0; f0; f1] /\
    format (state d') = [video_packet video_index 10 f2].
Proof.
  intros Hfuel Hcap Hinit Hok Hidx.
  destruct (init_ring_buffer_inv block junk isz cap vbuf ltac:(lia) Hinit)
    as (Hinv & Hhead & Htail & Hcount & Hcapacity & _).
  destruct fuel as [|fuel]; [lia|].
  assert (Hl0 : ring_items vbuf = Ok []).
  { unfold ring_items. rewrite Hcount. reflexivity. }
  (* the frame at 0.0 *)
  destruct (write_one vbuf f0 []) as (_ & _ & Hinv1 & Hok1 & Hl1);
    try assumption; [lia|].
  set (buf1 := written vbuf [f0] 1) in *.
  assert (Htail1 : tail buf1 = 1).
  { subst buf1. simpl. rewrite Htail, Hcapacity. apply Z.mod_small. lia. }
  assert (Hcount1 : count buf1 = 1) by (subst buf1; simpl; lia).
  assert (Hcap1 : capacity buf1 = cap) by (subst buf1; simpl; lia).
  (* its duplicate in the slot at 0.2 *)
  destruct (write_one buf1 f0 [f0]) as (_ & _ & Hinv2 & Hok2 & Hl2);
    try assumption; [lia|].
  set (buf2 := written buf1 [f0] 1) in *.
  assert (Hcount2 : count buf2 = 2) by (subst buf2; simpl; lia).
  assert (Hcap2 : capacity buf2 = cap) by (subst buf2; simpl; lia).
  (* the frame at 0.5 *)
  destruct (write_one buf2 f1 [f0; f0]) as (_ & _ & Hinv3 & Hok3 & Hl3);
    try assumption; [lia|].
  set (buf3 := written buf2 [f1] 1) in *.
  eexists. split.
  - unfold poll_times.
    rewrite (poll_av_data_video (S fuel) _ (video_packet video_index 0 f0)
               [video_packet video_index 5 f1; video_packet video_index 10 f2]);
      [|reflexivity|reflexivity|exact Hidx|reflexivity].
    erewrite (poll_av_packet_video_emits (S fuel) _ _ vbuf _ []);
      [|reflexivity|simpl; lia|simpl; lia|reflexivity|left; exact Hcount| |
        assumption|assumption|lia|assumption].
    2:{ simpl video_frames. rewrite Hcount. simpl Z.eqb. cbv iota.
        apply video_dup_loop_exit. vm_compute. reflexivity. }
    simpl bind. simpl snd.
    rewrite (poll_av_data_video (S fuel) _ (video_packet video_index 5 f1)
               [video_packet video_index 10 f2]);
      [|reflexivity|reflexivity|exact Hidx|reflexivity].
    erewrite (poll_av_packet_video_emits (S fuel) _ _ buf2 _ [f0; f0]);
      [|reflexivity|simpl; lia|simpl; lia|reflexivity| | |
        assumption|assumption|lia|assumption].
    + simpl. reflexivity.
    + right. vm_compute. reflexivity.
    + simpl video_frames. fold buf1. rewrite Hcount1. simpl Z.eqb. cbv iota.
      rewrite (video_dup_loop_step fuel buf1 _ _ _ [] f0);
        [|vm_compute; reflexivity|assumption|assumption|lia|lia|assumption].
      fold buf2. apply video_dup_loop_exit. vm_compute. reflexivity.
  - simpl. fold buf1 buf2 buf3. split; [subst buf3; simpl; lia|].
    split; [assumption|reflexivity].
Qed.

End ThreeFrames.

(** ** Concrete rings and sessions *)

Lemma fresh_ring_block_ok {T : Type} (block : Z) (fill : T) (isz cap : Z) :
  0 < block -> 0 < isz -> 0 <= cap -> block + isz * cap <= SIZE_MODULUS ->
  block_ok (fresh_ring block fill isz cap).
Proof.
  intros Hb Hi Hc Hfit. unfold block_ok, fresh_ring. simpl.
  rewrite length_replicate. auto.
Qed.

Lemma tail_at_start_ring_inv : ring_inv tail_at_start_ring.
Proof. apply ring_inv_intro; simpl; lia. Qed.

Lemma tail_at_start_ring_block_ok : block_ok tail_at_start_ring.
Proof.
  unfold block_ok, SIZE_MODULUS. simpl. split_and!; [lia | lia | lia | reflexivity].
Qed.

(** C7. For an offset beyond [tail] the pointer [ring_buffer_get_tail]
    returns is not the one of slot [(tail - offset) mod capacity].  In a
    ring of four 8-byte slots at address 4096 that was filled and then had
    two items removed, [tail] is 0 and the last item written is in slot 3,
    at address 4120.  [ring_buffer_get_tail(buf, 1)] returns 4088, the
    address 8 bytes below the block, because [(0 - 1) % 4] is [-1] in C;
    reading there is out of bounds, and so the duplication loop of
    [poll_av_packet_video] fails on such a ring. *)
Theorem ring_buffer_get_tail_below_block :
  (buf <- write_spans (fresh_ring 4096 0 8 4) [[10; 20; 30; 40]] ;;
   ring_buffer_remove buf 2) = Ok tail_at_start_ring /\
  ring_items tail_at_start_ring = Ok [30; 40] /\
  ring_buffer_get_tail tail_at_start_ring 1 = Ok 4088 /\
  slot_address tail_at_start_ring
    ((tail tail_at_start_ring - 1) mod capacity tail_at_start_ring) = 4120 /\
  load_item tail_at_start_ring 4120 = Ok 40 /\
  load_item tail_at_start_ring 4088 = Fault OutOfBounds /\
  video_dup_loop 1 tail_at_start_ring (Q2Qc (1 # 5)) (Q2Qc (1 # 5)) (Q2Qc (1 # 2))
    = Fault OutOfBounds.
Proof. split_and!; vm_compute; reflexivity. Qed.

Lemma zero_capacity_append_faults :
  init_ring_buffer 0 [] 1 0 = Ok (@absent_ring Z) /\
  ring_buffer_append (@absent_ring Z) 0 = Fault DivisionByZero /\
  ring_buffer_remove (@absent_ring Z) 0 = Fault DivisionByZero.
Proof. split_and!; reflexivity. Qed.

(** C8. On a ring created with capacity 0, [head], [tail] and
    [count] are 0 and no operation changes them, but only the two queries
    return: [ring_buffer_is_contiguous] gives true and
    [ring_buffer_get_contiguous_span] gives 0.  [ring_buffer_append(buf, 0)]
    and [ring_buffer_remove(buf, 0)] pass their assertion and then divide
    by zero in [% capacity]; with any other count they fail the assertion;
    [ring_buffer_get_head] fails its assertion and [ring_buffer_get_tail]
    divides by zero or fails its assertion. *)
Theorem zero_capacity_ring_operations {T : Type} (block : Z) (junk : list T)
    (isz : Z) (buf : ring_buffer_t T) :
  init_ring_buffer block junk isz 0 = Ok buf ->
  capacity buf = 0 /\ head buf = 0 /\ tail buf = 0 /\ count buf = 0 /\
  (forall n, ring_buffer_append buf n
             = Fault (if n =? 0 then DivisionByZero else AssertionFailed)) /\
  (forall n, ring_buffer_remove buf n
             = Fault (if n =? 0 then DivisionByZero else AssertionFailed)) /\
  (forall offset, ring_buffer_get_head buf offset = Fault AssertionFailed) /\
  (forall offset, ring_buffer_get_tail buf offset
             = Fault (if offset <=? 0 then DivisionByZero else AssertionFailed)) /\
  ring_buffer_is_contiguous buf = true /\
  ring_buffer_get_contiguous_span buf = 0.
Proof.
  unfold init_ring_buffer.
  destruct (isz >? 0); simpl; [|discriminate].
  intros [= <-]. simpl. split_and!; try reflexivity.
  - intros n. unfold ring_buffer_append. simpl.
    destruct (Z.eqb_spec n 0) as [->|Hn]; [reflexivity|].
    destruct (Z.geb_spec n 0); destruct (Z.leb_spec n (0 - 0)); simpl; try reflexivity.
    lia.
  - intros n. unfold ring_buffer_remove. simpl.
    destruct (Z.eqb_spec n 0) as [->|Hn]; [reflexivity|].
    destruct (Z.geb_spec n 0); destruct (Z.leb_spec n 0); simpl; try reflexivity.
    lia.
  - intros offset. unfold ring_buffer_get_head. simpl.
    rewrite andb_false_r. reflexivity.
  - intros offset. unfold ring_buffer_get_tail. simpl.
    destruct (Z.leb_spec offset 0); reflexivity.
Qed.

Lemma zero_capacity_ring_operations_witness :
  capacity (@absent_ring Z) = 0 /\ head (@absent_ring Z) = 0 /\
  tail (@absent_ring Z) = 0 /\ count (@absent_ring Z) = 0 /\
  (forall n, ring_buffer_append (@absent_ring Z) n
             = Fault (if n =? 0 then DivisionByZero else AssertionFailed)) /\
  (forall n, ring_buffer_remove (@absent_ring Z) n
             = Fault (if n =? 0 then DivisionByZero else AssertionFailed)) /\
  (forall offset, ring_buffer_get_head (@absent_ring Z) offset = Fault AssertionFailed) /\
  (forall offset, ring_buffer_get_tail (@absent_ring Z) offset
             = Fault (if offset <=? 0 then DivisionByZero else AssertionFailed)) /\
  ring_buffer_is_contiguous (@absent_ring Z) = true /\
  ring_buffer_get_contiguous_span (@absent_ring Z) = 0.
Proof.
  apply (zero_capacity_ring_operations 0 [] 1). reflexivity.
Defined.

(** The verdict for any pair of needs, negative ones included.  The C
    code tests the truth value of a need, so a dimension counts as
    requested when its need is not zero.  [ensure_av_data] polls while
    [(need_audio <> 0 and audio count <= need_audio) or (need_video <> 0
    and video count <= need_video)]; the rounds it is granted suffice
    whatever the input.  When it returns: either the condition is false in
    the final state, the result is true and every requested ring holds
    strictly more than requested; or the condition still holds, the input
    is exhausted, and the result is true exactly when every ring with
    [need <> 0] is non-empty.  Once the input is exhausted, [ensure(100, 0)]
    is true while the audio ring holds 1 to 100 samples and false when it
    holds none; a dimension with [need = 0] never blocks or falsifies. *)
Theorem ensure_av_data_verdict {R : Type} `{Timestamp R} {A V : Type}
    (fuel : nat) (d : decoder_t R A V) (na nv : Z) :
  (forall rounds, (length (format (state d)) < rounds)%nat ->
     ensure_av_data_loop rounds fuel d na nv = ensure_av_data fuel d na nv) /\
  (forall b d', ensure_av_data fuel d na nv = Ok (b, d') ->
     (ensure_waits d' na nv = false /\ b = true /\
      (na <> 0 -> na < count (audio_samples d')) /\
      (nv <> 0 -> nv < count (video_frames d')))
     \/
     (ensure_waits d' na nv = true /\ end_of_input d' = true /\
      (b = true <-> (na <> 0 -> 0 < count (audio_samples d')) /\
                    (nv <> 0 -> 0 < count (video_frames d'))))) /\
  (exhausted d ->
     exists d',
       ensure_av_data fuel d na nv
       = Ok (if ensure_waits d na nv
             then ((count (audio_samples d) >? 0) || (na =? 0))
                  && ((count (video_frames d) >? 0) || (nv =? 0))
             else true, d') /\
       audio_samples d' = audio_samples d /\
       video_frames d' = video_frames d) /\
  (exhausted d -> 1 <= count (audio_samples d) <= 100 ->
     exists d',
       ensure_av_data fuel d 100 0 = Ok (true, d') /\
       audio_samples d' = audio_samples d) /\
  (exhausted d -> count (audio_samples d) = 0 ->
     exists d',
       ensure_av_data fuel d 100 0 = Ok (false, d') /\
       audio_samples d' = audio_samples d) /\
  ensure_av_data fuel d 0 0 = Ok (true, d).
Proof.
  split_and!.
  - intros rounds. apply ensure_av_data_loop_rounds.
  - intros b d' E. apply ensure_av_data_loop_result in E as [[Hw ->]|Hdrained].
    + left. pose proof (ensure_waits_false _ _ _ Hw) as [? ?]. auto.
    + right. exact Hdrained.
  - apply ensure_av_data_exhausted.
  - intros Hex Hcnt.
    destruct (ensure_av_data_exhausted fuel d 100 0 Hex) as (d' & E & Ha & _).
    exists d'. split; [|assumption]. rewrite E. f_equal. f_equal.
    unfold ensure_waits. simpl.
    destruct (Z.leb_spec (count (audio_samples d)) 100); [|lia].
    destruct (Z.gtb_spec (count (audio_samples d)) 0); [|lia].
    simpl. rewrite orb_true_r. reflexivity.
  - intros Hex Hcnt.
    destruct (ensure_av_data_exhausted fuel d 100 0 Hex) as (d' & E & Ha & _).
    exists d'. split; [|assumption]. rewrite E. f_equal. f_equal.
    unfold ensure_waits. rewrite Hcnt. reflexivity.
  - reflexivity.
Qed.

Lemma ensure_av_data_verdict_witness :
  exists d',
    ensure_av_data 2 audio_session 100 0 = Ok (true, d') /\
    format (state d') = [audio_packet 0 (seqZ 121 60) 0] /\
    count (audio_samples d') = 120 /\
    ((ensure_waits d' 100 0 = false /\ true = true /\
      (100 <> 0 -> 100 < count (audio_samples d')) /\
      (0 <> 0 -> 0 < count (video_frames d')))
     \/
     (ensure_waits d' 100 0 = true /\ end_of_input d' = true /\
      (true = true <-> (100 <> 0 -> 0 < count (audio_samples d')) /\
                       (0 <> 0 -> 0 < count (video_frames d'))))).
Proof.
  eexists. split; [vm_compute; reflexivity|].
  split; [reflexivity|]. split; [reflexivity|].
  apply (proj1 (proj2 (ensure_av_data_verdict 2 audio_session 100 0))).
  vm_compute. reflexivity.
Defined.

(** A need below zero, which is no count of samples or frames, is a
    request to the code as well. *)
Lemma ensure_av_data_negative_need :
  ensure_av_data 0 drained_decoder (-1) 1 = Ok (false, drained_decoder) /\
  end_of_input drained_decoder = true /\
  count (audio_samples drained_decoder) = 0 /\
  count (video_frames drained_decoder) = 1 /\
  ~ (false = true <->
     (0 < -1 -> 0 < count (audio_samples drained_decoder)) /\
     (0 < 1 -> 0 < count (video_frames drained_decoder))).
Proof.
  split; [vm_compute; reflexivity|].
  split; [reflexivity|]. split; [reflexivity|]. split; [reflexivity|].
  intros [_ Hfalse]. 
  assert (E : false = true); [|discriminate E].
  apply Hfalse. simpl. split; lia.
Qed.



Lemma three_frames_not_six :
  (exists d',
     poll_times 2 8 (three_frame_session Qc) = Ok d' /\
     count (video_frames d') = 3 /\
     ring_items (video_frames d') = Ok [100; 100; 200] /\
     count (video_frames d') <> 6) /\
  (exists d',
     poll_times 2 8 (three_frame_session float) = Ok d' /\
     count (video_frames d') = 3 /\
     ring_items (video_frames d') = Ok [100; 100; 200] /\
     count (video_frames d') <> 6).
Proof.
  split; eexists; (split; [vm_compute; reflexivity|]);
    (split; [reflexivity|]); (split; [reflexivity|]); simpl; lia.
Qed.

Lemma three_frames_before_third_witness :
  exists d' : decoder_t Qc Z Z,
    poll_times 2 1 (three_frame_session Qc) = Ok d' /\
    count (video_frames d') = 3 /\
    ring_items (video_frames d') = Ok [100; 100; 200] /\
    format (state d') = [video_packet 0 10 300].
Proof.
  apply (three_frames_before_third 1 4096 (replicate 32 0) 8
           BUFFERED_VIDEO_FRAMES absent_ring
           (fresh_ring 4096 0 8 BUFFERED_VIDEO_FRAMES) 100 200 300 (-1) 0).
  - lia.
  - unfold BUFFERED_VIDEO_FRAMES. lia.
  - reflexivity.
  - apply fresh_ring_block_ok; unfold BUFFERED_VIDEO_FRAMES, SIZE_MODULUS; lia.
  - lia.
Defined.

Lemma first_frame_never_dropped_witness :
  ts_ltb
    (pts_seconds late_session_binary64 (to_video (video_packet (A:=Z) 0 0 100)))
    (video_next_pts (state late_session_binary64)) = true /\
  (exists d',
     poll_av_packet_video 0 late_session_binary64 (video_packet 0 0 100) = Ok d' /\
     count (video_frames d') = 1 /\
     ring_items (video_frames d') = Ok [100] /\
     video_next_pts (state d')
       = ts_add
           (pts_seconds late_session_binary64
              (to_video (video_packet (A:=Z) 0 0 100)))
           (frame_time late_session_binary64)) /\
  poll_av_packet_video 1 backwards_session_binary64 (video_packet 0 0 100)
    = Fault AssertionFailed.
Proof.
  split; [vm_compute; reflexivity|]. split.
  - apply (first_frame_never_dropped 0 late_session_binary64 (video_packet 0 0 100)).
    + reflexivity.
    + simpl. lia.
    + simpl. lia.
    + reflexivity.
    + apply fresh_ring_inv. unfold BUFFERED_VIDEO_FRAMES. lia.
    + apply fresh_ring_block_ok; unfold BUFFERED_VIDEO_FRAMES, SIZE_MODULUS; lia.
    + reflexivity.
    + vm_compute. reflexivity.
  - destruct (first_frame_never_dropped 0 backwards_session_binary64
                (video_packet 0 0 100)) as (_ & Hstop & _).
    + reflexivity.
    + simpl. lia.
    + simpl. lia.
    + reflexivity.
    + apply fresh_ring_inv. unfold BUFFERED_VIDEO_FRAMES. lia.
    + apply fresh_ring_block_ok; unfold BUFFERED_VIDEO_FRAMES, SIZE_MODULUS; lia.
    + reflexivity.
    + apply Hstop. vm_compute. reflexivity.
Defined.

Lemma one_frame_session_facts :
  ring_inv (video_frames one_frame_session) /\
  block_ok (video_frames one_frame_session) /\
  ring_items (video_frames one_frame_session) = Ok [100].
Proof.
  destruct (write_one (fresh_ring 4096 0 8 BUFFERED_VIDEO_FRAMES) 100 [])
    as (_ & _ & Hinv & Hok & Hl).
  - apply fresh_ring_inv. unfold BUFFERED_VIDEO_FRAMES. lia.
  - apply fresh_ring_block_ok; unfold BUFFERED_VIDEO_FRAMES, SIZE_MODULUS; lia.
  - simpl. unfold BUFFERED_VIDEO_FRAMES. lia.
  - reflexivity.
  - auto.
Qed.

(** Exact rationals are not the arithmetic of the program: for frames at
    0.0 and 0.9 s at 10 frames per second the binary64 decoder makes eight
    duplicates, the sum of eight steps of [0.1] and one more being below
    [0.9], where exact rationals make seven. *)
Lemma binary64_is_not_exact :
  (exists d',
     poll_times 2 8 (two_frame_session float) = Ok d' /\
     ring_items (video_frames d')
       = Ok [100; 100; 100; 100; 100; 100; 100; 100; 100; 200]) /\
  (exists d',
     poll_times 2 8 (two_frame_session Qc) = Ok d' /\
     ring_items (video_frames d')
       = Ok [100; 100; 100; 100; 100; 100; 100; 100; 200]).
Proof.
  split; eexists; (split; [vm_compute; reflexivity|]); vm_compute; reflexivity.
Qed.

(** In binary64 two timestamps that compare equal are not below one
    another. *)
Lemma float_eqb_not_ltb (x y : float) :
  PrimFloat.eqb x y = true ->
  PrimFloat.ltb x y = false /\ PrimFloat.ltb y x = false.
Proof.
  rewrite FloatAxioms.eqb_spec, !FloatAxioms.ltb_spec.
  unfold SFeqb, SFltb.
  destruct (Prim2SF x) as [sx|sx| |sx mx ex], (Prim2SF y) as [sy|sy| |sy my ey];
    simpl; try discriminate; try (split; reflexivity);
    try (destruct sx); try (destruct sy); simpl;
    try discriminate; try (split; reflexivity).
  all: change (PosDef.Pos.compare_cont Eq mx my) with (Pos.compare mx my);
       change (PosDef.Pos.compare_cont Eq my mx) with (Pos.compare my mx);
       destruct (Z.compare_spec ex ey); try discriminate; subst;
       rewrite Z.compare_refl;
       destruct (Pos.compare_spec mx my); try discriminate; subst;
       rewrite Pos.compare_refl; simpl; intros _; split; reflexivity.
Qed.

(** C5. With [frame_time] = 0.2 s and frames with pts 0.0, 0.05, 0.1, 0.15
    and 0.2 s arriving into a fresh video ring, the ring holds one frame
    after the first four and exactly the frames of 0.0 and 0.2 after all
    five, with binary64 timestamps and with exact rationals alike.  In
    general, in any arithmetic, for a non-empty ring with room: a frame
    that is not below [video_next_pts] and not more than one [frame_time]
    above it is queued once, with no duplicate before it, and a frame
    below [video_next_pts] is dropped.  In binary64 both ties are such
    frames: a pts that compares equal to [video_next_pts] is not below it,
    so the frame is accepted, and a pts that compares equal to
    [video_next_pts + frame_time] does not make the strict test of the
    duplication loop hold, so no duplicate is made; in each case the other
    test of the code is taken as it evaluates. *)
Theorem frame_rate_ties :
  (exists d4 d5,
     poll_times 4 0 (five_frame_session float) = Ok d4 /\
     ring_items (video_frames d4) = Ok [100] /\
     poll_times 5 0 (five_frame_session float) = Ok d5 /\
     ring_items (video_frames d5) = Ok [100; 104] /\
     count (video_frames d5) = 2) /\
  (exists d4 d5,
     poll_times 4 0 (five_frame_session Qc) = Ok d4 /\
     ring_items (video_frames d4) = Ok [100] /\
     poll_times 5 0 (five_frame_session Qc) = Ok d5 /\
     ring_items (video_frames d5) = Ok [100; 104] /\
     count (video_frames d5) = 2) /\
  (forall (R : Type) (T : Timestamp R) (A V : Type) (fuel : nat)
          (d : decoder_t R A V) (packet : AVPacket A V) (l : list V),
     video_decoded (to_video packet) = true ->
     frame_width (to_video packet) <> 0 ->
     frame_height (to_video packet) <> 0 ->
     frame_data0 (to_video packet) = true ->
     ring_inv (video_frames d) -> block_ok (video_frames d) ->
     0 < count (video_frames d) < capacity (video_frames d) ->
     ring_items (video_frames d) = Ok l ->
     (ts_ltb (pts_seconds d (to_video packet)) (video_next_pts (state d)) = false ->
      ts_ltb (ts_add (video_next_pts (state d)) (frame_time d))
        (pts_seconds d (to_video packet)) = false ->
      exists d',
        poll_av_packet_video fuel d packet = Ok d' /\
        ring_items (video_frames d') = Ok (l ++ [scaled (to_video packet)]) /\
        count (video_frames d') = count (video_frames d) + 1) /\
     (ts_ltb (pts_seconds d (to_video packet)) (video_next_pts (state d)) = true ->
      poll_av_packet_video fuel d packet = Ok d)) /\
  (forall (A V : Type) (fuel : nat) (d : decoder_t float A V)
          (packet : AVPacket A V) (l : list V),
     video_decoded (to_video packet) = true ->
     frame_width (to_video packet) <> 0 ->
     frame_height (to_video packet) <> 0 ->
     frame_data0 (to_video packet) = true ->
     ring_inv (video_frames d) -> block_ok (video_frames d) ->
     0 < count (video_frames d) < capacity (video_frames d) ->
     ring_items (video_frames d) = Ok l ->
     (PrimFloat.eqb (pts_seconds d (to_video packet)) (video_next_pts (state d))
        = true ->
      PrimFloat.ltb (PrimFloat.add (video_next_pts (state d)) (frame_time d))
        (pts_seconds d (to_video packet)) = false ->
      exists d',
        poll_av_packet_video fuel d packet = Ok d' /\
        ring_items (video_frames d') = Ok (l ++ [scaled (to_video packet)]) /\
        count (video_frames d') = count (video_frames d) + 1) /\
     (PrimFloat.eqb (pts_seconds d (to_video packet))
        (PrimFloat.add (video_next_pts (state d)) (frame_time d)) = true ->
      PrimFloat.ltb (pts_seconds d (to_video packet)) (video_next_pts (state d))
        = false ->
      exists d',
        poll_av_packet_video fuel d packet = Ok d' /\
        ring_items (video_frames d') = Ok (l ++ [scaled (to_video packet)]) /\
        count (video_frames d') = count (video_frames d) + 1)).
Proof.
  assert (Honce : forall (R : Type) (T : Timestamp R) (A V : Type) (fuel : nat)
            (d : decoder_t R A V) (packet : AVPacket A V) (l : list V),
            video_decoded (to_video packet) = true ->
            frame_width (to_video packet) <> 0 ->
            frame_height (to_video packet) <> 0 ->
            frame_data0 (to_video packet) = true ->
            ring_inv (video_frames d) -> block_ok (video_frames d) ->
            0 < count (video_frames d) < capacity (video_frames d) ->
            ring_items (video_frames d) = Ok l ->
            ts_ltb (pts_seconds d (to_video packet)) (video_next_pts (state d)) = false ->
            ts_ltb (ts_add (video_next_pts (state d)) (frame_time d))
              (pts_seconds d (to_video packet)) = false ->
            exists d',
              poll_av_packet_video fuel d packet = Ok d' /\
              ring_items (video_frames d') = Ok (l ++ [scaled (to_video packet)]) /\
              count (video_frames d') = count (video_frames d) + 1).
  { intros R T A V fuel d packet l Hdec Hw Hh Hd0 Hinv Hok Hcnt Hl Hlate Hstop.
    destruct (poll_av_packet_video_once fuel d packet l)
      as (d' & E & Hl' & Hc' & _); try assumption.
    exists d'. auto. }
  split_and!.
  - do 2 eexists.
    split; [vm_compute; reflexivity|]. split; [vm_compute; reflexivity|].
    split; [vm_compute; reflexivity|]. split; vm_compute; reflexivity.
  - do 2 eexists.
    split; [vm_compute; reflexivity|]. split; [vm_compute; reflexivity|].
    split; [vm_compute; reflexivity|]. split; vm_compute; reflexivity.
  - intros R T A V fuel d packet l Hdec Hw Hh Hd0 Hinv Hok Hcnt Hl. split.
    + apply Honce; assumption.
    + intros Hlt. apply poll_av_packet_video_early; [lia | assumption].
  - intros A V fuel d packet l Hdec Hw Hh Hd0 Hinv Hok Hcnt Hl. split.
    + intros Htie Hstop. apply Honce; try assumption.
      apply (float_eqb_not_ltb _ _ Htie).
    + intros Htie Hlate. apply Honce; try assumption.
      apply (float_eqb_not_ltb _ _ Htie).
Qed.

Lemma frame_rate_ties_witness :
  (exists d',
     poll_av_packet_video 0 one_frame_session_binary64 (video_packet 0 4 104)
       = Ok d' /\
     ring_items (video_frames d') = Ok ([100] ++ [104]) /\
     count (video_frames d') = count (video_frames one_frame_session_binary64) + 1) /\
  (exists d',
     poll_av_packet_video 0 one_frame_session_binary64 (video_packet 0 8 108)
       = Ok d' /\
     ring_items (video_frames d') = Ok ([100] ++ [108]) /\
     count (video_frames d') = count (video_frames one_frame_session_binary64) + 1) /\
  poll_av_packet_video 0 one_frame_session_binary64 (video_packet 0 3 103)
    = Ok one_frame_session_binary64.
Proof.
  pose proof one_frame_session_facts as (Hinv & Hok & Hl).
  assert (Hcnt : 0 < count (video_frames one_frame_session_binary64)
                 < capacity (video_frames one_frame_session_binary64)).
  { simpl. unfold BUFFERED_VIDEO_FRAMES. lia. }
  destruct frame_rate_ties as (_ & _ & Hany & Hties).
  split_and!.
  - destruct (Hties Z Z 0%nat one_frame_session_binary64 (video_packet 0 4 104) [100])
      as (Htie & _);
      try assumption; [reflexivity | simpl; lia | simpl; lia | reflexivity |].
    apply Htie; vm_compute; reflexivity.
  - destruct (Hties Z Z 0%nat one_frame_session_binary64 (video_packet 0 8 108) [100])
      as (_ & Htie);
      try assumption; [reflexivity | simpl; lia | simpl; lia | reflexivity |].
    apply Htie; vm_compute; reflexivity.
  - destruct (Hany float _ Z Z 0%nat one_frame_session_binary64
                (video_packet 0 3 103) [100])
      as (_ & Hdrop);
      try assumption; [reflexivity | simpl; lia | simpl; lia | reflexivity |].
    apply Hdrop. vm_compute. reflexivity.
Defined.

Lemma ring_round_trip_witness :
  exists buf',
    write_spans empty_ring_at_3 [[1]; [2; 3]; [4]] = Ok buf' /\
    count buf' = 4 /\
    ring_items buf' = Ok [1; 2; 3; 4] /\
    forall (i : nat) x, [1; 2; 3; 4] !! i = Some x ->
      peek_head buf' (Z.of_nat i) = Ok x.
Proof.
  apply (ring_round_trip empty_ring_at_3 [[1]; [2; 3]; [4]]).
  - apply ring_inv_intro; simpl; lia.
  - unfold block_ok, SIZE_MODULUS. simpl. split_and!; [lia | lia | lia | reflexivity].
  - reflexivity.
  - simpl. lia.
  - simpl. split; [vm_compute; discriminate|].
    intros buf1 E1. vm_compute in E1. injection E1 as <-.
    split; [vm_compute; discriminate|].
    intros buf2 E2. vm_compute in E2. injection E2 as <-.
    split; [vm_compute; discriminate|].
    intros buf3 _. exact I.
Defined.

(** C9. For a ring that satisfies the invariant and a resampled chunk of
    [n <= capacity - count] samples, the copy loop of
    [poll_av_packet_audio] ends within two iterations: the span reported
    is at least 1 whenever [count < capacity], every iteration appends at
    least one sample, the appended counts add up to [n], [count] grows by
    exactly [n] and the samples are queued in order behind the ones
    already there.  In the audio ring of 0x4000 samples with 3000 free
    slots before the end of the block and 2000 at its start, a chunk of
    5000 samples is appended as 3000 and then 2000. *)
Theorem audio_span_loop_queues_chunk :
  (forall (A : Type) (fuel : nat) (buf : ring_buffer_t A) (samples l : list A),
     ring_inv buf -> block_ok buf -> ring_items buf = Ok l ->
     Z.of_nat (length samples) <= capacity buf - count buf ->
     (2 <= fuel)%nat ->
     (count buf < capacity buf -> 1 <= ring_buffer_get_contiguous_span buf) /\
     exists buf' log,
       audio_span_loop fuel buf samples (Z.of_nat (length samples)) = Ok (buf', log) /\
       ring_inv buf' /\
       count buf' = count buf + Z.of_nat (length samples) /\
       ring_items buf' = Ok (l ++ samples) /\
       Forall (fun k => 1 <= k) log /\
       foldr Z.add 0 log = Z.of_nat (length samples) /\
       log = expected_spans (ring_buffer_get_contiguous_span buf)
               (Z.of_nat (length samples))) /\
  (exists buf' l,
     ring_buffer_get_contiguous_span wrapped_audio_ring = 3000 /\
     audio_span_loop 2 wrapped_audio_ring chunk_5000 5000 = Ok (buf', [3000; 2000]) /\
     count buf' = count wrapped_audio_ring + 5000 /\
     ring_items wrapped_audio_ring = Ok l /\
     ring_items buf' = Ok (l ++ chunk_5000)).
Proof.
  assert (Hgen : forall (A : Type) (fuel : nat) (buf : ring_buffer_t A)
                   (samples l : list A),
     ring_inv buf -> block_ok buf -> ring_items buf = Ok l ->
     Z.of_nat (length samples) <= capacity buf - count buf ->
     (2 <= fuel)%nat ->
     exists buf' log,
       audio_span_loop fuel buf samples (Z.of_nat (length samples)) = Ok (buf', log) /\
       ring_inv buf' /\
       count buf' = count buf + Z.of_nat (length samples) /\
       ring_items buf' = Ok (l ++ samples) /\
       Forall (fun k => 1 <= k) log /\
       foldr Z.add 0 log = Z.of_nat (length samples) /\
       log = expected_spans (ring_buffer_get_contiguous_span buf)
               (Z.of_nat (length samples))).
  { intros A fuel buf samples l Hinv Hok Hl Hfree Hfuel.
    destruct (audio_span_loop_total fuel buf samples l)
      as (buf' & log & E & Hinv' & _ & _ & Hcnt & Hl' & Hlog & Hsum & Hexp);
      try assumption.
    exists buf', log. auto 8. }
  split.
  - intros A fuel buf samples l Hinv Hok Hl Hfree Hfuel.
    split; [apply span_positive; assumption | apply Hgen; assumption].
  - assert (Hinv : ring_inv wrapped_audio_ring).
    { apply ring_inv_intro; unfold wrapped_audio_ring, BUFFERED_AUDIO_SAMPLES;
        cbn [capacity head tail count]; lia. }
    assert (Hok : block_ok wrapped_audio_ring).
    { unfold block_ok, wrapped_audio_ring, BUFFERED_AUDIO_SAMPLES, SIZE_MODULUS.
      cbn [capacity data item_size cells]. rewrite length_replicate.
      split_and!; [lia | lia | lia | reflexivity]. }
    assert (Hlen : Z.of_nat (length chunk_5000) = 5000).
    { unfold chunk_5000. rewrite length_seqZ. lia. }
    destruct (ring_items_total wrapped_audio_ring Hinv Hok) as (l & Hl).
    destruct (Hgen Z 2%nat wrapped_audio_ring chunk_5000 l Hinv Hok Hl)
      as (buf' & log & E & _ & Hcnt & Hl' & _ & _ & Hexp).
    + rewrite Hlen. unfold wrapped_audio_ring, BUFFERED_AUDIO_SAMPLES.
      cbn [capacity count]. lia.
    + lia.
    + rewrite Hlen in E, Hcnt, Hexp.
      exists buf', l. split; [reflexivity|].
      split; [rewrite E, Hexp; reflexivity|]. auto.
Qed.

Lemma audio_span_loop_queues_chunk_witness :
  (count small_wrapped_ring < capacity small_wrapped_ring ->
   1 <= ring_buffer_get_contiguous_span small_wrapped_ring) /\
  exists buf' log,
    audio_span_loop 2 small_wrapped_ring [1; 2; 3; 4; 5] 5 = Ok (buf', log) /\
    ring_inv buf' /\
    count buf' = count small_wrapped_ring + 5 /\
    ring_items buf' = Ok ([7; 8; 9] ++ [1; 2; 3; 4; 5]) /\
    Forall (fun k => 1 <= k) log /\
    foldr Z.add 0 log = 5 /\
    log = expected_spans (ring_buffer_get_contiguous_span small_wrapped_ring) 5.
Proof.
  apply (proj1 audio_span_loop_queues_chunk Z 2%nat small_wrapped_ring
           [1; 2; 3; 4; 5] [7; 8; 9]).
  - apply ring_inv_intro; simpl; lia.
  - unfold block_ok, SIZE_MODULUS. simpl. split_and!; [lia | lia | lia | reflexivity].
  - reflexivity.
  - simpl. lia.
  - lia.
Defined.

Lemma poll_av_data_discards_other_stream_witness :
  exists d',
    poll_av_data 0 mixed_session = Ok (true, d') /\
    audio_samples d' = audio_samples mixed_session /\
    video_frames d' = video_frames mixed_session /\
    video_next_pts (state d') = video_next_pts (state mixed_session) /\
    end_of_input d' = end_of_input mixed_session /\
    format (state d') = [video_packet 1 0 100].
Proof.
  apply (poll_av_data_discards_other_stream 0 mixed_session
           (other_packet 2 [1; 2; 3] 50) [video_packet 1 0 100]).
  - reflexivity.
  - reflexivity.
  - simpl. lia.
  - simpl. lia.
Defined.

(** * Further properties of the code

    ** The ring as a queue *)

Section QueueFacts.

Context {T : Type}.
Implicit Types buf : ring_buffer_t T.

Lemma ring_buffer_remove_items buf n l :
  ring_inv buf -> block_ok buf -> ring_items buf = Ok l ->
  0 <= n <= count buf ->
  exists buf',
    ring_buffer_remove buf n = Ok buf' /\
    ring_inv buf' /\ block_ok buf' /\
    capacity buf' = capacity buf /\
    count buf' = count buf - n /\
    tail buf' = tail buf /\
    cells buf' = cells buf /\
    ring_items buf' = Ok (drop (Z.to_nat n) l).
Proof.
  intros Hinv Hok Hl Hn.
  destruct (ring_buffer_remove_inv buf n Hinv Hn) as [E Hinv'].
  pose proof Hinv as (Hc & Hcnt & Hh & Ht & _).
  eexists. split; [exact E|]. split; [exact Hinv'|].
  assert (Hok' : block_ok (set_head_count buf ((head buf + n) mod capacity buf)
                             (count buf - n))) by exact Hok.
  split; [exact Hok'|]. simpl. split_and!; try reflexivity.
  apply ring_items_iff in Hl as [Hlen Hlk]; [|assumption..].
  apply ring_items_iff; [assumption..|]. simpl.
  split; [rewrite length_drop; lia|].
  intros j Hj. rewrite lookup_drop, Hlk by lia. do 2 f_equal.
  rewrite Zplus_mod_idemp_l. f_equal. lia.
Qed.

(** X1. [ring_buffer_remove] releases the oldest items.  With [n] between 0
    and [count] the call returns, [count] drops by [n], and what stays
    queued is the list of items queued before without its first [n], in
    the same order, as [ring_buffer_get_head] then reads them. *)
Theorem ring_buffer_remove_releases_oldest buf n l :
  ring_inv buf -> block_ok buf -> ring_items buf = Ok l ->
  0 <= n <= count buf ->
  exists buf',
    ring_buffer_remove buf n = Ok buf' /\
    count buf' = count buf - n /\
    ring_items buf' = Ok (drop (Z.to_nat n) l) /\
    (forall (i : nat) x, l !! (Z.to_nat n + i)%nat = Some x ->
       peek_head buf' (Z.of_nat i) = Ok x).
Proof.
  intros Hinv Hok Hl Hn.
  destruct (ring_buffer_remove_items buf n l)
    as (buf' & E & Hinv' & Hok' & _ & Hcnt & _ & _ & Hl'); try assumption.
  exists buf'. split_and!; try assumption.
  intros i x Hi.
  pose proof (lookup_lt_Some _ _ _ Hi) as Hlt.
  pose proof Hl as Hl0. apply ring_items_iff in Hl0 as [Hlen _]; [|assumption..].
  destruct (peek_head_lookup buf' (Z.of_nat i) Hinv' Hok') as (y & Hy & ->); [lia|].
  apply ring_items_iff in Hl' as [_ Hlk]; [|assumption..].
  specialize (Hlk i ltac:(lia)). rewrite lookup_drop, Hi in Hlk. congruence.
Qed.

Lemma ring_buffer_is_contiguous_iff buf :
  ring_inv buf ->
  ring_buffer_is_contiguous buf = (head buf + count buf <=? capacity buf).
Proof.
  intros Hinv. pose proof (ring_inv_tail buf Hinv) as Ht.
  destruct Hinv as (Hc & Hcnt & Hh & Htl & _).
  unfold ring_buffer_is_contiguous.
  destruct (Z.eqb_spec (head buf + count buf) (tail buf));
    destruct (Z.eqb_spec (head buf + count buf) (capacity buf));
    destruct (Z.leb_spec (head buf + count buf) (capacity buf));
    simpl; try reflexivity; lia.
Qed.

Lemma ring_buffer_get_contiguous_span_value buf :
  ring_inv buf ->
  ring_buffer_get_contiguous_span buf
  = if head buf + count buf <? capacity buf then capacity buf - tail buf
    else if head buf + count buf =? capacity buf then capacity buf
    else capacity buf - count buf.
Proof.
  intros Hinv. pose proof (ring_inv_tail buf Hinv) as Ht.
  unfold ring_buffer_get_contiguous_span.
  rewrite ring_buffer_is_contiguous_iff by assumption.
  destruct Hinv as (Hc & Hcnt & Hh & Htl & _).
  destruct (Z.leb_spec (head buf + count buf) (capacity buf));
    destruct (Z.ltb_spec (head buf + count buf) (capacity buf));
    destruct (Z.eqb_spec (head buf + count buf) (capacity buf)); lia.
Qed.

End QueueFacts.

(** ** What a returned call tells *)

Section ReturnedRuns.

Context {T : Type}.
Implicit Types buf : ring_buffer_t T.

(** What a call that returned tells about its argument. *)
Lemma ring_buffer_append_Ok buf n buf' :
  ring_buffer_append buf n = Ok buf' -> 0 <= n <= capacity buf - count buf.
Proof.
  unfold ring_buffer_append.
  destruct (Z.geb_spec n 0); destruct (Z.leb_spec n (capacity buf - count buf));
    simpl; try discriminate. lia.
Qed.

Lemma memcpy_items_Ok buf ptr src n buf' :
  memcpy_items buf ptr src n = Ok buf' ->
  0 <= n <= Z.of_nat (length src) /\
  exists cells', buf' = set_cells buf cells' /\ length cells' = length (cells buf).
Proof.
  unfold memcpy_items. destruct (Z.ltb_spec n 0); [discriminate|].
  destruct (slot_of_ptr buf ptr) as [i| |]; simpl; try discriminate.
  destruct (Z.leb_spec (Z.of_nat i + n) (Z.of_nat (length (cells buf))));
    destruct (Z.leb_spec n (Z.of_nat (length src))); simpl; try discriminate.
  intros [= <-]. split; [lia|]. eexists. split; [reflexivity|].
  apply length_inserts.
Qed.

(** A write at the tail that returned fitted the free slots, so it is the
    write [write_at_tail] describes. *)
Lemma write_at_tail_Ok buf src n l buf' :
  ring_inv buf -> block_ok buf -> ring_items buf = Ok l ->
  n <= ring_buffer_get_contiguous_span buf ->
  (span <- ring_buffer_get_tail buf 0 ;;
   buf1 <- memcpy_items buf span src n ;;
   ring_buffer_append buf1 n) = Ok buf' ->
  0 <= n <= Z.of_nat (length src) /\ n <= capacity buf - count buf /\
  buf' = written buf src n /\
  ring_inv buf' /\ block_ok buf' /\
  ring_items buf' = Ok (l ++ take (Z.to_nat n) src).
Proof.
  intros Hinv Hok Hl Hspan E.
  pose proof E as E0.
  apply bind_Ok in E as (span & _ & E).
  apply bind_Ok in E as (buf1 & Em & Ea).
  apply memcpy_items_Ok in Em as (Hn & cells' & -> & _).
  apply ring_buffer_append_Ok in Ea. simpl in Ea.
  destruct (write_at_tail buf src n l) as (E1 & Hinv' & Hok' & Hl');
    try assumption; try lia.
  rewrite E1 in E0. injection E0 as <-.
  split_and!; try assumption; try lia. reflexivity.
Qed.

End ReturnedRuns.

Section AudioReturns.

Context {A : Type}.
Implicit Types buf : ring_buffer_t A.

Lemma audio_span_loop_Ok fuel : forall buf (ptr : list A) n l buf' log,
  ring_inv buf -> block_ok buf -> ring_items buf = Ok l ->
  audio_span_loop fuel buf ptr n = Ok (buf', log) ->
  ring_inv buf' /\ block_ok buf' /\
  capacity buf' = capacity buf /\
  (n <= 0 -> buf' = buf) /\
  (0 <= n -> n <= Z.of_nat (length ptr) /\
             count buf' = count buf + n /\
             ring_items buf' = Ok (l ++ take (Z.to_nat n) ptr)).
Proof.
  induction fuel as [|fuel IH]; intros buf ptr n l buf' log Hinv Hok Hl E.
  - simpl in E. destruct (Z.gtb_spec n 0); [discriminate|].
    injection E as <- <-. split_and!; auto.
    intros Hn. assert (n = 0) as -> by lia. simpl.
    rewrite take_0, app_nil_r, Z.add_0_r. split_and!; auto. lia.
  - simpl in E. destruct (Z.gtb_spec n 0) as [Hpos|Hle].
    2:{ injection E as <- <-. split_and!; auto.
        intros Hn. assert (n = 0) as -> by lia. simpl.
        rewrite take_0, app_nil_r, Z.add_0_r. split_and!; auto. lia. }
    set (k := if ring_buffer_get_contiguous_span buf >? n then n
              else ring_buffer_get_contiguous_span buf) in *.
    assert (Hk : k <= n /\ k <= ring_buffer_get_contiguous_span buf).
    { subst k. destruct (Z.gtb_spec (ring_buffer_get_contiguous_span buf) n); lia. }
    destruct (ring_buffer_get_tail buf 0) as [span| |] eqn:Et; simpl in E;
      try discriminate.
    destruct (memcpy_items buf span ptr k) as [buf1| |] eqn:Em; simpl in E;
      try discriminate.
    destruct (ring_buffer_append buf1 k) as [buf2| |] eqn:Ea; simpl in E;
      try discriminate.
    apply bind_Ok in E as ([buf3 log3] & Erec & [= <- <-]).
    destruct (write_at_tail_Ok buf ptr k l buf2 Hinv Hok Hl)
      as (Hk0 & Hfree & -> & Hinv2 & Hok2 & Hl2); [lia| |].
    { rewrite Et. simpl. rewrite Em. simpl. exact Ea. }
    destruct (IH _ _ _ _ _ _ Hinv2 Hok2 Hl2 Erec)
      as (Hinv3 & Hok3 & Hcap3 & _ & Hrest).
    destruct Hrest as (Hlen3 & Hcnt3 & Hl3); [lia|].
    rewrite length_drop in Hlen3. simpl fst.
    split_and!; try assumption.
    + lia.
    + intros _. split_and!.
      * lia.
      * rewrite Hcnt3. simpl. lia.
      * rewrite Hl3, <- app_assoc. do 2 f_equal.
        rewrite <- (take_drop (Z.to_nat k) (take (Z.to_nat n) ptr)).
        rewrite take_take, skipn_firstn_comm.
        f_equal; f_equal; lia.
Qed.

End AudioReturns.

(** ** The tail at the start of the block *)

Section TailAtStart.

Context {T : Type}.
Implicit Types buf : ring_buffer_t T.

Lemma size_mul_minus_one (isz : Z) :
  0 < isz < SIZE_MODULUS ->
  size_mul isz (size_t_of_int (-1)) = SIZE_MODULUS - isz.
Proof.
  intros Hi. unfold size_mul, size_t_of_int.
  assert (HM : 0 < SIZE_MODULUS) by (unfold SIZE_MODULUS; lia).
  replace ((-1) mod SIZE_MODULUS) with (SIZE_MODULUS - 1).
  2:{ apply Z.mod_unique with (q := -1); lia. }
  symmetry. apply Z.mod_unique with (q := isz - 1); lia.
Qed.

(** With [tail] at slot 0, the pointer [ring_buffer_get_tail(buf, 1)]
    returns designates no slot of the block. *)
Lemma ring_buffer_get_tail_1_unreadable buf p :
  ring_inv buf -> block_ok buf -> tail buf = 0 -> 2 <= capacity buf ->
  ring_buffer_get_tail buf 1 = Ok p ->
  load_item buf p = Fault OutOfBounds.
Proof.
  intros Hinv Hok Ht Hcap E.
  pose proof Hok as (Hsz & Hd & Haddr & Hlen).
  assert (HM : 0 < SIZE_MODULUS) by (unfold SIZE_MODULUS; lia).
  assert (Hlt : item_size buf * capacity buf < SIZE_MODULUS) by lia.
  assert (Hisz : item_size buf < SIZE_MODULUS) by nia.
  unfold ring_buffer_get_tail in E.
  destruct (Z.leb_spec 1 (count buf)); simpl in E; [|discriminate].
  unfold c_rem in E. destruct (Z.eqb_spec (capacity buf) 0); [lia|].
  simpl in E. injection E as <-. rewrite Ht.
  replace (Z.rem (0 - 1) (capacity buf)) with (-1).
  2:{ change (0 - 1) with (- (1)). rewrite Z.rem_opp_l', Z.rem_small by lia.
      reflexivity. }
  rewrite size_mul_minus_one by lia.
  unfold load_item, slot_of_ptr, ptr_add.
  destruct (Z.gtb_spec (item_size buf) 0); [|lia]. simpl.
  destruct (Z.le_gt_cases (item_size buf) (data buf)) as [Hge|Hgt].
  - replace ((data buf + (SIZE_MODULUS - item_size buf)) mod SIZE_MODULUS)
      with (data buf - item_size buf).
    2:{ apply Z.mod_unique with (q := 1); lia. }
    destruct (Z.geb_spec (data buf - item_size buf - data buf) 0); [lia|].
    reflexivity.
  - rewrite Z.mod_small by lia.
    replace (data buf + (SIZE_MODULUS - item_size buf) - data buf)
      with (SIZE_MODULUS - item_size buf) by lia.
    destruct (Z.geb_spec (SIZE_MODULUS - item_size buf) 0); [|lia].
    destruct (Z.eqb_spec ((SIZE_MODULUS - item_size buf) mod item_size buf) 0)
      as [Hdiv|]; [|reflexivity].
    simpl.
    assert (Hq : SIZE_MODULUS - item_size buf
                 = item_size buf * ((SIZE_MODULUS - item_size buf) / item_size buf)).
    { pose proof (Z.div_mod (SIZE_MODULUS - item_size buf) (item_size buf)
                    ltac:(lia)). lia. }
    assert (Hq' : capacity buf <= (SIZE_MODULUS - item_size buf) / item_size buf).
    { apply Z.div_le_lower_bound; [lia|].
      set (q := (SIZE_MODULUS - item_size buf) / item_size buf) in *.
      assert (capacity buf < q + 1) by nia. nia. }
    rewrite lookup_ge_None_2; [reflexivity|]. rewrite Hlen. lia.
Qed.

End TailAtStart.

Section VideoReturns.

Context {R : Type} `{Timestamp R} {A V : Type}.
Implicit Types buf : ring_buffer_t V.
Implicit Types d : decoder_t R A V.

(** One iteration of the duplication loop that returned has copied the
    newest queued frame into the next slot. *)
Lemma video_dup_iteration_Ok buf l p1 p0 y buf1 buf2 :
  ring_inv buf -> block_ok buf -> ring_items buf = Ok l ->
  ring_buffer_get_tail buf 1 = Ok p1 ->
  ring_buffer_get_tail buf 0 = Ok p0 ->
  load_item buf p1 = Ok y ->
  memcpy_items buf p0 [y] 1 = Ok buf1 ->
  ring_buffer_append buf1 1 = Ok buf2 ->
  last l = Some y /\ buf2 = written buf [y] 1 /\
  ring_inv buf2 /\ block_ok buf2 /\ ring_items buf2 = Ok (l ++ [y]).
Proof.
  intros Hinv Hok Hl E1 E0 Eload Em Ea.
  pose proof Hinv as (Hc & Hcnt & Hh & Ht & _).
  assert (Hcount : 1 <= count buf).
  { unfold ring_buffer_get_tail in E1.
    destruct (Z.leb_spec 1 (count buf)); [assumption|discriminate]. }
  assert (Hroom : count buf < capacity buf).
  { pose proof Em as Em'. apply memcpy_items_Ok in Em' as (_ & cells' & -> & _).
    apply ring_buffer_append_Ok in Ea. simpl in Ea. lia. }
  pose proof (span_positive buf Hinv Hroom) as Hspan.
  destruct (write_at_tail_Ok buf [y] 1 l buf2 Hinv Hok Hl Hspan)
    as (_ & _ & -> & Hinv2 & Hok2 & Hl2).
  { rewrite E0. simpl. rewrite Em. simpl. exact Ea. }
  split; [|split_and!; auto].
  pose proof Hl as Hl0. apply ring_items_iff in Hl0 as [Hlen _]; [|assumption..].
  destruct l as [|z l0 _] using rev_ind; [simpl in Hlen; lia|].
  rewrite last_snoc. f_equal.
  destruct (Z.eq_dec (tail buf) 0) as [Hz|Hnz].
  - rewrite (ring_buffer_get_tail_1_unreadable buf p1) in Eload;
      [discriminate|assumption..|lia|assumption].
  - destruct (last_item_load buf z l0) as (_ & E1' & _ & Eload');
      try assumption; [lia|].
    rewrite E1' in E1. injection E1 as <-. congruence.
Qed.

Lemma video_dup_loop_Ok fuel (ft pts : R) : forall buf next l buf' next',
  ring_inv buf -> block_ok buf -> ring_items buf = Ok l ->
  video_dup_loop fuel buf next ft pts = Ok (buf', next') ->
  exists (k : nat) dups,
    next' = Nat.iter k (fun t => ts_add t ft) next /\
    ts_ltb (ts_add next' ft) pts = false /\
    ring_inv buf' /\ block_ok buf' /\
    capacity buf' = capacity buf /\
    count buf' = count buf + Z.of_nat k /\
    length dups = k /\
    (forall y, y ∈ dups -> last l = Some y) /\
    ring_items buf' = Ok (l ++ dups).
Proof.
  induction fuel as [|fuel IH]; intros buf next l buf' next' Hinv Hok Hl E;
    simpl in E; destruct (ts_ltb (ts_add next ft) pts) eqn:Econd;
    try discriminate.
  - injection E as <- <-. exists 0%nat, []. simpl.
    rewrite app_nil_r, Z.add_0_r. split_and!; auto. intros y Hy. inversion Hy.
  - apply bind_Ok in E as (p1 & E1 & E).
    apply bind_Ok in E as (p0 & E0 & E).
    apply bind_Ok in E as (_ & _ & E).
    apply bind_Ok in E as (y & Eload & E).
    apply bind_Ok in E as (buf1 & Em & E).
    apply bind_Ok in E as (buf2 & Ea & E).
    destruct (video_dup_iteration_Ok buf l p1 p0 y buf1 buf2)
      as (Hlast & -> & Hinv2 & Hok2 & Hl2); try assumption.
    destruct (IH _ _ _ _ _ Hinv2 Hok2 Hl2 E)
      as (k & dups & Hnext & Hstop & Hinv' & Hok' & Hcap & Hcnt & Hlen & Hall & Hl').
    exists (S k), (y :: dups). split_and!; try assumption.
    + rewrite Hnext. rewrite Nat.iter_succ_r. reflexivity.
    + rewrite Hcnt. simpl count. lia.
    + simpl. lia.
    + intros z Hz. apply elem_of_cons in Hz as [->|Hz]; [assumption|].
      specialize (Hall z Hz). rewrite last_snoc in Hall. congruence.
    + rewrite Hl', <- app_assoc. reflexivity.
  - injection E as <- <-. exists 0%nat, []. simpl.
    rewrite app_nil_r, Z.add_0_r. split_and!; auto. intros y Hy. inversion Hy.
Qed.

(** The part of [poll_av_packet_video] that follows the tests: the
    duplicates, then the frame itself. *)
Lemma video_emit_Ok fuel d (packet : AVPacket A V) d' l next :
  ring_inv (video_frames d) -> block_ok (video_frames d) ->
  ring_items (video_frames d) = Ok l ->
  (lp <- video_dup_loop fuel (video_frames d) next (frame_time d)
           (pts_seconds d (to_video packet)) ;;
   new_frame <- ring_buffer_get_tail (fst lp) 0 ;;
   buf1 <- memcpy_items (fst lp) new_frame [scaled (to_video packet)] 1 ;;
   buf2 <- ring_buffer_append buf1 1 ;;
   Ok (set_video_next_pts (set_video_frames d buf2)
         (ts_add (snd lp) (frame_time d)))) = Ok d' ->
  exists (k : nat) dups,
    ring_inv (video_frames d') /\ block_ok (video_frames d') /\
    capacity (video_frames d') = capacity (video_frames d) /\
    count (video_frames d') = count (video_frames d) + Z.of_nat k + 1 /\
    length dups = k /\
    (forall y, y ∈ dups -> last l = Some y) /\
    ring_items (video_frames d')
      = Ok (l ++ dups ++ [scaled (to_video packet)]) /\
    video_next_pts (state d')
      = Nat.iter (S k) (fun t => ts_add t (frame_time d)) next /\
    ts_ltb (video_next_pts (state d')) (pts_seconds d (to_video packet)) = false /\
    audio_samples d' = audio_samples d /\
    end_of_input d' = end_of_input d /\
    format (state d') = format (state d).
Proof.
  intros Hinv Hok Hl E.
  apply bind_Ok in E as ([buf1 next1] & Eloop & E). simpl in E.
  destruct (video_dup_loop_Ok _ _ _ _ _ _ _ _ Hinv Hok Hl Eloop)
    as (k & dups & Hnext & Hstop & Hinv1 & Hok1 & Hcap1 & Hcnt1 & Hlen & Hall & Hl1).
  destruct (ring_buffer_get_tail buf1 0) as [p| |] eqn:Et; simpl in E;
    try discriminate.
  destruct (memcpy_items buf1 p [scaled (to_video packet)] 1) as [b1| |] eqn:Em;
    simpl in E; try discriminate.
  destruct (ring_buffer_append b1 1) as [b2| |] eqn:Ea; simpl in E;
    try discriminate.
  injection E as <-.
  assert (Hroom : count buf1 < capacity buf1).
  { pose proof Em as Em'. apply memcpy_items_Ok in Em' as (_ & cells' & -> & _).
    apply ring_buffer_append_Ok in Ea. simpl in Ea. lia. }
  pose proof (span_positive buf1 Hinv1 Hroom) as Hspan.
  destruct (write_at_tail_Ok buf1 [scaled (to_video packet)] 1 _ b2 Hinv1 Hok1 Hl1 Hspan)
    as (_ & _ & -> & Hinv2 & Hok2 & Hl2).
  { rewrite Et. simpl. rewrite Em. simpl. exact Ea. }
  exists k, dups. simpl. split_and!; try assumption; try reflexivity.
  - lia.
  - rewrite <- app_assoc in Hl2. exact Hl2.
  - rewrite Hnext. reflexivity.
Qed.

(** What a call of [poll_av_packet_video] that returned has done: nothing,
    or queued some copies of the newest frame and then the new one. *)
Lemma poll_av_packet_video_Ok fuel d packet d' l :
  ring_inv (video_frames d) -> block_ok (video_frames d) ->
  ring_items (video_frames d) = Ok l ->
  poll_av_packet_video fuel d packet = Ok d' ->
  d' = d \/
  exists (k : nat) dups,
    ring_inv (video_frames d') /\ block_ok (video_frames d') /\
    capacity (video_frames d') = capacity (video_frames d) /\
    count (video_frames d') = count (video_frames d) + Z.of_nat k + 1 /\
    length dups = k /\
    (forall y, y ∈ dups -> last l = Some y) /\
    ring_items (video_frames d')
      = Ok (l ++ dups ++ [scaled (to_video packet)]) /\
    video_next_pts (state d')
      = Nat.iter (S k) (fun t => ts_add t (frame_time d))
          (if count (video_frames d) =? 0 then pts_seconds d (to_video packet)
           else video_next_pts (state d)) /\
    ts_ltb (video_next_pts (state d')) (pts_seconds d (to_video packet)) = false /\
    audio_samples d' = audio_samples d /\
    end_of_input d' = end_of_input d /\
    format (state d') = format (state d).
Proof.
  intros Hinv Hok Hl. unfold poll_av_packet_video.
  destruct (negb (video_decoded (to_video packet))); [intros [= <-]; auto|].
  destruct ((frame_width (to_video packet) =? 0)
            || (frame_height (to_video packet) =? 0)
            || negb (frame_data0 (to_video packet))); [intros [= <-]; auto|].
  destruct (negb (count (video_frames d) =? 0)
            && ts_ltb (pts_seconds d (to_video packet)) (video_next_pts (state d)));
    [intros [= <-]; auto|].
  intros E. right. eapply video_emit_Ok; eassumption.
Qed.

End VideoReturns.

(** ** The pump only appends *)

Lemma ring_extends_refl {T : Type} (b : ring_buffer_t T) : ring_extends b b.
Proof.
  intros l Hinv Hok Hl. split_and!; auto. exists []. rewrite app_nil_r. exact Hl.
Qed.

Lemma ring_extends_trans {T : Type} (b1 b2 b3 : ring_buffer_t T) :
  ring_extends b1 b2 -> ring_extends b2 b3 -> ring_extends b1 b3.
Proof.
  intros H12 H23 l Hinv Hok Hl.
  destruct (H12 l Hinv Hok Hl) as (Hinv2 & Hok2 & Hcap2 & more & Hl2).
  destruct (H23 _ Hinv2 Hok2 Hl2) as (Hinv3 & Hok3 & Hcap3 & more' & Hl3).
  split_and!; try assumption; [congruence|].
  exists (more ++ more'). rewrite app_assoc. exact Hl3.
Qed.

Section PumpReturns.

Context {R : Type} `{Timestamp R} {A V : Type}.
Implicit Types d : decoder_t R A V.

Lemma poll_av_packet_audio_Ok fuel d (packet : AVPacket A V) d' l :
  ring_inv (audio_samples d) -> block_ok (audio_samples d) ->
  ring_items (audio_samples d) = Ok l ->
  poll_av_packet_audio fuel d packet = Ok d' ->
  d' = d \/
  (ring_inv (audio_samples d') /\ block_ok (audio_samples d') /\
   capacity (audio_samples d') = capacity (audio_samples d) /\
   count (audio_samples d')
     = count (audio_samples d) + Z.of_nat (length (converted (to_audio packet))) /\
   ring_items (audio_samples d') = Ok (l ++ converted (to_audio packet)) /\
   video_frames d' = video_frames d /\ state d' = state d /\
   end_of_input d' = end_of_input d).
Proof.
  intros Hinv Hok Hl. unfold poll_av_packet_audio.
  destruct (negb (audio_decoded (to_audio packet))); [intros [= <-]; auto|].
  destruct (out_samples (to_audio packet) =? 0); [intros [= <-]; auto|].
  intros E. right.
  apply bind_Ok in E as (_ & _ & E).
  apply bind_Ok in E as ([buf' log] & Eloop & [= <-]).
  destruct (audio_span_loop_Ok _ _ _ _ _ _ _ Hinv Hok Hl Eloop)
    as (Hinv' & Hok' & Hcap & _ & Hrest).
  destruct Hrest as (_ & Hcnt & Hl'); [lia|].
  rewrite Nat2Z.id, firstn_all in Hl'.
  simpl. split_and!; auto.
Qed.

Lemma poll_av_data_extends fuel d b d' :
  poll_av_data fuel d = Ok (b, d') ->
  ring_extends (audio_samples d) (audio_samples d') /\
  ring_extends (video_frames d) (video_frames d') /\
  (exists consumed, format (state d) = consumed ++ format (state d')) /\
  (end_of_input d = true -> d' = d).
Proof.
  unfold poll_av_data. destruct (end_of_input d) eqn:Eend.
  { intros [= <- <-]. split_and!; try apply ring_extends_refl; auto.
    exists []. reflexivity. }
  destruct (format (state d)) as [|packet rest] eqn:Ef.
  { intros [= <- <-]. split_and!; try apply ring_extends_refl; [|discriminate].
    exists []. simpl. symmetry. exact Ef. }
  intros E. apply bind_Ok in E as (d1 & E & [= <- <-]).
  assert (Hgoal : ring_extends (audio_samples d) (audio_samples d1) /\
                  ring_extends (video_frames d) (video_frames d1) /\
                  format (state d1) = rest).
  { destruct (stream_index packet =? audio_stream_index (state (set_format d rest))).
    - split_and!.
      + intros l Hinv Hok Hl.
        destruct (poll_av_packet_audio_Ok fuel (set_format d rest) packet d1 l)
          as [->|(Hinv' & Hok' & Hcap & _ & Hl' & _)]; try assumption.
        * apply (ring_extends_refl (audio_samples d)); assumption.
        * split_and!; eauto.
      + apply poll_av_packet_audio_state in E as (_ & -> & _).
        apply ring_extends_refl.
      + apply poll_av_packet_audio_state in E as (-> & _). reflexivity.
    - destruct (stream_index packet =? video_stream_index (state (set_format d rest))).
      + split_and!.
        * apply poll_av_packet_video_state in E as (_ & -> & _).
          apply ring_extends_refl.
        * intros l Hinv Hok Hl.
          destruct (poll_av_packet_video_Ok fuel (set_format d rest) packet d1 l)
            as [->|(k & dups & Hinv' & Hok' & Hcap & _ & _ & _ & Hl' & _)];
            try assumption.
          -- apply (ring_extends_refl (video_frames d)); assumption.
          -- split_and!; eauto.
        * apply poll_av_packet_video_state in E as (-> & _). reflexivity.
      + injection E as <-. split_and!; try apply ring_extends_refl. reflexivity. }
  destruct Hgoal as (Ha & Hv & Hf).
  split_and!; try assumption; [|discriminate].
  exists [packet]. rewrite Hf. reflexivity.
Qed.

Lemma ensure_av_data_loop_extends fuel na nv rounds : forall d b d',
  ensure_av_data_loop rounds fuel d na nv = Ok (b, d') ->
  ring_extends (audio_samples d) (audio_samples d') /\
  ring_extends (video_frames d) (video_frames d') /\
  (exists consumed, format (state d) = consumed ++ format (state d')) /\
  (end_of_input d = true -> d' = d) /\
  (ensure_waits d na nv = false -> d' = d /\ b = true).
Proof.
  induction rounds as [|rounds IH]; intros d b d'; simpl;
    destruct (ensure_waits d na nv) eqn:Ew; try discriminate.
  - intros [= <- <-]. split_and!; try apply ring_extends_refl; auto.
    exists []. reflexivity.
  - intros E. apply bind_Ok in E as ([more d1] & Ep & E). simpl in E.
    destruct (poll_av_data_extends fuel d more d1 Ep) as (Ha & Hv & (c1 & Hc1) & Hend).
    destruct more; simpl in E.
    + apply IH in E as (Ha' & Hv' & (c2 & Hc2) & Hend' & _).
      split_and!.
      * eapply ring_extends_trans; eassumption.
      * eapply ring_extends_trans; eassumption.
      * exists (c1 ++ c2). rewrite Hc1, Hc2, app_assoc. reflexivity.
      * intros He. specialize (Hend He). subst d1. auto.
      * discriminate.
    + injection E as <- <-. split_and!; try assumption; [eauto | discriminate].
  - intros [= <- <-]. split_and!; try apply ring_extends_refl; auto.
    exists []. reflexivity.
Qed.

End PumpReturns.

(** ** Queries, queue discipline and teardown of the ring *)

Section QueueTheorems.

Context {T : Type}.
Implicit Types buf : ring_buffer_t T.

(** X2. Under the ring invariant [ring_buffer_is_contiguous] answers true
    exactly when the queued items do not wrap around the end of the block,
    that is when [head + count <= capacity]. *)
Theorem ring_buffer_is_contiguous_no_wrap buf :
  ring_inv buf ->
  (ring_buffer_is_contiguous buf = true <-> head buf + count buf <= capacity buf).
Proof.
  intros Hinv. rewrite ring_buffer_is_contiguous_iff by assumption.
  apply Z.leb_le.
Qed.

(** X3. Under the ring invariant the span [ring_buffer_get_contiguous_span]
    reports never runs past the end of the block.  Unless the queued items
    end exactly at the end of the block it is at most the number of free
    slots, and it is 0 only for a full ring.  When they do end there
    ([head + count = capacity], so [tail = 0]) the span reported is the
    whole [capacity], whatever is queued. *)
Theorem ring_buffer_get_contiguous_span_bounds buf :
  ring_inv buf ->
  0 <= ring_buffer_get_contiguous_span buf /\
  tail buf + ring_buffer_get_contiguous_span buf <= capacity buf /\
  (head buf + count buf <> capacity buf ->
   ring_buffer_get_contiguous_span buf <= capacity buf - count buf /\
   (ring_buffer_get_contiguous_span buf = 0 <-> count buf = capacity buf)) /\
  (head buf + count buf = capacity buf ->
   tail buf = 0 /\ ring_buffer_get_contiguous_span buf = capacity buf).
Proof.
  intros Hinv. rewrite ring_buffer_get_contiguous_span_value by assumption.
  pose proof (ring_inv_tail buf Hinv) as Ht.
  destruct Hinv as (Hc & Hcnt & Hh & Htl & _).
  destruct (Z.ltb_spec (head buf + count buf) (capacity buf));
    destruct (Z.eqb_spec (head buf + count buf) (capacity buf)); lia.
Qed.

(** X4. The ring is a first-in first-out queue: a sequence of batch writes
    at the tail (each within the span reported and the free slots) and of
    releases at the head (each of at most the items queued) returns, keeps
    the invariant, and leaves queued exactly what the same appends and
    drops leave of the list of items queued before. *)
Theorem queue_run_refines_fifo (ops : list (queue_op (T := T))) : forall buf l,
  ring_inv buf -> block_ok buf -> ring_items buf = Ok l ->
  queue_ops_fit ops buf ->
  exists buf',
    queue_run ops buf = Ok buf' /\
    ring_inv buf' /\ block_ok buf' /\
    capacity buf' = capacity buf /\
    ring_items buf' = Ok (fifo_run ops l).
Proof.
  induction ops as [|op ops IH]; intros buf l Hinv Hok Hl Hfit.
  - exists buf. simpl. auto.
  - destruct Hfit as [Hop Hrest]. destruct op as [batch|n].
    + destruct Hop as [Hspan Hfree].
      destruct (write_span_written buf batch l)
        as (buf1 & E & Hinv1 & Hok1 & Hcap1 & _ & Hl1); try assumption.
      destruct (IH buf1 _ Hinv1 Hok1 Hl1 (Hrest _ E))
        as (buf' & E' & Hinv' & Hok' & Hcap' & Hl').
      exists buf'. simpl. rewrite E. simpl. split_and!; try assumption. congruence.
    + destruct (ring_buffer_remove_items buf n l)
        as (buf1 & E & Hinv1 & Hok1 & Hcap1 & _ & _ & _ & Hl1); try assumption.
      destruct (IH buf1 _ Hinv1 Hok1 Hl1 (Hrest _ E))
        as (buf' & E' & Hinv' & Hok' & Hcap' & Hl').
      exists buf'. simpl. rewrite E. simpl. split_and!; try assumption. congruence.
Qed.

(** X5. [destroy_ring_buffer] on a ring whose block is allocated whenever
    its capacity is not 0 (as [init_ring_buffer] leaves it) gives a ring
    without block and of capacity 0; destroying it again changes nothing,
    and every later [ring_buffer_append], [ring_buffer_remove],
    [ring_buffer_get_head] or [ring_buffer_get_tail] on it stops on its
    assertion or on the division by the capacity. *)
Theorem destroy_ring_buffer_final buf n offset :
  (data buf = 0 -> capacity buf = 0) ->
  data (destroy_ring_buffer buf) = 0 /\
  capacity (destroy_ring_buffer buf) = 0 /\
  destroy_ring_buffer (destroy_ring_buffer buf) = destroy_ring_buffer buf /\
  stops (ring_buffer_append (destroy_ring_buffer buf) n) /\
  stops (ring_buffer_remove (destroy_ring_buffer buf) n) /\
  stops (ring_buffer_get_head (destroy_ring_buffer buf) offset) /\
  stops (ring_buffer_get_tail (destroy_ring_buffer buf) offset).
Proof.
  intros Hnull.
  assert (Hd : data (destroy_ring_buffer buf) = 0 /\
               capacity (destroy_ring_buffer buf) = 0).
  { unfold destroy_ring_buffer. destruct (Z.eqb_spec (data buf) 0); simpl; auto. }
  destruct Hd as [Hd Hc].
  split; [exact Hd|]. split; [exact Hc|]. split.
  { unfold destroy_ring_buffer at 1. rewrite Hd. reflexivity. }
  unfold ring_buffer_append, ring_buffer_remove, ring_buffer_get_head,
    ring_buffer_get_tail, c_rem. rewrite Hc. simpl.
  split_and!.
  - destruct (assert _) as [[]| |]; simpl; exact I.
  - destruct (assert _) as [[]| |]; simpl; exact I.
  - destruct (assert _) as [[]| |]; simpl; exact I.
  - destruct (assert _) as [[]| |]; simpl; exact I.
Qed.

End QueueTheorems.

Lemma small_wrapped_ring_inv : ring_inv small_wrapped_ring.
Proof. apply ring_inv_intro; simpl; lia. Qed.

Lemma small_wrapped_ring_block_ok : block_ok small_wrapped_ring.
Proof.
  unfold block_ok, SIZE_MODULUS. simpl. split_and!; [lia | lia | lia | reflexivity].
Qed.

Lemma ring_buffer_remove_releases_oldest_witness :
  exists buf',
    ring_buffer_remove tail_at_start_ring 1 = Ok buf' /\
    count buf' = count tail_at_start_ring - 1 /\
    ring_items buf' = Ok (drop (Z.to_nat 1) [30; 40]) /\
    (forall (i : nat) x, [30; 40] !! (Z.to_nat 1 + i)%nat = Some x ->
       peek_head buf' (Z.of_nat i) = Ok x).
Proof.
  apply (ring_buffer_remove_releases_oldest tail_at_start_ring 1 [30; 40]).
  - exact tail_at_start_ring_inv.
  - exact tail_at_start_ring_block_ok.
  - reflexivity.
  - simpl. lia.
Defined.

Lemma ring_buffer_is_contiguous_no_wrap_witness :
  (ring_buffer_is_contiguous tail_at_start_ring = true <->
   head tail_at_start_ring + count tail_at_start_ring
     <= capacity tail_at_start_ring) /\
  ring_buffer_is_contiguous tail_at_start_ring = true.
Proof.
  split; [|reflexivity].
  apply (ring_buffer_is_contiguous_no_wrap tail_at_start_ring).
  exact tail_at_start_ring_inv.
Defined.

Lemma ring_buffer_get_contiguous_span_bounds_witness :
  0 <= ring_buffer_get_contiguous_span tail_at_start_ring /\
  tail tail_at_start_ring + ring_buffer_get_contiguous_span tail_at_start_ring
    <= capacity tail_at_start_ring /\
  (head tail_at_start_ring + count tail_at_start_ring <> capacity tail_at_start_ring ->
   ring_buffer_get_contiguous_span tail_at_start_ring
     <= capacity tail_at_start_ring - count tail_at_start_ring /\
   (ring_buffer_get_contiguous_span tail_at_start_ring = 0
    <-> count tail_at_start_ring = capacity tail_at_start_ring)) /\
  (head tail_at_start_ring + count tail_at_start_ring = capacity tail_at_start_ring ->
   tail tail_at_start_ring = 0 /\
   ring_buffer_get_contiguous_span tail_at_start_ring = capacity tail_at_start_ring).
Proof.
  apply (ring_buffer_get_contiguous_span_bounds tail_at_start_ring).
  exact tail_at_start_ring_inv.
Defined.

Lemma queue_run_refines_fifo_witness :
  exists buf',
    queue_run [Write [1; 2]; Release 3; Write [3]; Write [4; 5]; Release 2; Write [6]]
      small_wrapped_ring = Ok buf' /\
    ring_inv buf' /\ block_ok buf' /\
    capacity buf' = capacity small_wrapped_ring /\
    ring_items buf'
      = Ok (fifo_run [Write [1; 2]; Release 3; Write [3]; Write [4; 5]; Release 2; Write [6]]
              [7; 8; 9]).
Proof.
  apply (queue_run_refines_fifo
           [Write [1; 2]; Release 3; Write [3]; Write [4; 5]; Release 2; Write [6]]
           small_wrapped_ring [7; 8; 9]).
  - exact small_wrapped_ring_inv.
  - exact small_wrapped_ring_block_ok.
  - reflexivity.
  - simpl. split; [vm_compute; split; discriminate|].
    intros b1 E1. vm_compute in E1. injection E1 as <-.
    split; [vm_compute; split; discriminate|].
    intros b2 E2. vm_compute in E2. injection E2 as <-.
    split; [vm_compute; split; discriminate|].
    intros b3 E3. vm_compute in E3. injection E3 as <-.
    split; [vm_compute; split; discriminate|].
    intros b4 E4. vm_compute in E4. injection E4 as <-.
    split; [vm_compute; split; discriminate|].
    intros b5 E5. vm_compute in E5. injection E5 as <-.
    split; [vm_compute; split; discriminate|].
    intros b6 _. exact I.
Defined.

Lemma destroy_ring_buffer_final_witness :
  data (destroy_ring_buffer small_wrapped_ring) = 0 /\
  capacity (destroy_ring_buffer small_wrapped_ring) = 0 /\
  destroy_ring_buffer (destroy_ring_buffer small_wrapped_ring)
    = destroy_ring_buffer small_wrapped_ring /\
  stops (ring_buffer_append (destroy_ring_buffer small_wrapped_ring) 0) /\
  stops (ring_buffer_remove (destroy_ring_buffer small_wrapped_ring) 0) /\
  stops (ring_buffer_get_head (destroy_ring_buffer small_wrapped_ring) 0) /\
  stops (ring_buffer_get_tail (destroy_ring_buffer small_wrapped_ring) 0).
Proof.
  apply (destroy_ring_buffer_final small_wrapped_ring 0 0).
  simpl. discriminate.
Defined.

(** ** The packet pump *)

Section PumpTheorems.

Context {R : Type} `{Timestamp R} {A V : Type}.
Implicit Types d : decoder_t R A V.

(** X6. A packet the audio path accepts (decoded, with a sample count
    between 1 and [RESAMPLE_BUFFER_SIZE]) makes [poll_av_packet_audio]
    return exactly when the resampled chunk fits the free slots of the
    audio ring (two iterations of the copy loop are enough then): with a
    longer chunk the call does not return, whatever the number of
    iterations granted. *)
Theorem poll_av_packet_audio_returns_iff_fits fuel d (packet : AVPacket A V) :
  ring_inv (audio_samples d) -> block_ok (audio_samples d) ->
  audio_decoded (to_audio packet) = true ->
  1 <= out_samples (to_audio packet) <= RESAMPLE_BUFFER_SIZE ->
  (2 <= fuel)%nat ->
  (returns (poll_av_packet_audio fuel d packet) <->
   Z.of_nat (length (converted (to_audio packet)))
     <= capacity (audio_samples d) - count (audio_samples d)).
Proof.
  intros Hinv Hok Hdec Hout Hfuel.
  destruct (ring_items_total _ Hinv Hok) as [l Hl].
  unfold poll_av_packet_audio. rewrite Hdec. simpl.
  destruct (Z.eqb_spec (out_samples (to_audio packet)) 0); [lia|].
  rewrite assert_true by (apply Z.leb_le; lia). simpl.
  split.
  - destruct (audio_span_loop fuel (audio_samples d) (converted (to_audio packet))
                (Z.of_nat (length (converted (to_audio packet)))))
      as [[buf' log]| |] eqn:E; simpl; try contradiction.
    intros _.
    destruct (audio_span_loop_Ok _ _ _ _ _ _ _ Hinv Hok Hl E)
      as ((_ & Hcnt & _) & _ & Hcap & _ & Hrest).
    destruct Hrest as (_ & Hcnt' & _); [lia|]. lia.
  - intros Hfit.
    destruct (audio_span_loop_total fuel (audio_samples d)
                (converted (to_audio packet)) l Hinv Hok Hl Hfit Hfuel)
      as (buf' & log & E & _).
    rewrite E. exact I.
Qed.

(** X7. [poll_av_data] on a packet of the audio stream that decodes to a
    chunk fitting the free slots of the audio ring returns true with the
    samples queued behind the ones already there, in order; the video
    ring, [video_next_pts] and [end_of_input] stay as they were and the
    packet is consumed. *)
Theorem poll_av_data_queues_audio fuel d (packet : AVPacket A V) rest l :
  end_of_input d = false ->
  format (state d) = packet :: rest ->
  stream_index packet = audio_stream_index (state d) ->
  audio_decoded (to_audio packet) = true ->
  1 <= out_samples (to_audio packet) <= RESAMPLE_BUFFER_SIZE ->
  ring_inv (audio_samples d) -> block_ok (audio_samples d) ->
  ring_items (audio_samples d) = Ok l ->
  Z.of_nat (length (converted (to_audio packet)))
    <= capacity (audio_samples d) - count (audio_samples d) ->
  (2 <= fuel)%nat ->
  exists d',
    poll_av_data fuel d = Ok (true, d') /\
    ring_inv (audio_samples d') /\ block_ok (audio_samples d') /\
    count (audio_samples d')
      = count (audio_samples d) + Z.of_nat (length (converted (to_audio packet))) /\
    ring_items (audio_samples d') = Ok (l ++ converted (to_audio packet)) /\
    video_frames d' = video_frames d /\
    video_next_pts (state d') = video_next_pts (state d) /\
    end_of_input d' = false /\
    format (state d') = rest.
Proof.
  intros Hend Hf Hidx Hdec Hout Hinv Hok Hl Hfit Hfuel.
  destruct (audio_span_loop_total fuel (audio_samples d)
              (converted (to_audio packet)) l Hinv Hok Hl Hfit Hfuel)
    as (buf' & log & E & Hinv' & Hok' & _ & Hcnt & Hl' & _).
  exists (set_audio_samples (set_format d rest) buf').
  split; [|simpl; split_and!; auto].
  unfold poll_av_data. rewrite Hend, Hf. simpl.
  rewrite (proj2 (Z.eqb_eq _ _) Hidx).
  unfold poll_av_packet_audio. rewrite Hdec. simpl.
  destruct (Z.eqb_spec (out_samples (to_audio packet)) 0); [lia|].
  rewrite assert_true by (apply Z.leb_le; lia). simpl.
  rewrite E. reflexivity.
Qed.

(** X8. With the video ring full, a frame that passes the tests of
    [poll_av_packet_video] (decoded, with a size and a first plane, not
    early) never makes the call return, whatever the number of loop
    iterations granted. *)
Theorem poll_av_packet_video_full_ring_stops fuel d (packet : AVPacket A V) :
  ring_inv (video_frames d) -> block_ok (video_frames d) ->
  count (video_frames d) = capacity (video_frames d) ->
  video_decoded (to_video packet) = true ->
  frame_width (to_video packet) <> 0 ->
  frame_height (to_video packet) <> 0 ->
  frame_data0 (to_video packet) = true ->
  ts_ltb (pts_seconds d (to_video packet)) (video_next_pts (state d)) = false ->
  stops (poll_av_packet_video fuel d packet).
Proof.
  intros Hinv Hok Hfull Hdec Hw Hh Hd0 Hlate.
  destruct (ring_items_total _ Hinv Hok) as [l Hl].
  destruct (poll_av_packet_video fuel d packet) as [d'| |] eqn:E; simpl; auto.
  pose proof E as E0.
  unfold poll_av_packet_video in E. rewrite Hdec, Hd0, Hlate in E. simpl in E.
  destruct (Z.eqb_spec (frame_width (to_video packet)) 0); [contradiction|].
  destruct (Z.eqb_spec (frame_height (to_video packet)) 0); [contradiction|].
  simpl in E. rewrite andb_false_r in E.
  destruct (video_emit_Ok fuel d packet d' l _ Hinv Hok Hl E)
    as (k & dups & Hinv' & _ & Hcap & Hcnt & _).
  destruct Hinv' as (_ & Hc' & _). lia.
Qed.

(** X9. A call of [ensure_av_data] that returns has only appended to the
    rings: each ring that was well formed still is, has the capacity it
    had, and holds the items it held, in order, in front of whatever was
    added; the packets left in the input are a suffix of those it had.  On
    an input whose end was seen, and when both rings already hold more
    than requested, it changes nothing at all. *)
Theorem ensure_av_data_only_appends fuel d na nv b d' :
  ensure_av_data fuel d na nv = Ok (b, d') ->
  ring_extends (audio_samples d) (audio_samples d') /\
  ring_extends (video_frames d) (video_frames d') /\
  (exists consumed, format (state d) = consumed ++ format (state d')) /\
  (end_of_input d = true -> d' = d) /\
  (ensure_waits d na nv = false -> d' = d /\ b = true).
Proof. apply ensure_av_data_loop_extends. Qed.

(** X10. [poll_av_data] consumes a packet its decoder rejects and goes on:
    for a packet of the audio stream that does not decode or gives no
    samples, and for a packet of the video stream that does not decode or
    gives a frame without width, height or first plane, it returns true
    with nothing changed but the position in the input. *)
Theorem poll_av_data_skips_undecodable fuel d (packet : AVPacket A V) rest :
  end_of_input d = false ->
  format (state d) = packet :: rest ->
  (stream_index packet = audio_stream_index (state d) ->
   audio_decoded (to_audio packet) = false \/ out_samples (to_audio packet) = 0) ->
  (stream_index packet <> audio_stream_index (state d) ->
   stream_index packet = video_stream_index (state d) ->
   video_decoded (to_video packet) = false \/
   frame_width (to_video packet) = 0 \/
   frame_height (to_video packet) = 0 \/
   frame_data0 (to_video packet) = false) ->
  poll_av_data fuel d = Ok (true, set_format d rest).
Proof.
  intros Hend Hf Ha Hv. unfold poll_av_data. rewrite Hend, Hf. simpl.
  destruct (Z.eqb_spec (stream_index packet) (audio_stream_index (state d)))
    as [Ea|Ea].
  - unfold poll_av_packet_audio.
    destruct (Ha Ea) as [-> | ->]; simpl; [reflexivity|].
    destruct (negb (audio_decoded (to_audio packet))); reflexivity.
  - destruct (Z.eqb_spec (stream_index packet) (video_stream_index (state d)))
      as [Ev|Ev]; [|reflexivity].
    unfold poll_av_packet_video.
    destruct (Hv Ea Ev) as [-> | [-> | [-> | ->]]]; simpl; try reflexivity.
    + destruct (negb (video_decoded (to_video packet))); reflexivity.
    + destruct (negb (video_decoded (to_video packet))); [reflexivity|].
      rewrite orb_true_r. reflexivity.
    + destruct (negb (video_decoded (to_video packet))); [reflexivity|].
      rewrite orb_true_r. reflexivity.
Qed.

(** X11. [poll_av_data] reports the end of the input exactly when the
    input has nothing more to give: on such a decoder it returns false
    and sets [end_of_input], touching nothing else, and a call that
    returns gives false, and leaves [end_of_input] set, in that case
    only. *)
Theorem poll_av_data_end_of_input fuel d :
  (exhausted d -> poll_av_data fuel d = Ok (false, set_end_of_input d true)) /\
  (forall b d', poll_av_data fuel d = Ok (b, d') ->
     (b = false <-> exhausted d) /\ (end_of_input d' = true <-> exhausted d)).
Proof.
  split.
  - intros Hex. unfold poll_av_data. destruct (end_of_input d) eqn:Eend.
    + destruct d; simpl in *; subst; reflexivity.
    + destruct Hex as [Hex|Hex]; [congruence|]. rewrite Hex. reflexivity.
  - intros b d' E. unfold exhausted.
    unfold poll_av_data in E. destruct (end_of_input d) eqn:Eend.
    { injection E as <- <-. rewrite Eend. tauto. }
    destruct (format (state d)) as [|packet rest] eqn:Ef.
    { injection E as <- <-. simpl. tauto. }
    apply bind_Ok in E as (d1 & E & [= <- <-]).
    assert (Hflag : end_of_input d1 = false).
    { destruct (stream_index packet =? audio_stream_index (state (set_format d rest))).
      - apply poll_av_packet_audio_state in E as (_ & _ & ->). exact Eend.
      - destruct (stream_index packet =? video_stream_index (state (set_format d rest))).
        + apply poll_av_packet_video_state in E as (_ & _ & ->). exact Eend.
        + injection E as <-. exact Eend. }
    rewrite Hflag. split; split; intros; try discriminate;
      destruct H0; discriminate.
Qed.

End PumpTheorems.

Lemma poll_av_packet_audio_returns_iff_fits_witness :
  returns (poll_av_packet_audio 2 (small_audio_session [1; 2; 3; 4; 5])
             (audio_packet 0 [1; 2; 3; 4; 5] 0)) <->
  Z.of_nat (length (converted (to_audio (audio_packet (V := Z) 0 [1; 2; 3; 4; 5] 0))))
    <= capacity (audio_samples (small_audio_session [1; 2; 3; 4; 5]))
       - count (audio_samples (small_audio_session [1; 2; 3; 4; 5])).
Proof.
  apply (poll_av_packet_audio_returns_iff_fits 2 (small_audio_session [1; 2; 3; 4; 5])
           (audio_packet 0 [1; 2; 3; 4; 5] 0)).
  - exact small_wrapped_ring_inv.
  - exact small_wrapped_ring_block_ok.
  - reflexivity.
  - vm_compute. split; discriminate.
  - lia.
Defined.

Lemma poll_av_data_queues_audio_witness :
  exists d',
    poll_av_data 2 (small_audio_session [1; 2; 3; 4; 5]) = Ok (true, d') /\
    ring_inv (audio_samples d') /\ block_ok (audio_samples d') /\
    count (audio_samples d') = 3 + 5 /\
    ring_items (audio_samples d') = Ok ([7; 8; 9] ++ [1; 2; 3; 4; 5]) /\
    video_frames d' = absent_ring /\
    video_next_pts (state d')
      = video_next_pts (state (small_audio_session [1; 2; 3; 4; 5])) /\
    end_of_input d' = false /\
    format (state d') = [].
Proof.
  apply (poll_av_data_queues_audio 2 (small_audio_session [1; 2; 3; 4; 5])
           (audio_packet 0 [1; 2; 3; 4; 5] 0) [] [7; 8; 9]).
  - reflexivity.
  - reflexivity.
  - reflexivity.
  - reflexivity.
  - vm_compute. split; discriminate.
  - exact small_wrapped_ring_inv.
  - exact small_wrapped_ring_block_ok.
  - reflexivity.
  - simpl. lia.
  - lia.
Defined.

Lemma full_video_ring_inv : ring_inv full_video_ring.
Proof. apply ring_inv_intro; simpl; lia. Qed.

Lemma full_video_ring_block_ok : block_ok full_video_ring.
Proof.
  unfold block_ok, SIZE_MODULUS. simpl. split_and!; [lia | lia | lia | reflexivity].
Qed.

Lemma poll_av_packet_video_full_ring_stops_witness :
  stops (poll_av_packet_video 5 full_video_session (video_packet 0 20 500)).
Proof.
  apply (poll_av_packet_video_full_ring_stops 5 full_video_session
           (video_packet 0 20 500)).
  - exact full_video_ring_inv.
  - exact full_video_ring_block_ok.
  - reflexivity.
  - reflexivity.
  - simpl. lia.
  - simpl. lia.
  - reflexivity.
  - vm_compute. reflexivity.
Defined.

Lemma ensure_av_data_only_appends_witness :
  exists d',
    ensure_av_data 2 audio_session 100 0 = Ok (true, d') /\
    ring_extends (audio_samples audio_session) (audio_samples d') /\
    ring_extends (video_frames audio_session) (video_frames d') /\
    (exists consumed,
       format (state audio_session) = consumed ++ format (state d')) /\
    (end_of_input audio_session = true -> d' = audio_session) /\
    (ensure_waits audio_session 100 0 = false -> d' = audio_session /\ true = true).
Proof.
  eexists. split; [vm_compute; reflexivity|].
  apply (ensure_av_data_only_appends 2 audio_session 100 0 true).
  vm_compute. reflexivity.
Defined.

Lemma poll_av_data_skips_undecodable_witness :
  poll_av_data 0 damaged_session
  = Ok (true, set_format damaged_session [video_packet 1 0 100]).
Proof.
  apply (poll_av_data_skips_undecodable 0 damaged_session
           (undecodable_packet 0 50) [video_packet 1 0 100]).
  - reflexivity.
  - reflexivity.
  - intros _. left. reflexivity.
  - intros Hne. exfalso. apply Hne. reflexivity.
Defined.

Lemma poll_av_data_end_of_input_witness :
  poll_av_data 0 drained_decoder = Ok (false, set_end_of_input drained_decoder true) /\
  ((false = false <-> exhausted drained_decoder) /\
   (end_of_input (set_end_of_input drained_decoder true) = true
    <-> exhausted drained_decoder)).
Proof.
  pose proof (poll_av_data_end_of_input 0 drained_decoder) as [Hret Hall].
  split.
  - apply Hret. left. reflexivity.
  - apply (Hall false (set_end_of_input drained_decoder true)).
    apply Hret. left. reflexivity.
Defined.

(** ** Duplicated frames *)

Section Duplicates.

Context {R : Type} `{Timestamp R} {A V : Type}.
Implicit Types buf : ring_buffer_t V.
Implicit Types d : decoder_t R A V.

Lemma written_one_fields buf (x : V) :
  ring_inv buf -> count buf < capacity buf ->
  capacity (written buf [x] 1) = capacity buf /\
  count (written buf [x] 1) = count buf + 1 /\
  (tail buf + 1 < capacity buf -> tail (written buf [x] 1) = tail buf + 1).
Proof.
  intros (Hc & Hcnt & Hh & Ht & _) Hroom. simpl. split_and!; try reflexivity.
  intros Hlt. apply Z.mod_small. lia.
Qed.

Lemma iter_add_shift (ft next : R) (j : nat) :
  Nat.iter j (fun t => ts_add t ft) (ts_add next ft)
  = Nat.iter (S j) (fun t => ts_add t ft) next.
Proof. symmetry. exact (Nat.iter_succ_r j (fun t => ts_add t ft) next). Qed.

(** The duplication loop as long as its condition holds [k] times in a
    row: [k] copies of the newest frame. *)
Lemma video_dup_loop_runs (ft pts : R) (k : nat) : forall fuel buf next l y,
  ring_inv buf -> block_ok buf ->
  ring_items buf = Ok (l ++ [y]) ->
  count buf + Z.of_nat k <= capacity buf ->
  (k = 0%nat \/ (1 <= tail buf /\ tail buf + Z.of_nat k <= capacity buf)) ->
  (forall j, (j < k)%nat ->
     ts_ltb (ts_add (Nat.iter j (fun t => ts_add t ft) next) ft) pts = true) ->
  ts_ltb (ts_add (Nat.iter k (fun t => ts_add t ft) next) ft) pts = false ->
  (k <= fuel)%nat ->
  exists buf',
    video_dup_loop fuel buf next ft pts
      = Ok (buf', Nat.iter k (fun t => ts_add t ft) next) /\
    ring_inv buf' /\ block_ok buf' /\
    capacity buf' = capacity buf /\
    count buf' = count buf + Z.of_nat k /\
    ring_items buf' = Ok (l ++ [y] ++ replicate k y).
Proof.
  induction k as [|k IH]; intros fuel buf next l y Hinv Hok Hl Hroom Htail Hcond Hstop Hfuel.
  - exists buf. simpl in *. rewrite video_dup_loop_exit by assumption.
    rewrite Z.add_0_r. split_and!; auto.
  - destruct fuel as [|fuel]; [lia|].
    destruct Htail as [|[Ht1 Ht2]]; [discriminate|].
    assert (Hlt : count buf < capacity buf) by lia.
    rewrite (video_dup_loop_step fuel buf next ft pts l y); try assumption.
    2:{ apply (Hcond 0%nat). lia. }
    destruct (write_one buf y (l ++ [y]) Hinv Hok Hlt Hl)
      as (_ & _ & Hinv1 & Hok1 & Hl1).
    destruct (written_one_fields buf y Hinv Hlt) as (Hcap1 & Hcnt1 & Htl1).
    destruct (IH fuel (written buf [y] 1) (ts_add next ft) (l ++ [y]) y)
      as (buf' & E & Hinv' & Hok' & Hcap' & Hcnt' & Hl'); try assumption.
    + rewrite Hcap1, Hcnt1. lia.
    + destruct k as [|k]; [left; reflexivity|right].
      rewrite Hcap1, Htl1 by lia. lia.
    + intros j Hj. rewrite iter_add_shift. apply Hcond. lia.
    + rewrite iter_add_shift. exact Hstop.
    + lia.
    + exists buf'. rewrite E, iter_add_shift.
      split_and!; try assumption; try lia; try congruence.
      rewrite Hl'. rewrite <- !app_assoc. simpl. reflexivity.
Qed.

(** X12. Frame-rate up-conversion.  A frame that passes the tests of
    [poll_av_packet_video] and arrives late by [k] frame times (the loop
    condition [video_next_pts + frame_time < pts] holds [k] times in a row
    and then fails) is queued behind [k] copies of the newest queued
    frame, and [video_next_pts] has advanced by [k + 1] frame times,
    provided the ring has room for [k + 1] frames and the copies are
    written without the tail passing the end of the block. *)
Theorem poll_av_packet_video_duplicates fuel d (packet : AVPacket A V) l y (k : nat) :
  video_decoded (to_video packet) = true ->
  frame_width (to_video packet) <> 0 ->
  frame_height (to_video packet) <> 0 ->
  frame_data0 (to_video packet) = true ->
  ring_inv (video_frames d) -> block_ok (video_frames d) ->
  ring_items (video_frames d) = Ok (l ++ [y]) ->
  ts_ltb (pts_seconds d (to_video packet)) (video_next_pts (state d)) = false ->
  (forall j, (j < k)%nat ->
     ts_ltb (ts_add (Nat.iter j (fun t => ts_add t (frame_time d))
                       (video_next_pts (state d))) (frame_time d))
       (pts_seconds d (to_video packet)) = true) ->
  ts_ltb (ts_add (Nat.iter k (fun t => ts_add t (frame_time d))
                    (video_next_pts (state d))) (frame_time d))
    (pts_seconds d (to_video packet)) = false ->
  count (video_frames d) + Z.of_nat k + 1 <= capacity (video_frames d) ->
  (k = 0%nat \/
   (1 <= tail (video_frames d) /\
    tail (video_frames d) + Z.of_nat k <= capacity (video_frames d))) ->
  (k <= fuel)%nat ->
  exists d',
    poll_av_packet_video fuel d packet = Ok d' /\
    ring_inv (video_frames d') /\ block_ok (video_frames d') /\
    count (video_frames d') = count (video_frames d) + Z.of_nat k + 1 /\
    ring_items (video_frames d')
      = Ok (l ++ [y] ++ replicate k y ++ [scaled (to_video packet)]) /\
    video_next_pts (state d')
      = Nat.iter (S k) (fun t => ts_add t (frame_time d)) (video_next_pts (state d)).
Proof.
  intros Hdec Hw Hh Hd0 Hinv Hok Hl Hlate Hcond Hstop Hroom Htail Hfuel.
  assert (Hcount : count (video_frames d) <> 0).
  { apply ring_items_iff in Hl as [Hlen _]; [|assumption..].
    rewrite length_app in Hlen. simpl in Hlen. lia. }
  destruct (video_dup_loop_runs (frame_time d) (pts_seconds d (to_video packet)) k
              fuel (video_frames d) (video_next_pts (state d)) l y)
    as (buf1 & E & Hinv1 & Hok1 & Hcap1 & Hcnt1 & Hl1); try assumption; [lia|].
  assert (Hlt1 : count buf1 < capacity buf1) by lia.
  destruct (write_one buf1 (scaled (to_video packet)) _ Hinv1 Hok1 Hlt1 Hl1)
    as (_ & _ & Hinv2 & Hok2 & Hl2).
  destruct (written_one_fields buf1 (scaled (to_video packet)) Hinv1 Hlt1)
    as (_ & Hcnt2 & _).
  eexists. split.
  { apply (poll_av_packet_video_emits fuel d packet buf1
             (Nat.iter k (fun t => ts_add t (frame_time d)) (video_next_pts (state d)))
             (l ++ [y] ++ replicate k y)); try assumption.
    - right. exact Hlate.
    - destruct (Z.eqb_spec (count (video_frames d)) 0); [contradiction|]. exact E. }
  simpl video_frames. simpl state. simpl video_next_pts.
  split_and!; try assumption.
  - lia.
  - rewrite Hl2, <- !app_assoc. reflexivity.
  - reflexivity.
Qed.

Lemma ring_buffer_get_tail_ends buf offset :
  ring_buffer_get_tail buf offset <> OutOfFuel.
Proof.
  unfold ring_buffer_get_tail, c_rem, assert.
  destruct (offset <=? count buf); cbn [bind]; [|discriminate].
  destruct (capacity buf =? 0); cbn [bind]; discriminate.
Qed.

(** X13. When the newest frame sits in the last slot of the block
    ([tail = 0], in a ring of at least two slots), a frame that needs a
    duplicate in front of it makes [poll_av_packet_video] stop: the frame
    to copy is fetched through [ring_buffer_get_tail(buf, 1)], whose
    pointer lies outside the block. *)
Theorem poll_av_packet_video_wrapped_tail_faults fuel d (packet : AVPacket A V) :
  video_decoded (to_video packet) = true ->
  frame_width (to_video packet) <> 0 ->
  frame_height (to_video packet) <> 0 ->
  frame_data0 (to_video packet) = true ->
  ring_inv (video_frames d) -> block_ok (video_frames d) ->
  count (video_frames d) <> 0 ->
  tail (video_frames d) = 0 -> 2 <= capacity (video_frames d) ->
  ts_ltb (pts_seconds d (to_video packet)) (video_next_pts (state d)) = false ->
  ts_ltb (ts_add (video_next_pts (state d)) (frame_time d))
    (pts_seconds d (to_video packet)) = true ->
  exists f, poll_av_packet_video (S fuel) d packet = Fault f.
Proof.
  intros Hdec Hw Hh Hd0 Hinv Hok Hcount Htail Hcap Hlate Hcond.
  unfold poll_av_packet_video. rewrite Hdec, Hd0, Hlate. simpl negb.
  destruct (Z.eqb_spec (frame_width (to_video packet)) 0); [contradiction|].
  destruct (Z.eqb_spec (frame_height (to_video packet)) 0); [contradiction|].
  destruct (Z.eqb_spec (count (video_frames d)) 0); [contradiction|].
  cbn [orb negb andb].
  unfold video_dup_loop. rewrite Hcond. fold (@video_dup_loop R _ V).
  destruct (ring_buffer_get_tail (video_frames d) 1) as [p1|f|] eqn:E1.
  2:{ exists f. reflexivity. }
  2:{ exfalso. exact (ring_buffer_get_tail_ends _ _ E1). }
  pose proof (ring_buffer_get_tail_1_unreadable _ p1 Hinv Hok Htail Hcap E1) as Eload.
  cbn [bind].
  destruct (ring_buffer_get_tail (video_frames d) 0) as [p0|f|] eqn:E0.
  2:{ exists f. reflexivity. }
  2:{ exfalso. exact (ring_buffer_get_tail_ends _ _ E0). }
  cbn [bind].
  destruct (negb (p1 =? 0)); cbn [assert bind].
  - rewrite Eload. eexists. reflexivity.
  - eexists. reflexivity.
Qed.

End Duplicates.

Lemma poll_av_packet_video_duplicates_witness :
  exists d',
    poll_av_packet_video 2 one_frame_session (video_packet 0 15 200) = Ok d' /\
    ring_inv (video_frames d') /\ block_ok (video_frames d') /\
    count (video_frames d') = count (video_frames one_frame_session) + Z.of_nat 2 + 1 /\
    ring_items (video_frames d')
      = Ok ([] ++ [100] ++ replicate 2 100 ++ [200]) /\
    video_next_pts (state d')
      = Nat.iter 3 (fun t => ts_add t (frame_time one_frame_session))
          (video_next_pts (state one_frame_session)).
Proof.
  apply (poll_av_packet_video_duplicates 2 one_frame_session
           (video_packet 0 15 200) [] 100 2).
  - reflexivity.
  - simpl. lia.
  - simpl. lia.
  - reflexivity.
  - exact (proj1 one_frame_session_facts).
  - exact (proj1 (proj2 one_frame_session_facts)).
  - exact (proj2 (proj2 one_frame_session_facts)).
  - vm_compute. reflexivity.
  - intros j Hj. destruct j as [|[|j]]; [vm_compute; reflexivity.. | lia].
  - vm_compute. reflexivity.
  - vm_compute. discriminate.
  - right. vm_compute. split; discriminate.
  - lia.
Defined.

Lemma poll_av_packet_video_wrapped_tail_faults_witness :
  exists f,
    poll_av_packet_video 1 wrapped_video_session (video_packet 0 10 500) = Fault f.
Proof.
  apply (poll_av_packet_video_wrapped_tail_faults 0 wrapped_video_session
           (video_packet 0 10 500)).
  - reflexivity.
  - simpl. lia.
  - simpl. lia.
  - reflexivity.
  - exact tail_at_start_ring_inv.
  - exact tail_at_start_ring_block_ok.
  - simpl. lia.
  - reflexivity.
  - simpl. lia.
  - vm_compute. reflexivity.
  - vm_compute. reflexivity.
Defined.

(** ** Opening the input *)

Lemma AVMediaType_eqb_eq (a b : AVMediaType) : AVMediaType_eqb a b = true <-> a = b.
Proof. destruct a, b; unfold AVMediaType_eqb; simpl; split; intros; congruence. Qed.

Lemma find_stream_loop_positions ty l : forall i index,
  0 <= i ->
  find_stream_loop ty l i index
  = match stream_positions ty l i with
    | [] => (true, index)
    | j :: more =>
        if index >=? 0 then (false, index)
        else match more with [] => (true, j) | _ :: _ => (false, j) end
    end.
Proof.
  induction l as [|s rest IH]; intros i index Hi; simpl; [reflexivity|].
  destruct (AVMediaType_eqb (Stream.codec_type s) ty).
  - destruct (Z.geb_spec index 0); [reflexivity|].
    rewrite IH by lia.
    destruct (stream_positions ty rest (i + 1)); [reflexivity|].
    destruct (Z.geb_spec i 0); [reflexivity|lia].
  - apply IH. lia.
Qed.

Lemma stream_positions_elem ty l : forall i j,
  j ∈ stream_positions ty l i <->
  i <= j /\ exists s, l !! Z.to_nat (j - i) = Some s /\ Stream.codec_type s = ty.
Proof.
  induction l as [|s rest IH]; intros i j; simpl.
  - split; [intros Hj; inversion Hj|intros (_ & s & Hs & _); discriminate].
  - assert (Hrest : j ∈ stream_positions ty rest (i + 1) <->
                    i < j /\ exists s0, (s :: rest) !! Z.to_nat (j - i) = Some s0
                                        /\ Stream.codec_type s0 = ty).
    { rewrite IH. split.
      - intros (Hj & s0 & Hs0 & Hty). split; [lia|]. exists s0. split; [|assumption].
        replace (Z.to_nat (j - i)) with (S (Z.to_nat (j - (i + 1)))) by lia.
        exact Hs0.
      - intros (Hj & s0 & Hs0 & Hty). split; [lia|]. exists s0. split; [|assumption].
        replace (Z.to_nat (j - i)) with (S (Z.to_nat (j - (i + 1)))) in Hs0 by lia.
        exact Hs0. }
    destruct (AVMediaType_eqb (Stream.codec_type s) ty) eqn:E.
    + apply AVMediaType_eqb_eq in E. rewrite elem_of_cons, Hrest. split.
      * intros [->|(Hj & Hs)]; [|split; [lia|assumption]].
        split; [lia|]. exists s. rewrite Z.sub_diag. auto.
      * intros (Hj & s0 & Hs0 & Hty).
        destruct (Z.eq_dec j i) as [->|]; [left; reflexivity|right].
        split; [lia|eauto].
    + rewrite Hrest. split.
      * intros (Hj & Hs). split; [lia|assumption].
      * intros (Hj & s0 & Hs0 & Hty).
        destruct (Z.eq_dec j i) as [->|]; [|split; [lia|eauto]].
        rewrite Z.sub_diag in Hs0. simpl in Hs0. injection Hs0 as <-.
        apply AVMediaType_eqb_eq in Hty. congruence.
Qed.

(** X14. The stream selection of [open_av_data]: the loop over the streams
    of the input ends with the index of the stream of the wanted type when
    there is exactly one, with -1 when there is none, and ends the call
    with [return false] (at the first of them) when there are two or more.
    The positions it chooses from are exactly the indexes of the streams
    of that type. *)
Theorem find_stream_loop_unique ty (l : list Stream.t) :
  find_stream_loop ty l 0 (-1)
  = match stream_positions ty l 0 with
    | [] => (true, -1)
    | [j] => (true, j)
    | j :: _ :: _ => (false, j)
    end /\
  forall j, j ∈ stream_positions ty l 0 <->
    0 <= j /\ exists s, l !! Z.to_nat j = Some s /\ Stream.codec_type s = ty.
Proof.
  split.
  - rewrite find_stream_loop_positions by lia.
    destruct (stream_positions ty l 0) as [|j [|j' more]]; reflexivity.
  - intros j. rewrite stream_positions_elem, Z.sub_0_r. reflexivity.
Qed.

Section OpeningFacts.

Context {R : Type} `{Timestamp R} `{Truncation R} {A V : Type}.
Implicit Types d : decoder_t R A V.
Implicit Types lib : av_library A V.

Lemma init_ring_buffer_Ok (T : Type) block (junk : list T) isz cap buf :
  0 < cap -> init_ring_buffer block junk isz cap = Ok buf ->
  buf = mk_ring_buffer block isz cap 0 0 0 junk /\ 0 < isz /\ block <> 0.
Proof.
  intros Hcap E.
  destruct (init_ring_buffer_inv block junk isz cap buf Hcap E)
    as (_ & Hh & Ht & Hc & Hcap' & Hcells & Hd & Hi & Hpos & Hb).
  destruct buf; simpl in *; subst. auto.
Qed.

(** The audio block of [open_av_data] either gives up, leaving the decoder
    as it was, or installs the audio ring. *)
Lemma open_audio_stream_Ok lib args d b d' :
  open_audio_stream lib args d = Ok (b, d') ->
  (b = false /\ d' = d) \/
  (b = true /\
   d' = set_audio_samples d
          (mk_ring_buffer (audio_block lib)
             (size_mul (size_t_of_int (Args.audio_channels args)) 2)
             BUFFERED_AUDIO_SAMPLES 0 0 0 (audio_junk lib)) /\
   0 < size_mul (size_t_of_int (Args.audio_channels args)) 2 /\
   audio_block lib <> 0).
Proof.
  unfold open_audio_stream.
  destruct (negb (audio_context_allocated lib)); [intros [= <- <-]; auto|].
  destruct (negb (audio_parameters_copied lib)); [intros [= <- <-]; auto|].
  destruct (negb (audio_codec_opened lib)); [intros [= <- <-]; auto|].
  destruct (negb (resampler_allocated lib)); [intros [= <- <-]; auto|].
  destruct (Args.swresample_options args && negb (resampler_options_set lib));
    [intros [= <- <-]; auto|].
  destruct (negb (resampler_initialised lib)); [intros [= <- <-]; auto|].
  intros E. apply bind_Ok in E as (buf & E & [= <- <-]).
  apply init_ring_buffer_Ok in E as (-> & Hi & Hb);
    [|unfold BUFFERED_AUDIO_SAMPLES; lia].
  right. auto.
Qed.

Lemma open_video_stream_Ok lib args d b d' :
  open_video_stream lib args d = Ok (b, d') ->
  audio_samples d' = audio_samples d /\ state d' = state d /\
  end_of_input d' = end_of_input d /\
  video_fps_num d' = video_fps_num d /\ video_fps_den d' = video_fps_den d /\
  ((b = false /\ video_frames d' = video_frames d) \/
   (b = true /\
    video_frames d'
    = mk_ring_buffer (video_block lib)
        (size_t_of_int (Z.quot (video_width d' * video_height d' * 3) 2))
        BUFFERED_VIDEO_FRAMES 0 0 0 (video_junk lib) /\
    0 < size_t_of_int (Z.quot (video_width d' * video_height d' * 3) 2) /\
    video_block lib <> 0 /\
    (video_width d', video_height d')
    = (if Args.FLAG_BS_IGNORE_ASPECT args then (video_width d, video_height d)
       else (video_width (fit_aspect_ratio lib d),
             video_height (fit_aspect_ratio lib d))))).
Proof.
  unfold open_video_stream.
  destruct (negb (video_context_allocated lib)); [intros [= <- <-]; auto 10|].
  destruct (negb (video_parameters_copied lib)); [intros [= <- <-]; auto 10|].
  destruct (negb (video_codec_opened lib)); [intros [= <- <-]; auto 10|].
  set (d1 := if negb (Args.FLAG_BS_IGNORE_ASPECT args) then fit_aspect_ratio lib d
             else d).
  assert (Hd1 : audio_samples d1 = audio_samples d /\ state d1 = state d /\
                end_of_input d1 = end_of_input d /\
                video_fps_num d1 = video_fps_num d /\
                video_fps_den d1 = video_fps_den d /\
                video_frames d1 = video_frames d /\
                (video_width d1, video_height d1)
                = (if Args.FLAG_BS_IGNORE_ASPECT args
                   then (video_width d, video_height d)
                   else (video_width (fit_aspect_ratio lib d),
                         video_height (fit_aspect_ratio lib d)))).
  { subst d1. destruct (Args.FLAG_BS_IGNORE_ASPECT args); simpl; [auto 10|].
    unfold fit_aspect_ratio. destruct (ts_ltb _ _); simpl; auto 10. }
  destruct Hd1 as (Ha & Hs & He & Hn & Hdn & Hv & Hsize).
  destruct (negb (scaler_created lib)); [intros [= <- <-]; auto 10|].
  destruct (negb (colorspace_set lib)); [intros [= <- <-]; auto 10|].
  destruct (Args.swscale_options args && negb (scaler_options_set lib));
    [intros [= <- <-]; auto 10|].
  intros E. apply bind_Ok in E as (buf & E & [= <- <-]).
  apply init_ring_buffer_Ok in E as (-> & Hi & Hb);
    [|unfold BUFFERED_VIDEO_FRAMES; lia].
  simpl. split_and!; try assumption. right. split_and!; auto.
Qed.

End OpeningFacts.

Section OpeningTheorems.

Context {R : Type} `{Timestamp R} `{Truncation R} {A V : Type}.
Implicit Types d : decoder_t R A V.
Implicit Types lib : av_library A V.

(** What the selection of one track leaves: no track, or the only stream
    of its type. *)
Lemma find_stream_loop_selected ty (l : list Stream.t) (use required : bool) :
  let found := if use then find_stream_loop ty l 0 (-1) else (true, -1) in
  fst found = true ->
  use && required && (snd found =? -1) = false ->
  (snd found = -1 /\
   (use = true -> required = false /\ stream_positions ty l 0 = [])) \/
  (use = true /\ 0 <= snd found /\ stream_positions ty l 0 = [snd found]).
Proof.
  destruct use; simpl; [|intros _ _; left; split; [reflexivity|discriminate]].
  rewrite find_stream_loop_positions by lia.
  pose proof (stream_positions_elem ty l 0) as Hpos.
  destruct (stream_positions ty l 0) as [|j [|j' more]]; simpl.
  - intros _ Hreq. left. split; [reflexivity|]. intros _.
    destruct required; [discriminate|auto].
  - intros _ _. right. split_and!; auto.
    apply (Hpos j). left.
  - discriminate.
Qed.

(** What a successful [open_av_data] leaves. *)
Lemma open_av_data_opened lib args flags d :
  open_av_data lib args flags = Ok (true, d) ->
  format (state d) = packets lib /\ end_of_input d = false /\
  video_fps_num d = Args.str_fps_num args /\
  video_fps_den d = Args.str_fps_den args /\
  ((audio_stream_index (state d) = -1 /\ audio_samples d = absent_ring /\
    (DECODER_USE_AUDIO flags = true ->
     DECODER_AUDIO_REQUIRED flags = false /\
     stream_positions AVMEDIA_TYPE_AUDIO (streams lib) 0 = [])) \/
   (DECODER_USE_AUDIO flags = true /\
    0 <= audio_stream_index (state d) /\
    stream_positions AVMEDIA_TYPE_AUDIO (streams lib) 0
      = [audio_stream_index (state d)] /\
    audio_samples d
      = mk_ring_buffer (audio_block lib)
          (size_mul (size_t_of_int (Args.audio_channels args)) 2)
          BUFFERED_AUDIO_SAMPLES 0 0 0 (audio_junk lib) /\
    0 < size_mul (size_t_of_int (Args.audio_channels args)) 2 /\
    audio_block lib <> 0)) /\
  ((video_stream_index (state d) = -1 /\ video_frames d = absent_ring /\
    (DECODER_USE_VIDEO flags = true ->
     DECODER_VIDEO_REQUIRED flags = false /\
     stream_positions AVMEDIA_TYPE_VIDEO (streams lib) 0 = [])) \/
   (DECODER_USE_VIDEO flags = true /\
    0 <= video_stream_index (state d) /\
    stream_positions AVMEDIA_TYPE_VIDEO (streams lib) 0
      = [video_stream_index (state d)] /\
    video_frames d
      = mk_ring_buffer (video_block lib)
          (size_t_of_int (Z.quot (video_width d * video_height d * 3) 2))
          BUFFERED_VIDEO_FRAMES 0 0 0 (video_junk lib) /\
    0 < size_t_of_int (Z.quot (video_width d * video_height d * 3) 2) /\
    video_block lib <> 0)).
Proof.
  intros E. unfold open_av_data in E.
  change (@init_ring_buffer A 0 [] 1 0) with (Ok (@absent_ring A)) in E.
  change (@init_ring_buffer V 0 [] 1 0) with (Ok (@absent_ring V)) in E.
  cbn [bind] in E.
  destruct (negb (input_opened lib)); [discriminate|].
  destruct (negb (stream_info_found lib)); [discriminate|].
  cbn [state set_format audio_stream_index video_stream_index
       set_audio_stream_index set_video_stream_index] in E.
  pose proof (find_stream_loop_selected AVMEDIA_TYPE_AUDIO (streams lib)
                (DECODER_USE_AUDIO flags) (DECODER_AUDIO_REQUIRED flags)) as Ha.
  pose proof (find_stream_loop_selected AVMEDIA_TYPE_VIDEO (streams lib)
                (DECODER_USE_VIDEO flags) (DECODER_VIDEO_REQUIRED flags)) as Hv.
  cbv zeta in Ha, Hv.
  set (fa := if DECODER_USE_AUDIO flags
             then find_stream_loop AVMEDIA_TYPE_AUDIO (streams lib) 0 (-1)
             else (true, -1)) in *.
  set (fv := if DECODER_USE_VIDEO flags
             then find_stream_loop AVMEDIA_TYPE_VIDEO (streams lib) 0 (-1)
             else (true, -1)) in *.
  clearbody fa fv. destruct fa as [oka ia], fv as [okv iv].
  cbn [fst snd] in *.
  destruct oka; [|discriminate]. cbn [negb] in E.
  destruct (DECODER_USE_AUDIO flags && DECODER_AUDIO_REQUIRED flags && (ia =? -1))
    eqn:Hreqa; [discriminate|].
  destruct okv; [|discriminate]. cbn [negb] in E.
  destruct (DECODER_USE_VIDEO flags && DECODER_VIDEO_REQUIRED flags && (iv =? -1))
    eqn:Hreqv; [discriminate|].
  specialize (Ha eq_refl eq_refl). specialize (Hv eq_refl eq_refl).
  match type of E with
  | context [Ok (true, ?x)] => set (d2 := x) in E
  end.
  assert (Hd2 : audio_samples d2 = absent_ring /\ video_frames d2 = absent_ring /\
                audio_stream_index (state d2) = ia /\
                video_stream_index (state d2) = iv /\
                format (state d2) = packets lib /\ end_of_input d2 = false /\
                video_fps_num d2 = Args.str_fps_num args /\
                video_fps_den d2 = Args.str_fps_den args).
  { subst d2. destruct (iv =? -1); [simpl; auto 10|].
    destruct (streams lib !! Z.to_nat iv); simpl; auto 10. }
  clearbody d2.
  destruct Hd2 as (Hra & Hrv & Hia & Hiv & Hfmt & Hend & Hnum & Hden).
  apply bind_Ok in E as ([b1 d3] & E1 & E). cbn [fst snd] in E.
  destruct b1; [|discriminate]. cbn [negb] in E.
  apply bind_Ok in E as ([b2 d4] & E2 & E). cbn [fst snd] in E.
  destruct b2; [|discriminate]. cbn [negb] in E.
  destruct (negb (frame_allocated lib)); [discriminate|].
  injection E as <-.
  assert (H3 : state d3 = state d2 /\ video_frames d3 = video_frames d2 /\
               end_of_input d3 = end_of_input d2 /\
               video_fps_num d3 = video_fps_num d2 /\
               video_fps_den d3 = video_fps_den d2 /\
               ((ia = -1 /\ audio_samples d3 = audio_samples d2) \/
                (ia <> -1 /\
                 audio_samples d3
                 = mk_ring_buffer (audio_block lib)
                     (size_mul (size_t_of_int (Args.audio_channels args)) 2)
                     BUFFERED_AUDIO_SAMPLES 0 0 0 (audio_junk lib) /\
                 0 < size_mul (size_t_of_int (Args.audio_channels args)) 2 /\
                 audio_block lib <> 0))).
  { rewrite Hia in E1. destruct (Z.eqb_spec ia (-1)).
    - injection E1 as <-. auto 10.
    - apply open_audio_stream_Ok in E1 as [[? _]|(_ & -> & Hi & Hb)];
        [discriminate|]. simpl. split_and!; auto. }
  destruct H3 as (Hs3 & Hv3 & He3 & Hn3 & Hdn3 & Haud).
  assert (H4 : state d4 = state d3 /\ audio_samples d4 = audio_samples d3 /\
               end_of_input d4 = end_of_input d3 /\
               video_fps_num d4 = video_fps_num d3 /\
               video_fps_den d4 = video_fps_den d3 /\
               ((iv = -1 /\ video_frames d4 = video_frames d3) \/
                (iv <> -1 /\
                 video_frames d4
                 = mk_ring_buffer (video_block lib)
                     (size_t_of_int (Z.quot (video_width d4 * video_height d4 * 3) 2))
                     BUFFERED_VIDEO_FRAMES 0 0 0 (video_junk lib) /\
                 0 < size_t_of_int (Z.quot (video_width d4 * video_height d4 * 3) 2) /\
                 video_block lib <> 0))).
  { rewrite Hs3, Hiv in E2. destruct (Z.eqb_spec iv (-1)).
    - injection E2 as <-. auto 10.
    - apply open_video_stream_Ok in E2
        as (Ha4 & Hs4 & He4 & Hn4 & Hdn4 & [[? _]|(_ & Hring & Hi & Hb & _)]);
        [discriminate|]. split_and!; auto 10. }
  destruct H4 as (Hs4 & Ha4 & He4 & Hn4 & Hdn4 & Hvid).
  rewrite Hs4, Hs3, Hfmt, Hia, Hiv, He4, He3, Hend, Hn4, Hn3, Hnum, Hdn4, Hdn3, Hden.
  split_and!; try reflexivity.
  - destruct Haud as [(-> & Hring)|(Hne & Hring & Hi & Hb)].
    + left. split; [reflexivity|]. split; [congruence|].
      destruct Ha as [(_ & Hnone)|(_ & Hpos & _)]; [exact Hnone|lia].
    + right. destruct Ha as [(? & _)|(Huse & Hpos & Hsel)]; [contradiction|].
      split_and!; auto. congruence.
  - destruct Hvid as [(-> & Hring)|(Hne & Hring & Hi & Hb)].
    + left. split; [reflexivity|]. split; [congruence|].
      destruct Hv as [(_ & Hnone)|(_ & Hpos & _)]; [exact Hnone|lia].
    + right. destruct Hv as [(? & _)|(Huse & Hpos & Hsel)]; [contradiction|].
      split_and!; auto.
Qed.

(** X15. A call of [open_av_data] that returns true leaves a decoder whose
    input is at its first packet, with [end_of_input] clear and the frame
    rate of the arguments.  For each of the two tracks, either its stream
    index is -1 and its ring is the ring of capacity 0 (the track was not
    asked for, or it was not required and the input has no stream of its
    type), or the index is that of the only stream of the type and the
    ring is empty, in the block [malloc] returned, with the capacity
    [BUFFERED_AUDIO_SAMPLES] or [BUFFERED_VIDEO_FRAMES] and an item size
    that is not 0. *)
Theorem open_av_data_tracks lib args flags d :
  open_av_data lib args flags = Ok (true, d) ->
  format (state d) = packets lib /\ end_of_input d = false /\
  video_fps_num d = Args.str_fps_num args /\
  video_fps_den d = Args.str_fps_den args /\
  ((audio_stream_index (state d) = -1 /\ audio_samples d = absent_ring /\
    (DECODER_USE_AUDIO flags = true ->
     DECODER_AUDIO_REQUIRED flags = false /\
     stream_positions AVMEDIA_TYPE_AUDIO (streams lib) 0 = [])) \/
   (DECODER_USE_AUDIO flags = true /\
    0 <= audio_stream_index (state d) /\
    stream_positions AVMEDIA_TYPE_AUDIO (streams lib) 0
      = [audio_stream_index (state d)] /\
    audio_samples d
      = mk_ring_buffer (audio_block lib)
          (size_mul (size_t_of_int (Args.audio_channels args)) 2)
          BUFFERED_AUDIO_SAMPLES 0 0 0 (audio_junk lib) /\
    0 < size_mul (size_t_of_int (Args.audio_channels args)) 2 /\
    audio_block lib <> 0)) /\
  ((video_stream_index (state d) = -1 /\ video_frames d = absent_ring /\
    (DECODER_USE_VIDEO flags = true ->
     DECODER_VIDEO_REQUIRED flags = false /\
     stream_positions AVMEDIA_TYPE_VIDEO (streams lib) 0 = [])) \/
   (DECODER_USE_VIDEO flags = true /\
    0 <= video_stream_index (state d) /\
    stream_positions AVMEDIA_TYPE_VIDEO (streams lib) 0
      = [video_stream_index (state d)] /\
    video_frames d
      = mk_ring_buffer (video_block lib)
          (size_t_of_int (Z.quot (video_width d * video_height d * 3) 2))
          BUFFERED_VIDEO_FRAMES 0 0 0 (video_junk lib) /\
    0 < size_t_of_int (Z.quot (video_width d * video_height d * 3) 2) /\
    video_block lib <> 0)).
Proof. exact (open_av_data_opened lib args flags d). Qed.

End OpeningTheorems.

(** ** Tracks that are ready stay ready *)

Section KeptInvariant.

Context {T : Type}.
Implicit Types buf : ring_buffer_t T.

Lemma ring_buffer_append_keeps_inv buf n buf' :
  ring_inv buf -> ring_buffer_append buf n = Ok buf' ->
  ring_inv buf' /\ capacity buf' = capacity buf.
Proof.
  intros Hinv E. pose proof (ring_buffer_append_Ok buf n buf' E) as Hn.
  destruct (ring_buffer_append_inv buf n Hinv Hn) as [E' Hinv'].
  rewrite E' in E. injection E as <-. auto.
Qed.

(** Copying into the block and committing keeps the invariant. *)
Lemma write_keeps_inv buf ptr (src : list T) n buf1 buf2 :
  ring_inv buf -> memcpy_items buf ptr src n = Ok buf1 ->
  ring_buffer_append buf1 n = Ok buf2 ->
  ring_inv buf2 /\ capacity buf2 = capacity buf.
Proof.
  intros Hinv Em Ea.
  apply memcpy_items_Ok in Em as (_ & cells' & -> & _).
  apply ring_buffer_append_keeps_inv in Ea; [exact Ea|exact Hinv].
Qed.

End KeptInvariant.

Section PumpKeepsTracks.

Context {R : Type} `{Timestamp R} {A V : Type}.
Implicit Types d : decoder_t R A V.

Lemma audio_span_loop_keeps_inv fuel : forall (buf : ring_buffer_t A) ptr n buf' log,
  ring_inv buf -> audio_span_loop fuel buf ptr n = Ok (buf', log) ->
  ring_inv buf' /\ capacity buf' = capacity buf.
Proof.
  induction fuel as [|fuel IH]; intros buf ptr n buf' log Hinv E; simpl in E;
    destruct (n >? 0); try discriminate; try (injection E as <- <-; auto).
  apply bind_Ok in E as (span & _ & E).
  apply bind_Ok in E as (buf1 & Em & E).
  apply bind_Ok in E as (buf2 & Ea & E).
  apply bind_Ok in E as ([buf3 log3] & Erec & [= <- <-]).
  destruct (write_keeps_inv _ _ _ _ _ _ Hinv Em Ea) as [Hinv2 Hcap2].
  destruct (IH _ _ _ _ _ Hinv2 Erec) as [Hinv3 Hcap3].
  simpl. split; [assumption|congruence].
Qed.

Lemma video_dup_loop_keeps_inv fuel (ft pts : R) :
  forall (buf : ring_buffer_t V) next buf' next',
  ring_inv buf -> video_dup_loop fuel buf next ft pts = Ok (buf', next') ->
  ring_inv buf' /\ capacity buf' = capacity buf.
Proof.
  induction fuel as [|fuel IH]; intros buf next buf' next' Hinv E; simpl in E;
    destruct (ts_ltb (ts_add next ft) pts); try discriminate;
    try (injection E as <- <-; auto).
  apply bind_Ok in E as (p1 & _ & E).
  apply bind_Ok in E as (p0 & _ & E).
  apply bind_Ok in E as (_ & _ & E).
  apply bind_Ok in E as (y & _ & E).
  apply bind_Ok in E as (buf1 & Em & E).
  apply bind_Ok in E as (buf2 & Ea & E).
  destruct (write_keeps_inv _ _ _ _ _ _ Hinv Em Ea) as [Hinv2 Hcap2].
  destruct (IH _ _ _ _ Hinv2 E) as [Hinv3 Hcap3].
  split; [assumption|congruence].
Qed.

Lemma poll_av_packet_audio_keeps_inv fuel d (packet : AVPacket A V) d' :
  ring_inv (audio_samples d) ->
  poll_av_packet_audio fuel d packet = Ok d' ->
  ring_inv (audio_samples d') /\
  capacity (audio_samples d') = capacity (audio_samples d).
Proof.
  intros Hinv. unfold poll_av_packet_audio.
  destruct (negb (audio_decoded (to_audio packet))); [intros [= <-]; auto|].
  destruct (out_samples (to_audio packet) =? 0); [intros [= <-]; auto|].
  intros E. apply bind_Ok in E as (_ & _ & E).
  apply bind_Ok in E as ([buf' log] & Eloop & [= <-]). simpl.
  eapply audio_span_loop_keeps_inv; eassumption.
Qed.

Lemma poll_av_packet_video_keeps_inv fuel d (packet : AVPacket A V) d' :
  ring_inv (video_frames d) ->
  poll_av_packet_video fuel d packet = Ok d' ->
  ring_inv (video_frames d') /\
  capacity (video_frames d') = capacity (video_frames d) /\
  audio_stream_index (state d') = audio_stream_index (state d) /\
  video_stream_index (state d') = video_stream_index (state d).
Proof.
  intros Hinv. unfold poll_av_packet_video.
  destruct (negb (video_decoded (to_video packet))); [intros [= <-]; auto|].
  destruct ((frame_width (to_video packet) =? 0)
            || (frame_height (to_video packet) =? 0)
            || negb (frame_data0 (to_video packet))); [intros [= <-]; auto|].
  destruct (negb (count (video_frames d) =? 0)
            && ts_ltb (pts_seconds d (to_video packet)) (video_next_pts (state d)));
    [intros [= <-]; auto|].
  intros E. apply bind_Ok in E as ([buf1 next1] & Eloop & E). simpl in E.
  apply bind_Ok in E as (p & _ & E).
  apply bind_Ok in E as (b1 & Em & E).
  apply bind_Ok in E as (b2 & Ea & [= <-]).
  destruct (video_dup_loop_keeps_inv _ _ _ _ _ _ _ Hinv Eloop) as [Hinv1 Hcap1].
  destruct (write_keeps_inv _ _ _ _ _ _ Hinv1 Em Ea) as [Hinv2 Hcap2].
  simpl. split_and!; auto. congruence.
Qed.

Lemma poll_av_data_keeps_tracks fuel d b d' :
  tracks_ready d -> poll_av_data fuel d = Ok (b, d') -> tracks_ready d'.
Proof.
  intros (Ha & Hv & Hf) E. unfold poll_av_data in E.
  destruct (end_of_input d); [injection E as <- <-; repeat split; assumption|].
  destruct (format (state d)) as [|packet rest] eqn:Ef.
  { injection E as <- <-. unfold tracks_ready. simpl. rewrite Ef. auto. }
  apply bind_Ok in E as (d1 & E & [= <- <-]).
  apply Forall_cons in Hf as [Hidx Hrest].
  cbn [state set_format audio_stream_index video_stream_index] in E.
  destruct (Z.eqb_spec (stream_index packet) (audio_stream_index (state d)))
    as [Ea|Ea].
  - destruct Ha as [[Hno _]|(Hi & Hinv & Hcap)]; [lia|].
    pose proof (poll_av_packet_audio_state _ _ _ _ E) as (Hs & Hvf & _).
    destruct (poll_av_packet_audio_keeps_inv fuel (set_format d rest) packet d1)
      as [Hinv' Hcap']; [exact Hinv|exact E|].
    unfold tracks_ready. rewrite Hs, Hvf. simpl. split_and!.
    + right. split_and!; auto. simpl in Hcap'. congruence.
    + exact Hv.
    + exact Hrest.
  - destruct (Z.eqb_spec (stream_index packet) (video_stream_index (state d)))
      as [Ev|Ev].
    + destruct Hv as [[Hno _]|(Hi & Hinv & Hcap)]; [lia|].
      pose proof (poll_av_packet_video_state _ _ _ _ E) as (Hfmt & Haf & _).
      destruct (poll_av_packet_video_keeps_inv fuel (set_format d rest) packet d1)
        as (Hinv' & Hcap' & Hia & Hiv); [exact Hinv|exact E|].
      unfold tracks_ready. rewrite Hfmt, Haf, Hia, Hiv. simpl. split_and!.
      * exact Ha.
      * right. split_and!; auto. simpl in Hcap'. congruence.
      * exact Hrest.
    + injection E as <-. unfold tracks_ready. simpl. auto.
Qed.

Lemma ensure_av_data_loop_keeps_tracks fuel na nv rounds : forall d b d',
  tracks_ready d -> ensure_av_data_loop rounds fuel d na nv = Ok (b, d') ->
  tracks_ready d'.
Proof.
  induction rounds as [|rounds IH]; intros d b d' Hready; simpl;
    destruct (ensure_waits d na nv); try discriminate;
    try (intros [= <- <-]; exact Hready).
  intros E. apply bind_Ok in E as ([more d1] & Ep & E). simpl in E.
  pose proof (poll_av_data_keeps_tracks _ _ _ _ Hready Ep) as Hready1.
  destruct more; simpl in E.
  - eapply IH; eassumption.
  - injection E as <- <-. exact Hready1.
Qed.

(** X16. The pump keeps the tracks ready: when the ring of each selected
    track satisfies the invariant, the ring of each absent track is the
    untouched ring of capacity 0 and no packet has a negative stream
    index, the same holds after every call of [poll_av_data] and of
    [ensure_av_data] that returns: the ring of an absent track is never
    written to. *)
Theorem pump_keeps_tracks_ready fuel d na nv b d' :
  tracks_ready d ->
  poll_av_data fuel d = Ok (b, d') \/ ensure_av_data fuel d na nv = Ok (b, d') ->
  tracks_ready d'.
Proof.
  intros Hready [E|E].
  - eapply poll_av_data_keeps_tracks; eassumption.
  - eapply ensure_av_data_loop_keeps_tracks; eassumption.
Qed.

End PumpKeepsTracks.

Section OpenedReady.

Context {R : Type} `{Timestamp R} `{Truncation R} {A V : Type}.

(** X17. A decoder [open_av_data] has opened is ready for the pump: if no
    packet of the input has a negative stream index, each ring of the
    decoder is either the empty ring of its selected track, with the
    invariant and the capacity [BUFFERED_AUDIO_SAMPLES] or
    [BUFFERED_VIDEO_FRAMES], or the ring of capacity 0 of a track whose
    stream index is -1, which no packet is routed to. *)
Theorem open_av_data_tracks_ready (lib : av_library A V) args flags
    (d : decoder_t R A V) :
  open_av_data lib args flags = Ok (true, d) ->
  Forall (fun p => 0 <= stream_index p) (packets lib) ->
  tracks_ready d /\
  count (audio_samples d) = 0 /\ count (video_frames d) = 0.
Proof.
  intros E Hpk.
  destruct (open_av_data_opened lib args flags d E)
    as (Hfmt & _ & _ & _ & Ha & Hv).
  unfold tracks_ready. rewrite Hfmt.
  assert (Haud : ((audio_stream_index (state d) = -1 /\ audio_samples d = absent_ring) \/
                  (0 <= audio_stream_index (state d) /\ ring_inv (audio_samples d) /\
                   capacity (audio_samples d) = BUFFERED_AUDIO_SAMPLES)) /\
                 count (audio_samples d) = 0).
  { destruct Ha as [(Hi & -> & _)|(_ & Hi & _ & -> & _)].
    - split; [left; auto|reflexivity].
    - split; [right|reflexivity]. split_and!; auto.
      apply ring_inv_intro; simpl; unfold BUFFERED_AUDIO_SAMPLES; lia. }
  assert (Hvid : ((video_stream_index (state d) = -1 /\ video_frames d = absent_ring) \/
                  (0 <= video_stream_index (state d) /\ ring_inv (video_frames d) /\
                   capacity (video_frames d) = BUFFERED_VIDEO_FRAMES)) /\
                 count (video_frames d) = 0).
  { destruct Hv as [(Hi & -> & _)|(_ & Hi & _ & -> & _)].
    - split; [left; auto|reflexivity].
    - split; [right|reflexivity]. split_and!; auto.
      apply ring_inv_intro; simpl; unfold BUFFERED_VIDEO_FRAMES; lia. }
  destruct Haud as [Haud ->], Hvid as [Hvid ->]. auto.
Qed.

End OpenedReady.

(** ** Closing *)

Section Closing.

Context {R : Type} `{Timestamp R} `{Truncation R} {A V : Type}.
Implicit Types d : decoder_t R A V.
Implicit Types lib : av_library A V.

(** However [open_av_data] ends, each ring of the decoder is the ring of
    capacity 0 or has a block. *)
Lemma open_av_data_rings lib args flags b d :
  open_av_data lib args flags = Ok (b, d) ->
  allocated_or_absent (audio_samples d) /\ allocated_or_absent (video_frames d).
Proof.
  intros E. unfold open_av_data in E.
  change (@init_ring_buffer A 0 [] 1 0) with (Ok (@absent_ring A)) in E.
  change (@init_ring_buffer V 0 [] 1 0) with (Ok (@absent_ring V)) in E.
  cbn [bind] in E.
  assert (Habs : forall T, allocated_or_absent (@absent_ring T))
    by (intros T _; reflexivity).
  destruct (negb (input_opened lib)); [injection E as <- <-; simpl; auto|].
  destruct (negb (stream_info_found lib)); [injection E as <- <-; simpl; auto|].
  cbn [state set_format audio_stream_index video_stream_index
       set_audio_stream_index set_video_stream_index] in E.
  set (fa := if DECODER_USE_AUDIO flags
             then find_stream_loop AVMEDIA_TYPE_AUDIO (streams lib) 0 (-1)
             else (true, -1)) in *.
  set (fv := if DECODER_USE_VIDEO flags
             then find_stream_loop AVMEDIA_TYPE_VIDEO (streams lib) 0 (-1)
             else (true, -1)) in *.
  clearbody fa fv. destruct fa as [oka ia], fv as [okv iv].
  cbn [fst snd] in *.
  destruct (negb oka); [injection E as <- <-; simpl; auto|].
  destruct (DECODER_USE_AUDIO flags && DECODER_AUDIO_REQUIRED flags && (ia =? -1));
    [injection E as <- <-; simpl; auto|].
  destruct (negb okv); [injection E as <- <-; simpl; auto|].
  destruct (DECODER_USE_VIDEO flags && DECODER_VIDEO_REQUIRED flags && (iv =? -1));
    [injection E as <- <-; simpl; auto|].
  match type of E with
  | context [Ok (true, ?x)] => set (d2 := x) in E
  end.
  assert (Hd2 : audio_samples d2 = absent_ring /\ video_frames d2 = absent_ring).
  { subst d2. destruct (iv =? -1); [simpl; auto|].
    destruct (streams lib !! Z.to_nat iv); simpl; auto. }
  clearbody d2. destruct Hd2 as (Hra & Hrv).
  apply bind_Ok in E as ([b1 d3] & E1 & E). cbn [fst snd] in E.
  assert (H3 : allocated_or_absent (audio_samples d3) /\
               video_frames d3 = absent_ring).
  { destruct (audio_stream_index (state d2) =? -1).
    - injection E1 as <- <-. rewrite Hra. auto.
    - apply open_audio_stream_Ok in E1 as [[_ ->]|(_ & -> & _ & Hb)].
      + rewrite Hra. auto.
      + simpl. split; [|assumption]. intros Hnull. contradiction. }
  destruct H3 as [Ha3 Hv3].
  destruct b1; cbn [negb] in E.
  2:{ injection E as <- <-. rewrite Hv3. auto. }
  apply bind_Ok in E as ([b2 d4] & E2 & E). cbn [fst snd] in E.
  assert (H4 : allocated_or_absent (audio_samples d4) /\
               allocated_or_absent (video_frames d4)).
  { destruct (video_stream_index (state d3) =? -1).
    - injection E2 as <- <-. rewrite Hv3. auto.
    - apply open_video_stream_Ok in E2
        as (-> & _ & _ & _ & _ & [[_ ->]|(_ & -> & _ & Hb & _)]).
      + rewrite Hv3. auto.
      + split; [assumption|]. intros Hnull. contradiction. }
  destruct b2; cbn [negb] in E.
  2:{ injection E as <- <-. exact H4. }
  destruct (negb (frame_allocated lib)); injection E as <- <-; exact H4.
Qed.

Lemma destroy_ring_buffer_released {T : Type} (buf : ring_buffer_t T) :
  data (destroy_ring_buffer buf) = 0 /\
  destroy_ring_buffer (destroy_ring_buffer buf) = destroy_ring_buffer buf /\
  (allocated_or_absent buf -> capacity (destroy_ring_buffer buf) = 0).
Proof.
  assert (Hd : data (destroy_ring_buffer buf) = 0).
  { unfold destroy_ring_buffer.
    destruct (Z.eqb_spec (data buf) 0) as [Hnull|Hblock]; simpl; auto. }
  split; [exact Hd|]. split.
  - unfold destroy_ring_buffer at 1. rewrite Hd. reflexivity.
  - intros Hbuf. unfold destroy_ring_buffer.
    destruct (Z.eqb_spec (data buf) 0) as [Hnull|Hblock]; simpl; auto.
Qed.

(** X18. [close_av_data] after [open_av_data], however the latter ended
    (also with [return false] half-way through), on pointers none of
    which dangles: the call returns, both rings end without block and
    with capacity 0, the stream indexes and the input position are
    untouched, and [frame], [resampler] and [audio_codec_context] are
    [NULL].  [format] and [resample_buffer], released through their value,
    dangle when they pointed to an object, so a second [close_av_data]
    then releases the same object again and does not return; it returns,
    changing nothing, only when both were [NULL]. *)
Theorem close_av_data_after_open lib args flags b d (p : Pointers.t) :
  open_av_data lib args flags = Ok (b, d) ->
  none_dangling p ->
  exists p' d',
    close_av_data p d = Ok (p', d') /\
    data (audio_samples d') = 0 /\ capacity (audio_samples d') = 0 /\
    data (video_frames d') = 0 /\ capacity (video_frames d') = 0 /\
    state d' = state d /\
    Pointers.frame p' = NULL /\ Pointers.resampler p' = NULL /\
    Pointers.audio_codec_context p' = NULL /\
    (Pointers.format p' = Dangling <-> Pointers.format p = Live) /\
    (Pointers.resample_buffer p' = Dangling <-> Pointers.resample_buffer p = Live) /\
    (Pointers.format p = Live \/ Pointers.resample_buffer p = Live ->
     close_av_data p' d' = Fault OutOfBounds) /\
    (Pointers.format p = NULL -> Pointers.resample_buffer p = NULL ->
     close_av_data p' d' = Ok (p', d')).
Proof.
  intros E (Hf & Hr & Hc & Hfmt & Hbuf).
  destruct (open_av_data_rings lib args flags b d E) as [Ha Hv].
  destruct (destroy_ring_buffer_released (audio_samples d)) as (Hda & Hia & Hca).
  destruct (destroy_ring_buffer_released (video_frames d)) as (Hdv & Hiv & Hcv).
  specialize (Hca Ha). specialize (Hcv Hv).
  destruct p as [f r c fmt buf]. simpl in *.
  assert (Efr : free_and_reset f = Ok NULL) by (destruct f; [reflexivity..|contradiction]).
  assert (Er : free_and_reset r = Ok NULL) by (destruct r; [reflexivity..|contradiction]).
  assert (Ecl : close_codec c = Ok tt) by (destruct c; [reflexivity..|contradiction]).
  assert (Ec : free_and_reset c = Ok NULL) by (destruct c; [reflexivity..|contradiction]).
  unfold close_av_data. simpl. rewrite Efr, Er, Ecl, Ec. simpl.
  destruct fmt; [| |contradiction]; destruct buf; [| |contradiction| | |contradiction];
    simpl; do 2 eexists; (split; [reflexivity|]); simpl;
    rewrite ?Hia, ?Hiv;
    (split_and!; try assumption; try reflexivity; try tauto;
     try (split; intros; congruence); try (intros [?|?]; congruence);
     try (intros; congruence)).
Qed.

End Closing.

(** ** The aspect ratio *)

Lemma land_lnot_15 (x : Z) : Z.land x (Z.lnot 15) = 16 * (x / 16).
Proof.
  rewrite <- Z.ldiff_land. change 15 with (Z.ones 4).
  rewrite Z.ldiff_ones_r by lia.
  rewrite Z.shiftl_mul_pow2, Z.shiftr_div_pow2 by lia.
  change (2 ^ 4) with 16. lia.
Qed.

Section AspectRatio.

Context {R : Type} `{Timestamp R} `{Truncation R} {A V : Type}.

(** X19. The aspect-ratio reduction of [open_av_data], whatever the
    arithmetic of [double].  It changes one dimension and keeps the other
    and the rest of the decoder: the width when the ratio of the input,
    as computed, is below the ratio asked for, the height otherwise.  The
    new dimension is [t & ~15] for the value [t] the conversion to [int]
    gives, that is the largest multiple of 16 that does not exceed [t]. *)
Theorem fit_aspect_ratio_reduces (lib : av_library A V) (d : decoder_t R A V) :
  let src_ratio :=
    ts_div (ts_of_int (context_width lib)) (ts_of_int (context_height lib)) in
  let dst_ratio :=
    ts_div (ts_of_int (video_width d)) (ts_of_int (video_height d)) in
  let t :=
    if ts_ltb src_ratio dst_ratio
    then ts_to_int (ts_add (ts_mul (ts_of_int (video_height d)) src_ratio)
                      (ts_of_int 15))
    else ts_to_int (ts_add (ts_div (ts_of_int (video_width d)) src_ratio)
                      (ts_of_int 15)) in
  fit_aspect_ratio lib d
  = (if ts_ltb src_ratio dst_ratio
     then set_video_size d (16 * (t / 16)) (video_height d)
     else set_video_size d (video_width d) (16 * (t / 16))) /\
  t - 15 <= 16 * (t / 16) <= t /\
  (16 * (t / 16)) mod 16 = 0 /\
  (video_width (fit_aspect_ratio lib d) = video_width d \/
   video_height (fit_aspect_ratio lib d) = video_height d) /\
  audio_samples (fit_aspect_ratio lib d) = audio_samples d /\
  video_frames (fit_aspect_ratio lib d) = video_frames d /\
  video_fps_num (fit_aspect_ratio lib d) = video_fps_num d /\
  video_fps_den (fit_aspect_ratio lib d) = video_fps_den d /\
  end_of_input (fit_aspect_ratio lib d) = end_of_input d /\
  state (fit_aspect_ratio lib d) = state d.
Proof.
  intros src_ratio dst_ratio t. subst t. unfold fit_aspect_ratio.
  fold src_ratio dst_ratio.
  destruct (ts_ltb src_ratio dst_ratio); rewrite land_lnot_15; simpl;
    (split; [reflexivity|]);
    (split; [match goal with
             | |- ?x - 15 <= 16 * (?x / 16) <= ?x =>
                 pose proof (Z.div_mod x 16 ltac:(lia));
                 pose proof (Z.mod_pos_bound x 16 ltac:(lia)); lia
             end|]);
    (split; [rewrite Z.mul_comm; apply Z.mod_mul; lia|]);
    auto 10.
Qed.

End AspectRatio.

(** ** The worked opening *)

Lemma sample_decoder_opened :
  open_av_data sample_library sample_args sample_flags = Ok (true, sample_decoder).
Proof. reflexivity. Qed.

Lemma sample_decoder_ready : tracks_ready sample_decoder.
Proof.
  unfold tracks_ready. split_and!.
  - right. split_and!; [simpl; lia | | reflexivity].
    apply fresh_ring_inv. unfold BUFFERED_AUDIO_SAMPLES. lia.
  - right. split_and!; [simpl; lia | | reflexivity].
    apply fresh_ring_inv. unfold BUFFERED_VIDEO_FRAMES. lia.
  - simpl. repeat constructor; simpl; lia.
Qed.

Lemma open_av_data_tracks_witness :
  format (state sample_decoder) = packets sample_library /\
  end_of_input sample_decoder = false /\
  video_fps_num sample_decoder = Args.str_fps_num sample_args /\
  video_fps_den sample_decoder = Args.str_fps_den sample_args /\
  ((audio_stream_index (state sample_decoder) = -1 /\
    audio_samples sample_decoder = absent_ring /\
    (DECODER_USE_AUDIO sample_flags = true ->
     DECODER_AUDIO_REQUIRED sample_flags = false /\
     stream_positions AVMEDIA_TYPE_AUDIO (streams sample_library) 0 = [])) \/
   (DECODER_USE_AUDIO sample_flags = true /\
    0 <= audio_stream_index (state sample_decoder) /\
    stream_positions AVMEDIA_TYPE_AUDIO (streams sample_library) 0
      = [audio_stream_index (state sample_decoder)] /\
    audio_samples sample_decoder
      = mk_ring_buffer (audio_block sample_library)
          (size_mul (size_t_of_int (Args.audio_channels sample_args)) 2)
          BUFFERED_AUDIO_SAMPLES 0 0 0 (audio_junk sample_library) /\
    0 < size_mul (size_t_of_int (Args.audio_channels sample_args)) 2 /\
    audio_block sample_library <> 0)) /\
  ((video_stream_index (state sample_decoder) = -1 /\
    video_frames sample_decoder = absent_ring /\
    (DECODER_USE_VIDEO sample_flags = true ->
     DECODER_VIDEO_REQUIRED sample_flags = false /\
     stream_positions AVMEDIA_TYPE_VIDEO (streams sample_library) 0 = [])) \/
   (DECODER_USE_VIDEO sample_flags = true /\
    0 <= video_stream_index (state sample_decoder) /\
    stream_positions AVMEDIA_TYPE_VIDEO (streams sample_library) 0
      = [video_stream_index (state sample_decoder)] /\
    video_frames sample_decoder
      = mk_ring_buffer (video_block sample_library)
          (size_t_of_int
             (Z.quot (video_width sample_decoder * video_height sample_decoder * 3) 2))
          BUFFERED_VIDEO_FRAMES 0 0 0 (video_junk sample_library) /\
    0 < size_t_of_int
          (Z.quot (video_width sample_decoder * video_height sample_decoder * 3) 2) /\
    video_block sample_library <> 0)).
Proof.
  apply (open_av_data_tracks sample_library sample_args sample_flags sample_decoder).
  reflexivity.
Defined.

Lemma pump_keeps_tracks_ready_witness :
  exists d', poll_av_data 0 sample_decoder = Ok (true, d') /\ tracks_ready d'.
Proof.
  eexists. split; [reflexivity|].
  apply (pump_keeps_tracks_ready 0 sample_decoder 0 0 true).
  - exact sample_decoder_ready.
  - left. reflexivity.
Defined.

Lemma open_av_data_tracks_ready_witness :
  tracks_ready sample_decoder /\
  count (audio_samples sample_decoder) = 0 /\
  count (video_frames sample_decoder) = 0.
Proof.
  apply (open_av_data_tracks_ready sample_library sample_args sample_flags).
  - reflexivity.
  - simpl. repeat constructor; simpl; lia.
Defined.

Lemma close_av_data_after_open_witness :
  exists p' d',
    close_av_data sample_pointers sample_decoder = Ok (p', d') /\
    data (audio_samples d') = 0 /\ capacity (audio_samples d') = 0 /\
    data (video_frames d') = 0 /\ capacity (video_frames d') = 0 /\
    state d' = state sample_decoder /\
    Pointers.frame p' = NULL /\ Pointers.resampler p' = NULL /\
    Pointers.audio_codec_context p' = NULL /\
    (Pointers.format p' = Dangling <-> Pointers.format sample_pointers = Live) /\
    (Pointers.resample_buffer p' = Dangling
     <-> Pointers.resample_buffer sample_pointers = Live) /\
    (Pointers.format sample_pointers = Live \/
     Pointers.resample_buffer sample_pointers = Live ->
     close_av_data p' d' = Fault OutOfBounds) /\
    (Pointers.format sample_pointers = NULL ->
     Pointers.resample_buffer sample_pointers = NULL ->
     close_av_data p' d' = Ok (p', d')).
Proof.
  apply (close_av_data_after_open sample_library sample_args sample_flags true).
  - reflexivity.
  - unfold none_dangling. simpl. split_and!; discriminate.
Defined.

Lemma fit_aspect_ratio_reduces_witness :
  fit_aspect_ratio wide_library (requested_384x240 float)
    = set_video_size (requested_384x240 float) 384 224 /\
  fit_aspect_ratio wide_library (requested_384x240 Qc)
    = set_video_size (requested_384x240 Qc) 384 240.
Proof.
  split.
  - rewrite (proj1 (fit_aspect_ratio_reduces wide_library (requested_384x240 float))).
    vm_compute. reflexivity.
  - rewrite (proj1 (fit_aspect_ratio_reduces wide_library (requested_384x240 Qc))).
    vm_compute. reflexivity.
Defined.

(** ** Edges of the ring interface *)

Section HeadEdge.

Context {T : Type}.
Implicit Types buf : ring_buffer_t T.

(** X20. The assertion of [ring_buffer_get_head] lets [offset = count]
    through: on a ring that is not empty the call returns the address of
    the slot at [tail], the one [ring_buffer_get_tail(buf, 0)] returns.
    Unless the ring is full that slot holds none of the queued items; on
    a full ring it is the slot of the oldest one. *)
Theorem ring_buffer_get_head_past_newest buf :
  ring_inv buf -> block_ok buf -> 0 < count buf ->
  ring_buffer_get_head buf (count buf) = Ok (slot_address buf (tail buf)) /\
  ring_buffer_get_tail buf 0 = Ok (slot_address buf (tail buf)) /\
  (count buf < capacity buf ->
   forall i, 0 <= i < count buf -> (head buf + i) mod capacity buf <> tail buf) /\
  (count buf = capacity buf -> tail buf = head buf).
Proof.
  intros Hinv Hok Hcount.
  pose proof (ring_inv_tail buf Hinv) as Ht.
  pose proof Hinv as (Hc & Hcnt & Hh & Htl & _).
  split_and!.
  - rewrite ring_buffer_get_head_in_block by (assumption || lia).
    do 2 f_equal. rewrite mod_wrap by lia.
    destruct (Z.ltb_spec (head buf + count buf) (capacity buf)); lia.
  - rewrite ring_buffer_get_tail_in_block by (assumption || lia).
    rewrite Z.sub_0_r. reflexivity.
  - intros Hroom i Hi. rewrite mod_wrap by lia.
    destruct (Z.ltb_spec (head buf + i) (capacity buf)); lia.
  - lia.
Qed.

End HeadEdge.

Lemma ring_buffer_get_head_past_newest_witness :
  ring_buffer_get_head small_wrapped_ring (count small_wrapped_ring)
    = Ok (slot_address small_wrapped_ring (tail small_wrapped_ring)) /\
  ring_buffer_get_tail small_wrapped_ring 0
    = Ok (slot_address small_wrapped_ring (tail small_wrapped_ring)) /\
  (count small_wrapped_ring < capacity small_wrapped_ring ->
   forall i, 0 <= i < count small_wrapped_ring ->
     (head small_wrapped_ring + i) mod capacity small_wrapped_ring
       <> tail small_wrapped_ring) /\
  (count small_wrapped_ring = capacity small_wrapped_ring ->
   tail small_wrapped_ring = head small_wrapped_ring).
Proof.
  apply (ring_buffer_get_head_past_newest small_wrapped_ring).
  - exact small_wrapped_ring_inv.
  - exact small_wrapped_ring_block_ok.
  - simpl. lia.
Defined.

Lemma ring_arithmetic_in_int_witness :
  in_int (capacity wrapped_audio_ring - count wrapped_audio_ring) /\
  (5000 <= capacity wrapped_audio_ring - count wrapped_audio_ring ->
   in_int (tail wrapped_audio_ring + 5000) /\
   in_int (count wrapped_audio_ring + 5000)) /\
  (5000 <= count wrapped_audio_ring ->
   in_int (head wrapped_audio_ring + 5000) /\
   in_int (count wrapped_audio_ring - 5000)) /\
  in_int (head wrapped_audio_ring + 1) /\ in_int (tail wrapped_audio_ring - 1) /\
  in_int (head wrapped_audio_ring + count wrapped_audio_ring) /\
  in_int (capacity wrapped_audio_ring - tail wrapped_audio_ring) /\
  in_int (head wrapped_audio_ring - tail wrapped_audio_ring).
Proof.
  apply (ring_arithmetic_in_int wrapped_audio_ring 5000 1).
  - apply ring_inv_intro; simpl; unfold BUFFERED_AUDIO_SAMPLES; lia.
  - simpl. unfold BUFFERED_AUDIO_SAMPLES. lia.
  - lia.
  - simpl. lia.
Defined.

(** The same opening with binary64 arithmetic gives the same size. *)
Lemma sample_decoder_binary64 :
  exists d : decoder_t float Z Z,
    open_av_data sample_library sample_args sample_flags = Ok (true, d) /\
    video_width d = video_width sample_decoder /\
    video_height d = video_height sample_decoder /\
    video_frames d = video_frames sample_decoder.
Proof.
  eexists. split; [reflexivity|].
  split; [reflexivity|]. split; [vm_compute; reflexivity|].
  vm_compute. reflexivity.
Qed.
